(** * LLMover: the relocation engine of [llm_mover], embedded and verified

    The development follows [src/llm_mover/utils.py] and
    [src/llm_mover/models.py].  Python code that raises and mutates becomes
    a state-and-exception monad over an explicit filesystem; the operating
    system and the Python library (mount table, free space, [fnmatch],
    [hashlib.md5], the clock, the process id, I/O faults of the device) are
    the fields of an environment record [Env]. *)

From Stdlib Require Import ZArith List String Ascii Bool Lia.
From Stdlib.Strings Require Import Byte.
From stdpp Require Import base option list strings gmap fin_maps pretty.

Open Scope Z_scope.

(** ** Exceptions *)

(** The exception classes the code raises or catches.  [is_OSError] is the
    subclass test of [except (OSError, PermissionError)]; every class here
    derives from [Exception], so [except Exception] catches all of them. *)
Inductive exn_class :=
| OSError | FileNotFoundError | FileExistsError | PermissionError
| NotADirectoryError | IsADirectoryError | ShutilError
| ValueError | RuntimeError | OtherException.

Record exn := Exn { exn_kind : exn_class; exn_str : string }.

Definition is_OSError (e : exn) : bool :=
  match exn_kind e with
  | OSError | FileNotFoundError | FileExistsError | PermissionError
  | NotADirectoryError | IsADirectoryError | ShutilError => true
  | ValueError | RuntimeError | OtherException => false
  end.

#[global] Instance exn_class_eq_dec : EqDecision exn_class.
Proof. solve_decision. Defined.
#[global] Instance exn_eq_dec : EqDecision exn.
Proof. solve_decision. Defined.

(** ** The monad: state passing with exceptions *)

(** A raised exception keeps the state reached so far: Python undoes
    nothing when it unwinds. *)
Inductive outcome (A : Type) :=
| Return (a : A)
| Raise (e : exn).
Arguments Return {A} a.
Arguments Raise {A} e.

Definition M (S A : Type) : Type := S -> outcome A * S.

Definition ret {S A} (a : A) : M S A := fun s => (Return a, s).
Definition raise {S A} (e : exn) : M S A := fun s => (Raise e, s).
Definition bind {S A B} (m : M S A) (k : A -> M S B) : M S B :=
  fun s => match m s with
           | (Return a, s') => k a s'
           | (Raise e, s') => (Raise e, s')
           end.
Definition get {S} : M S S := fun s => (Return s, s).
Definition gets {S A} (f : S -> A) : M S A := fun s => (Return (f s), s).
Definition put {S} (s : S) : M S unit := fun _ => (Return tt, s).
Definition modify {S} (f : S -> S) : M S unit := fun s => (Return tt, f s).

Declare Scope monad_scope.
Delimit Scope monad_scope with monad.
Notation "x <- m ;; k" := (bind m (fun x => k))
  (at level 100, m at next level, right associativity) : monad_scope.
Notation "m ;; k" := (bind m (fun _ => k))
  (at level 100, right associativity) : monad_scope.
Open Scope monad_scope.

(** [try: body except Exception as e: handler e] *)
Definition try_except {S A} (body : M S A) (handler : exn -> M S A) : M S A :=
  fun s => match body s with
           | (Return a, s') => (Return a, s')
           | (Raise e, s') => handler e s'
           end.

(** [try: body except (C1, C2) as e: handler e]: other classes propagate. *)
Definition try_except_when {S A} (catches : exn -> bool)
    (body : M S A) (handler : exn -> M S A) : M S A :=
  fun s => match body s with
           | (Return a, s') => (Return a, s')
           | (Raise e, s') => if catches e then handler e s' else (Raise e, s')
           end.

(** [try: body except Exception: pass] *)
Definition try_pass {S} (body : M S unit) : M S unit :=
  try_except body (fun _ => ret tt).

(** [try: body finally: fin] *)
Definition try_finally {S A} (body : M S A) (fin : M S unit) : M S A :=
  fun s => match body s with
           | (Return a, s') =>
               match fin s' with
               | (Return _, s'') => (Return a, s'')
               | (Raise e, s'') => (Raise e, s'')
               end
           | (Raise e, s') =>
               match fin s' with
               | (Return _, s'') => (Raise e, s'')
               | (Raise e', s'') => (Raise e', s'')
               end
           end.

Definition when {S} (b : bool) (m : M S unit) : M S unit :=
  if b then m else ret tt.

(** [for x in xs: body x] *)
Fixpoint for_each {S A} (xs : list A) (body : A -> M S unit) : M S unit :=
  match xs with
  | [] => ret tt
  | x :: rest => body x ;; for_each rest body
  end.

(** A result that cannot raise, as a computation. *)
Definition lift_outcome {S A} (o : outcome A) : M S A := fun s => (o, s).

(** Local variables that an exception handler reads after the body has
    changed them ([moved_files], [backups], the manager's own fields) are a
    second state component [L] next to the filesystem. *)
Definition lift_fs {L F A} (m : M F A) : M (L * F) A :=
  fun s => match m (snd s) with (r, f') => (r, (fst s, f')) end.
Definition lift_local {L F A} (m : M L A) : M (L * F) A :=
  fun s => match m (fst s) with (r, l') => (r, (l', snd s)) end.
Definition with_locals {L F A} (init : L) (m : M (L * F) A) : M F A :=
  fun f => match m (init, f) with (r, s') => (r, snd s') end.

(** ** Paths *)

(** A [pathlib.Path] is the list of its [parts]: an absolute path starts
    with the part ["/"], a relative one does not. *)
Abbreviation Path := (list string) (only parsing).

Definition is_absolute (p : Path) : bool :=
  match p with
  | first :: _ => bool_decide (first = "/")
  | [] => false
  end.

(** [p / name] for a single-component [name], and [p / q] for a relative [q]. *)
Definition path_join (p : Path) (name : string) : Path := p ++ [name].
Definition path_concat (p q : Path) : Path := p ++ q.

(** [p.name] and [p.parent] *)
Definition path_name (p : Path) : string :=
  if bool_decide (p = ["/"]) then "" else List.last p "".
Definition path_parent (p : Path) : Path :=
  if bool_decide (p = ["/"]) then p else removelast p.

(** [str(p)] *)
Definition path_str (p : Path) : string :=
  match p with
  | [] => "."
  | _ :: rest =>
      if is_absolute p then "/" +:+ String.concat "/" rest
      else String.concat "/" p
  end.

(** [Path(str(p) + suffix)] for a suffix without separator *)
Definition path_add_suffix (p : Path) (suffix : string) : Path :=
  match p with
  | [] => ["." +:+ suffix]
  | _ =>
      if bool_decide (p = ["/"]) then ["/"; suffix]
      else removelast p ++ [List.last p "" +:+ suffix]
  end.

(** [p.relative_to(base)]: [ValueError] when [base] is not a prefix. *)
Fixpoint relative_to (p base : Path) : outcome Path :=
  match base, p with
  | [], _ => Return p
  | b :: base', c :: p' =>
      if bool_decide (b = c) then relative_to p' base'
      else Raise (Exn ValueError "path is not in the subpath of base")
  | _ :: _, [] => Raise (Exn ValueError "path is not in the subpath of base")
  end.

(** ** The environment *)

Inductive syscall := SysOpenWrite | SysWrite | SysOpenRead | SysDiskUsage.

Record Env := {
  env_platform : string;                 (* platform.system() *)
  env_ismount : string -> bool;          (* os.path.ismount *)
  env_pid : Z;                           (* os.getpid() *)
  env_time : Z;                          (* int(time.time()) *)
  env_cwd : Path;                        (* working directory, absolute *)
  env_disk_usage : Path -> Z * Z * Z;    (* shutil.disk_usage: total, used, free *)
  env_dir_size : Z;                      (* st_size of a directory *)
  env_fault : syscall -> Path -> option exn;     (* an I/O error of the device *)
  env_store : Path -> list byte -> list byte;    (* the bytes the device keeps of a write *)
  env_fnmatch : string -> string -> bool;        (* fnmatch.fnmatch name pattern *)
  env_md5 : list byte -> string;                 (* hashlib.md5(data).hexdigest() *)
  env_disconnected_before_delete : bool; (* the monitor's flag at the first checkpoint *)
  env_disconnected_at_completion : bool  (* the monitor's flag at the second checkpoint *)
}.

(** ** The filesystem *)

(** The filesystem maps each absolute, link-free path to its node.  The
    children of a directory are the keys one part longer. *)
Inductive node :=
| File (data : list byte)
| Dir
| Symlink (target : Path).

#[global] Instance byte_eq_decision : EqDecision byte := byte_eq_dec.
#[global] Instance node_eq_dec : EqDecision node.
Proof. solve_decision. Defined.

Abbreviation filesystem := (gmap (list string) node) (only parsing).

(** The root is always a directory. *)
Definition node_at (fs : filesystem) (k : Path) : option node :=
  if bool_decide (k = ["/"]) then Some Dir else fs !! k.

(** Where a path leads: to an existing node, to a missing last component of
    an existing directory, or nowhere. *)
Inductive located :=
| Found (k : Path)
| Missing (k : Path)
| Invalid (c : exn_class).

Definition SYMLOOP_MAX : nat := 40.

(** Path resolution (as [stat] does it): [cur] is the directory reached,
    [todo] the components still to walk; every link is followed, at most
    [hops] of them. *)
Fixpoint walk (hops : nat) (fs : filesystem) : Path -> Path -> located :=
  fix go (cur todo : Path) {struct todo} : located :=
    match todo with
    | [] => Found cur
    | c :: rest =>
        if bool_decide (c = "..") then go (path_parent cur) rest
        else
          match node_at fs (cur ++ [c]) with
          | None =>
              match rest with
              | [] => Missing (cur ++ [c])
              | _ => Invalid FileNotFoundError
              end
          | Some Dir => go (cur ++ [c]) rest
          | Some (File _) =>
              match rest with
              | [] => Found (cur ++ [c])
              | _ => Invalid NotADirectoryError
              end
          | Some (Symlink t) =>
              match hops with
              | O => Invalid OSError
              | S h =>
                  if is_absolute t then walk h fs ["/"] (List.tl t ++ rest)
                  else walk h fs cur (t ++ rest)
              end
          end
    end.

(** The text of an operating-system error. *)
Definition errno_text (c : exn_class) : string :=
  match c with
  | FileNotFoundError => "[Errno 2] No such file or directory"
  | FileExistsError => "[Errno 17] File exists"
  | NotADirectoryError => "[Errno 20] Not a directory"
  | IsADirectoryError => "[Errno 21] Is a directory"
  | PermissionError => "[Errno 1] Operation not permitted"
  | _ => "[Errno 22] Invalid argument"
  end.
Definition os_error (c : exn_class) (p : Path) : exn :=
  Exn c (errno_text c +:+ ": '" +:+ path_str p +:+ "'").

(** The subtree below a key, removing it, and moving it. *)
Definition remove_subtree (k : Path) (fs : filesystem) : filesystem :=
  filter (fun kv => ~ k `prefix_of` kv.1) fs.
Definition subtree_list (k : Path) (fs : filesystem) : list (Path * node) :=
  List.filter (fun kv => bool_decide (k `prefix_of` kv.1)) (map_to_list fs).
Definition move_subtree (ks kd : Path) (fs : filesystem) : filesystem :=
  foldr (fun kv m => <[kd ++ drop (length ks) kv.1 := kv.2]> m)
        (remove_subtree kd (remove_subtree ks fs))
        (subtree_list ks fs).
Definition children (k : Path) (fs : filesystem) : list (string * node) :=
  omap (fun kv => if bool_decide (removelast kv.1 = k /\ kv.1 <> k /\ kv.1 <> [])
                  then Some (List.last kv.1 "", kv.2) else None)
       (map_to_list fs).

Section Filesystem.
Context (E : Env).

(** *** Queries *)

(** [stat]: the final component is followed. *)
Definition locate_follow (p : Path) (fs : filesystem) : located :=
  if is_absolute p then walk SYMLOOP_MAX fs ["/"] (List.tl p)
  else walk SYMLOOP_MAX fs (env_cwd E) p.

(** [lstat]: the directory entry itself, the final component not followed. *)
Definition locate_entry (p : Path) (fs : filesystem) : located :=
  let name := path_name p in
  if bool_decide (name = "") || bool_decide (name = "..") then locate_follow p fs
  else
    match locate_follow (path_parent p) fs with
    | Found d =>
        match node_at fs d with
        | Some Dir =>
            match node_at fs (d ++ [name]) with
            | Some _ => Found (d ++ [name])
            | None => Missing (d ++ [name])
            end
        | Some _ => Invalid NotADirectoryError
        | None => Invalid FileNotFoundError
        end
    | Missing _ => Invalid FileNotFoundError
    | Invalid c => Invalid c
    end.

Definition node_of (l : located) (fs : filesystem) : option node :=
  match l with Found k => node_at fs k | _ => None end.
Definition error_of (l : located) : exn_class :=
  match l with Invalid c => c | _ => FileNotFoundError end.

Definition stat (p : Path) (fs : filesystem) : option node :=
  node_of (locate_follow p fs) fs.
Definition lstat (p : Path) (fs : filesystem) : option node :=
  node_of (locate_entry p fs) fs.

(** [p.exists()], [p.is_file()], [p.is_dir()] follow links; [p.is_symlink()]
    does not.  In this filesystem a [stat] fails only because the path
    leads nowhere (a missing component, a file in the place of a directory,
    a loop of links), which these tests answer with [False]; the errors of
    permission and of the device, which [pathlib] lets through, are faults
    of [open] and [disk_usage] only ([env_fault]). *)
Definition path_exists (p : Path) (fs : filesystem) : bool :=
  match stat p fs with Some _ => true | None => false end.
Definition path_is_file (p : Path) (fs : filesystem) : bool :=
  match stat p fs with Some (File _) => true | _ => false end.
Definition path_is_dir (p : Path) (fs : filesystem) : bool :=
  match stat p fs with Some Dir => true | _ => false end.
Definition path_is_symlink (p : Path) (fs : filesystem) : bool :=
  match lstat p fs with Some (Symlink _) => true | _ => false end.

(** [p.readlink()]: the recorded target, as written in the link. *)
Definition readlink (p : Path) (fs : filesystem) : outcome Path :=
  match lstat p fs with
  | Some (Symlink t) => Return t
  | Some _ => Raise (os_error OSError p)
  | None => Raise (os_error (error_of (locate_entry p fs)) p)
  end.

(** [p.stat().st_size] *)
Definition st_size (p : Path) (fs : filesystem) : outcome Z :=
  match stat p fs with
  | Some (File data) => Return (Z.of_nat (length data))
  | Some Dir => Return (env_dir_size E)
  | _ => Raise (os_error (error_of (locate_follow p fs)) p)
  end.

(** [p.resolve()], not strict: a path that leads nowhere is only made
    absolute; a link loop raises [RuntimeError]. *)
Definition path_resolve (p : Path) (fs : filesystem) : outcome Path :=
  match locate_follow p fs with
  | Found k | Missing k => Return k
  | Invalid OSError => Raise (Exn RuntimeError ("Symlink loop from '" +:+ path_str p +:+ "'"))
  | Invalid _ => Return (if is_absolute p then p else env_cwd E ++ p)
  end.

(** [p.rglob("*")]: every path below the directory [p]; links to
    directories are listed and not entered. *)
Definition rglob (p : Path) (fs : filesystem) : list Path :=
  match locate_follow p fs with
  | Found k =>
      match node_at fs k with
      | Some Dir =>
          (fun kv => p ++ drop (length k) kv.1) <$>
            List.filter (fun kv => negb (bool_decide (kv.1 = k))) (subtree_list k fs)
      | _ => []
      end
  | _ => []
  end.

(** *** Operations *)

(** Storing bytes at a path, as [open(p, "wb")] does: an existing regular
    file is replaced, a missing one created; links are followed. *)
Definition store_file (p : Path) (data : list byte) : M filesystem unit :=
  fun fs =>
    match locate_follow p fs with
    | Found k =>
        match node_at fs k with
        | Some (File _) => (Return tt, <[k := File data]> fs)
        | _ => (Raise (os_error IsADirectoryError p), fs)
        end
    | Missing k => (Return tt, <[k := File data]> fs)
    | Invalid c => (Raise (os_error c p), fs)
    end.

(** [with open(p, "wb") as f: f.write(data); f.flush(); os.fsync(f.fileno())]:
    a failing [open] leaves nothing behind; once the file is open it is
    there, created or truncated, so a failing [write], [flush] or [fsync]
    leaves it with the bytes the device kept, which are [env_store] of the
    bytes written. *)
Definition write_file (p : Path) (data : list byte) : M filesystem unit :=
  match env_fault E SysOpenWrite p with
  | Some e => raise e
  | None =>
      store_file p (env_store E p data) ;;
      match env_fault E SysWrite p with
      | Some e => raise e
      | None => ret tt
      end
  end.

(** [with open(p, "rb") as f: f.read()] *)
Definition read_file (p : Path) : M filesystem (list byte) :=
  fun fs =>
    match env_fault E SysOpenRead p with
    | Some e => (Raise e, fs)
    | None =>
        match stat p fs with
        | Some (File data) => (Return data, fs)
        | Some _ => (Raise (os_error IsADirectoryError p), fs)
        | None => (Raise (os_error (error_of (locate_follow p fs)) p), fs)
        end
    end.

(** [shutil.disk_usage(p)]: (total, used, free) *)
Definition disk_usage (p : Path) : M filesystem (Z * Z * Z) :=
  fun fs =>
    match env_fault E SysDiskUsage p with
    | Some e => (Raise e, fs)
    | None =>
        if path_exists p fs then (Return (env_disk_usage E p), fs)
        else (Raise (os_error FileNotFoundError p), fs)
    end.

(** [p.unlink()] *)
Definition unlink (p : Path) : M filesystem unit :=
  fun fs =>
    match locate_entry p fs with
    | Found k =>
        match node_at fs k with
        | Some Dir => (Raise (os_error IsADirectoryError p), fs)
        | Some _ => (Return tt, delete k fs)
        | None => (Raise (os_error FileNotFoundError p), fs)
        end
    | l => (Raise (os_error (error_of l) p), fs)
    end.

(** [os.mkdir(p)] *)
Definition os_mkdir (p : Path) : M filesystem unit :=
  fun fs =>
    match locate_entry p fs with
    | Found _ => (Raise (os_error FileExistsError p), fs)
    | Missing k => (Return tt, <[k := Dir]> fs)
    | Invalid c => (Raise (os_error c p), fs)
    end.

(** [p.mkdir(parents=..., exist_ok=...)], as [pathlib] writes it. *)
Fixpoint path_mkdir (fuel : nat) (parents exist_ok : bool) (p : Path)
    : M filesystem unit :=
  fun fs =>
    match os_mkdir p fs with
    | (Return _, fs') => (Return tt, fs')
    | (Raise e, fs') =>
        if bool_decide (exn_kind e = FileNotFoundError) then
          if negb parents || bool_decide (path_parent p = p) then (Raise e, fs')
          else
            match fuel with
            | O => (Raise e, fs')
            | S f =>
                (path_mkdir f true true (path_parent p) ;;
                 path_mkdir f false exist_ok p) fs'
            end
        else if negb exist_ok || negb (path_is_dir p fs') then (Raise e, fs')
        else (Return tt, fs')
    end.
Definition mkdir (parents exist_ok : bool) (p : Path) : M filesystem unit :=
  path_mkdir (length p) parents exist_ok p.

(** [p.symlink_to(target)] *)
Definition symlink_to (p target : Path) : M filesystem unit :=
  fun fs =>
    match locate_entry p fs with
    | Found _ => (Raise (os_error FileExistsError p), fs)
    | Missing k => (Return tt, <[k := Symlink target]> fs)
    | Invalid c => (Raise (os_error c p), fs)
    end.

(** [shutil.rmtree(p)] *)
Definition rmtree (p : Path) : M filesystem unit :=
  fun fs =>
    match locate_entry p fs with
    | Found k =>
        match node_at fs k with
        | Some Dir => (Return tt, remove_subtree k fs)
        | Some (Symlink _) =>
            (Raise (Exn OSError "Cannot call rmtree on a symbolic link"), fs)
        | _ => (Raise (os_error NotADirectoryError p), fs)
        end
    | l => (Raise (os_error (error_of l) p), fs)
    end.

(** [os.rename(src, dst)] on one device: a file or link replaces a file or
    link, a directory replaces only an empty directory, nothing moves below
    itself. *)
Definition os_rename (src dst : Path) : M filesystem unit :=
  fun fs =>
    match locate_entry src fs with
    | Found ks =>
        match locate_entry dst fs with
        | Invalid c => (Raise (os_error c dst), fs)
        | Found kd | Missing kd =>
            if bool_decide (ks = kd) then (Return tt, fs)
            else if bool_decide (ks `prefix_of` kd) then (Raise (os_error OSError dst), fs)
            else
              match node_at fs ks, node_at fs kd with
              | Some Dir, Some Dir =>
                  match children kd fs with
                  | [] => (Return tt, move_subtree ks kd fs)
                  | _ => (Raise (os_error OSError dst), fs)
                  end
              | Some Dir, Some _ => (Raise (os_error NotADirectoryError dst), fs)
              | Some Dir, None => (Return tt, move_subtree ks kd fs)
              | Some _, Some Dir => (Raise (os_error IsADirectoryError dst), fs)
              | Some _, _ => (Return tt, move_subtree ks kd fs)
              | None, _ => (Raise (os_error FileNotFoundError src), fs)
              end
        end
    | l => (Raise (os_error (error_of l) src), fs)
    end.

(** [os.path.samefile], with its errors read as "no". *)
Definition samefile (p q : Path) (fs : filesystem) : bool :=
  match locate_follow p fs, locate_follow q fs with
  | Found k1, Found k2 => bool_decide (k1 = k2)
  | _, _ => false
  end.

Definition abspath (p : Path) : Path :=
  if is_absolute p then p else env_cwd E ++ p.

(** [shutil.move(str(src), str(dst))].  Source and destination are on one
    device here; what the library does when [os.rename] fails is kept where
    its outcome differs: a directory moved below a missing parent gets its
    parents made, the rest fails as the rename did. *)
Definition shutil_move (src dst : Path) : M filesystem unit :=
  fs <- get ;;
  let rename_or_copy (real_dst : Path) : M filesystem unit :=
    try_except_when is_OSError (os_rename src real_dst)
      (fun e =>
         fs' <- get ;;
         if path_is_symlink src fs' then raise e
         else if path_is_dir src fs' then
           if bool_decide (abspath src `prefix_of` abspath dst)
           then raise (Exn ShutilError ("Cannot move a directory '" +:+ path_str src
                                        +:+ "' into itself '" +:+ path_str dst +:+ "'."))
           else mkdir true true (path_parent real_dst) ;; os_rename src real_dst
         else raise e) in
  if path_is_dir dst fs then
    if samefile src dst fs && negb (path_is_symlink src fs) then os_rename src dst
    else
      let real_dst := path_join dst (path_name src) in
      if path_exists real_dst fs
      then raise (Exn ShutilError ("Destination path '" +:+ path_str real_dst
                                   +:+ "' already exists"))
      else rename_or_copy real_dst
  else rename_or_copy dst.

(** [shutil.copy2(src, dst, follow_symlinks=...)] *)
Definition copy2 (src dst : Path) (follow_symlinks : bool) : M filesystem unit :=
  fs <- get ;;
  let dst := if path_is_dir dst fs then path_join dst (path_name src) else dst in
  if negb follow_symlinks && path_is_symlink src fs then
    target <- lift_outcome (readlink src fs) ;;
    symlink_to dst target
  else if samefile src dst fs then
    raise (Exn ShutilError (path_str src +:+ " and " +:+ path_str dst +:+ " are the same file"))
  else
    match stat src fs with
    | Some (File data) => store_file dst data
    | Some _ => raise (os_error IsADirectoryError src)
    | None => raise (os_error (error_of (locate_follow src fs)) src)
    end.

(** [shutil.copytree(src, dst, dirs_exist_ok=True)]: links are followed
    ([symlinks=False]), the errors of the entries are collected and raised
    at the end.  [fuel] bounds the nesting of directories. *)
Fixpoint copytree_rec (fuel : nat) (src dst : Path) : M filesystem unit :=
  fs <- get ;;
  match locate_follow src fs with
  | Found k =>
      match node_at fs k with
      | Some Dir =>
          let entries := children k fs in
          mkdir true true dst ;;
          failed <-
            (fix loop (entries : list (string * node)) : M filesystem bool :=
               match entries with
               | [] => ret false
               | (name, n) :: rest =>
                   err <- try_except_when is_OSError
                            (fs' <- get ;;
                             let deeper :=
                               match fuel with
                               | O => raise (os_error OSError (path_join src name))
                               | S f => copytree_rec f (path_join src name) (path_join dst name)
                               end in
                             match n with
                             | Symlink _ =>
                                 if path_is_dir (path_join src name) fs' then deeper
                                 else copy2 (path_join src name) (path_join dst name) true
                             | Dir => deeper
                             | File _ => copy2 (path_join src name) (path_join dst name) true
                             end ;;
                             ret false)
                            (fun _ => ret true) ;;
                   err' <- loop rest ;;
                   ret (err || err')
               end) entries ;;
          if failed then raise (Exn ShutilError ("errors while copying '" +:+ path_str src +:+ "'"))
          else ret tt
      | _ => raise (os_error NotADirectoryError src)
      end
  | l => raise (os_error (error_of l) src)
  end.
Definition copytree (src dst : Path) : M filesystem unit :=
  fs <- get ;;
  copytree_rec (S (size fs)) src dst.

End Filesystem.

(** ** utils.py *)

Definition MiB : Z := 1024 * 1024.
Definition GiB : Z := 1024 * 1024 * 1024.

(** [f"{n:,}"] *)
Fixpoint group_thousands (digits : list ascii) : list ascii :=
  match digits with
  | a :: b :: c :: ((_ :: _) as rest) => a :: b :: c :: ","%char :: group_thousands rest
  | _ => digits
  end.
Definition format_thousands (n : Z) : string :=
  let digits := string_of_list_ascii
                  (rev (group_thousands (rev (list_ascii_of_string (pretty (Z.abs n)))))) in
  if n <? 0 then "-" +:+ digits else digits.

(** *** verify_usb_mounted *)

Record USBVerificationResult := mkUSBVerificationResult {
  is_mounted : bool;
  is_writable : bool;
  has_space : bool;
  error_message : string;
  mount_type : string  (* "not_mounted", "directory", "mount_point", "unknown" *)
}.

(** Reading a file through a handle: [read(n)], [read()], [seek(pos)],
    [seek(offset, 2)]. *)
Record file_handle := mkFileHandle { fh_data : list byte; fh_pos : Z }.

Fixpoint takeZ {A} (l : list A) (n : Z) : list A :=
  match l with
  | [] => []
  | x :: rest => if n <=? 0 then [] else x :: takeZ rest (n - 1)
  end.
Fixpoint dropZ {A} (l : list A) (n : Z) : list A :=
  match l with
  | [] => []
  | x :: rest => if n <=? 0 then l else dropZ rest (n - 1)
  end.

Definition fh_read_all (f : file_handle) : list byte * file_handle :=
  (dropZ (fh_data f) (fh_pos f),
   mkFileHandle (fh_data f) (Z.max (fh_pos f) (Z.of_nat (length (fh_data f))))).
Definition fh_read (n : Z) (f : file_handle) : list byte * file_handle :=
  if n <? 0 then fh_read_all f
  else
    let chunk := takeZ (dropZ (fh_data f) (fh_pos f)) n in
    (chunk, mkFileHandle (fh_data f) (fh_pos f + Z.of_nat (length chunk))).
Definition fh_seek (pos : Z) (f : file_handle) : outcome file_handle :=
  if pos <? 0 then Raise (Exn ValueError "negative seek position")
  else Return (mkFileHandle (fh_data f) pos).
Definition fh_seek_end (offset : Z) (f : file_handle) : outcome file_handle :=
  let pos := Z.of_nat (length (fh_data f)) + offset in
  if pos <? 0 then Raise (Exn OSError "[Errno 22] Invalid argument")
  else Return (mkFileHandle (fh_data f) pos).

(** [while chunk := f.read(chunk_size): hasher.update(chunk)]; the hasher
    is the bytes it has been fed. *)
Fixpoint read_chunks (fuel : nat) (chunk_size : Z) (f : file_handle)
    (hasher : list byte) : list byte :=
  match fuel with
  | O => hasher
  | S fuel' =>
      let '(chunk, f') := fh_read chunk_size f in
      match chunk with
      | [] => hasher
      | _ => read_chunks fuel' chunk_size f' (hasher ++ chunk)
      end
  end.

Section Utils.
Context (E : Env).

Definition pid_str : string := pretty (env_pid E).

(** The walk over the parents of [usb_path] up to [/Volumes]. *)
Fixpoint find_mounted_ancestor (fuel : nat) (current : Path) : bool :=
  match fuel with
  | O => false
  | S fuel' =>
      if negb (bool_decide (path_str current = "/Volumes"))
         && negb (bool_decide (current = path_parent current))
      then
        if env_ismount E (path_str current) then true
        else find_mounted_ancestor fuel' (path_parent current)
      else false
  end.

(** The mount-point test of [verify_usb_mounted]: [is_mount_point] and
    [mount_type]. *)
Definition detect_mount_point (usb_path : Path) : bool * string :=
  let darwin := bool_decide (env_platform E = "Darwin") in
  let '(is_mount_point, mount_type) :=
    if darwin then
      (* On macOS, check if it's under /Volumes and is a mount point *)
      if String.prefix "/Volumes/" (path_str usb_path) then
        let b := env_ismount E (path_str usb_path) in
        (b, if b then "mount_point" else "directory")
      else (false, "directory")
    else
      (* On Linux/other systems, check if it's a mount point *)
      let b := env_ismount E (path_str usb_path) in
      (b, if b then "mount_point" else "directory") in
  (* If it's not a mount point and we're on macOS, it might be a subdirectory of a mount *)
  if negb is_mount_point && darwin then
    if find_mounted_ancestor (S (length usb_path)) usb_path
    then (true, "mount_point")
    else (is_mount_point, mount_type)
  else (is_mount_point, mount_type).

Definition usb_test_file (usb_path : Path) : Path :=
  path_join usb_path (".llm_mover_test_" +:+ pid_str).

(** The body of the inner [try]: [is_writable] and [has_space]. *)
Definition write_probe (usb_path : Path) (min_space_bytes : Z)
    : M filesystem (bool * bool) :=
  let test_file := usb_test_file usb_path in
  (* Test write capability *)
  let test_data := list_byte_of_string ("LLM_MOVER_TEST_" +:+ pretty (env_time E)) in
  write_file E test_file test_data ;;
  (* Verify we can read it back *)
  read_data <- read_file E test_file ;;
  let is_writable := bool_decide (read_data = test_data) in
  (* Check available space *)
  usage <- disk_usage E usb_path ;;
  let has_space := bool_decide (min_space_bytes <= usage.2) in
  (* Clean up test file *)
  unlink E test_file ;;
  ret (is_writable, has_space).

Definition verify_usb_mounted (usb_path : Path) (min_space_bytes : Z)
    : M filesystem USBVerificationResult :=
  try_except
    (fs <- get ;;
     (* Check if path exists *)
     if negb (path_exists E usb_path fs) then
       ret (mkUSBVerificationResult false false false
              ("USB path does not exist: " +:+ path_str usb_path) "not_mounted")
     else
       (* Check if it's actually a mount point (not just a directory) *)
       let '(is_mount_point, mount_type) := detect_mount_point usb_path in
       (* Test write permissions and actual space *)
       let test_file := usb_test_file usb_path in
       probe <-
         try_except_when is_OSError
           (r <- write_probe usb_path min_space_bytes ;; ret (inl r))
           (fun e =>
              (* Clean up test file if it exists *)
              try_pass (fs' <- get ;;
                        when (path_exists E test_file fs') (unlink E test_file)) ;;
              ret (inr (mkUSBVerificationResult is_mount_point false false
                          ("Cannot write to USB path: " +:+ exn_str e) mount_type))) ;;
       match probe with
       | inr result => ret result
       | inl (is_writable, has_space) =>
           (* Determine final status *)
           let error_msg :=
             if negb is_mount_point then
               "Path exists but is not a mount point (may be local directory): "
                 +:+ path_str usb_path
             else if negb is_writable then
               "USB is mounted but not writable: " +:+ path_str usb_path
             else if negb has_space then
               "USB is mounted but insufficient space (need "
                 +:+ format_thousands min_space_bytes +:+ " bytes): " +:+ path_str usb_path
             else "USB is properly mounted and accessible" in
           ret (mkUSBVerificationResult is_mount_point is_writable has_space
                  error_msg mount_type)
       end)
    (fun e =>
       ret (mkUSBVerificationResult false false false
              ("USB verification failed: " +:+ exn_str e) "unknown")).

(** *** verify_file_integrity *)

Definition open_rb (p : Path) : M filesystem file_handle :=
  data <- read_file E p ;;
  ret (mkFileHandle data 0).

Definition _calculate_checksum (file_path : Path) (chunk_size : Z)
    : M filesystem string :=
  try_except
    (f <- open_rb file_path ;;
     ret (env_md5 E (read_chunks (S (length (fh_data f))) chunk_size f [])))
    (fun _ => ret "").

Definition _verify_large_file (source destination : Path) : M filesystem bool :=
  try_except
    (sf <- open_rb source ;;
     df <- open_rb destination ;;
     (* Check first 1MB *)
     let '(s1, sf) := fh_read MiB sf in
     let '(d1, df) := fh_read MiB df in
     if negb (bool_decide (s1 = d1)) then ret false
     else
       (* Check middle *)
       fs <- get ;;
       file_size <- lift_outcome (st_size E source fs) ;;
       let middle := file_size / 2 in
       sf <- lift_outcome (fh_seek middle sf) ;;
       df <- lift_outcome (fh_seek middle df) ;;
       let '(s2, sf) := fh_read MiB sf in
       let '(d2, df) := fh_read MiB df in
       if negb (bool_decide (s2 = d2)) then ret false
       else
         (* Check last 1MB *)
         sf <- lift_outcome (fh_seek_end (- MiB) sf) ;;
         df <- lift_outcome (fh_seek_end (- MiB) df) ;;
         let '(s3, _) := fh_read_all sf in
         let '(d3, _) := fh_read_all df in
         if negb (bool_decide (s3 = d3)) then ret false
         else ret true)
    (fun _ => ret false).

Definition verify_file_integrity (source destination : Path) : M filesystem bool :=
  fs <- get ;;
  if negb (path_exists E source fs) || negb (path_exists E destination fs) then ret false
  else
    source_size <- lift_outcome (st_size E source fs) ;;
    dest_size <- lift_outcome (st_size E destination fs) ;;
    if negb (bool_decide (source_size = dest_size)) then ret false
    else if source_size >? 1024 * 1024 * 1024 then _verify_large_file source destination
    else
      a <- _calculate_checksum source 8192 ;;
      b <- _calculate_checksum destination 8192 ;;
      ret (bool_decide (a = b)).

(** *** check_symlink_health *)

(** The result dictionary; a field [health_k] is the key ['k']. *)
Record SymlinkHealth := mkSymlinkHealth {
  health_is_symlink : bool;
  health_exists : bool;
  health_target_exists : bool;
  health_target_path : option Path;
  health_is_broken : bool;
  health_size_match : bool
}.

Definition set_is_symlink (b : bool) (r : SymlinkHealth) : SymlinkHealth :=
  mkSymlinkHealth b (health_exists r) (health_target_exists r)
    (health_target_path r) (health_is_broken r) (health_size_match r).
Definition set_target_exists (b : bool) (r : SymlinkHealth) : SymlinkHealth :=
  mkSymlinkHealth (health_is_symlink r) (health_exists r) b
    (health_target_path r) (health_is_broken r) (health_size_match r).
Definition set_target_path (t : option Path) (r : SymlinkHealth) : SymlinkHealth :=
  mkSymlinkHealth (health_is_symlink r) (health_exists r) (health_target_exists r)
    t (health_is_broken r) (health_size_match r).
Definition set_is_broken (b : bool) (r : SymlinkHealth) : SymlinkHealth :=
  mkSymlinkHealth (health_is_symlink r) (health_exists r) (health_target_exists r)
    (health_target_path r) b (health_size_match r).
Definition set_size_match (b : bool) (r : SymlinkHealth) : SymlinkHealth :=
  mkSymlinkHealth (health_is_symlink r) (health_exists r) (health_target_exists r)
    (health_target_path r) (health_is_broken r) b.

(** The function only reads the filesystem; its state is the dictionary
    [result], which the [except] branch sees as the [try] block left it. *)
Definition check_symlink_health (symlink_path : Path) (fs : filesystem)
    : SymlinkHealth :=
  let result :=
    mkSymlinkHealth false (path_exists E symlink_path fs) false None false false in
  if negb (path_exists E symlink_path fs) then result
  else if path_is_symlink E symlink_path fs then
    snd ((modify (set_is_symlink true) ;;
          try_except
            (target <- lift_outcome (readlink E symlink_path fs) ;;
             modify (set_target_path (Some target)) ;;
             modify (set_target_exists (path_exists E target fs)) ;;
             result <- get ;;
             if negb (health_target_exists result) then modify (set_is_broken true)
             else
               (* Check if sizes match (rough validation) *)
               if path_is_file E symlink_path fs && path_is_file E target fs then
                 a <- lift_outcome (st_size E symlink_path fs) ;;
                 b <- lift_outcome (st_size E target fs) ;;
                 modify (set_size_match (bool_decide (a = b)))
               else if path_is_dir E symlink_path fs && path_is_dir E target fs then
                 modify (set_size_match true)
               else ret tt)
            (fun _ => modify (set_is_broken true))) result)
  else result.

(** *** should_keep_local *)

Definition should_keep_local (file_path : Path) (keep_patterns : list string) : bool :=
  existsb (fun pattern => env_fnmatch E (path_name file_path) pattern) keep_patterns.

(** *** Moving with verification *)

(** [sum(f.stat().st_size for f in p.rglob("*") if f.is_file())] and
    [len([f for f in files if f.is_file()])] *)
Definition sum_file_sizes (p : Path) : M filesystem Z :=
  fs <- get ;;
  (fix go (files : list Path) : M filesystem Z :=
     match files with
     | [] => ret 0
     | f :: rest =>
         if path_is_file E f fs then
           size <- lift_outcome (st_size E f fs) ;;
           total <- go rest ;;
           ret (size + total)
         else go rest
     end) (rglob E p fs).
Definition count_files (p : Path) (fs : filesystem) : Z :=
  Z.of_nat (length (List.filter (fun f => path_is_file E f fs) (rglob E p fs))).

(** The monitor thread only raises the flag [usb_disconnected]; what the
    two checkpoints read of it is [env_disconnected_before_delete] and
    [env_disconnected_at_completion]. *)
Definition _monitored_move (source destination : Path)
    (monitor_usb_path : option Path) : M filesystem unit :=
  let monitoring := match monitor_usb_path with Some _ => true | None => false end in
  try_finally
    (fs <- get ;;
     (* Perform the actual move *)
     (if path_is_file E source fs then
        shutil_move E source destination
      else
        copytree E source destination ;;
        (if monitoring && env_disconnected_before_delete E
         then raise (Exn RuntimeError "USB disconnected during move operation")
         else ret tt) ;;
        rmtree E source) ;;
     (* Check for USB disconnection *)
     if monitoring && env_disconnected_at_completion E
     then raise (Exn RuntimeError "USB disconnected during move operation")
     else ret tt)
    (ret tt).

(** The block "# Verify the move", which [safe_move_with_verification] and
    [safe_restore_from_usb] both carry. *)
Definition verify_the_move (destination : Path) : M filesystem unit :=
  fs <- get ;;
  if path_is_file E destination fs then
    (* For files, check existence and non-zero size *)
    if negb (path_exists E destination fs) then
      raise (Exn ValueError "Destination file is empty or doesn't exist")
    else
      size <- lift_outcome (st_size E destination fs) ;;
      if size =? 0 then raise (Exn ValueError "Destination file is empty or doesn't exist")
      else ret tt
  else if path_is_dir E destination fs then
    if negb (path_exists E destination fs) then
      raise (Exn ValueError "Destination directory doesn't exist")
    else
      let total_files := count_files destination fs in
      total_size <- sum_file_sizes destination ;;
      if total_files =? 0 then
        raise (Exn ValueError "Destination directory is empty (no files found)")
      else if total_size =? 0 then
        raise (Exn ValueError "Destination directory has no content (total size is 0)")
      else ret tt
  else ret tt.

(** [backup_path] is assigned by the first statement of the [try] block,
    which cannot raise; it is computed here before the block, on the same
    state, so that the handler can read it. *)
Definition safe_move_with_verification (source destination : Path)
    (monitor_usb_path : option Path) : M filesystem bool :=
  let backup_suffix := ".backup_" +:+ pid_str in
  (* Pre-operation USB check if monitoring requested *)
  match monitor_usb_path with
  | Some usb =>
      usb_check <- verify_usb_mounted usb (1024 * 1024 * 100) ;;
      if negb (is_mounted usb_check && is_writable usb_check) then
        raise (Exn RuntimeError ("USB verification failed before operation: "
                                 +:+ error_message usb_check))
      else ret tt
  | None => ret tt
  end ;;
  fs0 <- get ;;
  let backup_path :=
    if path_exists E destination fs0
    then Some (path_add_suffix destination backup_suffix) else None in
  try_except
    ((* Create backup if destination exists *)
     match backup_path with
     | Some backup => shutil_move E destination backup
     | None => ret tt
     end ;;
     fs <- get ;;
     source_size <-
       (if path_is_file E source fs then lift_outcome (st_size E source fs)
        else if path_is_dir E source fs then sum_file_sizes source
        else ret 0) ;;
     (* Use monitored move for large operations (>1GB) or when USB monitoring requested *)
     (if (source_size >? 1024 * 1024 * 1024)
         || match monitor_usb_path with Some _ => true | None => false end
      then _monitored_move source destination monitor_usb_path
      else shutil_move E source destination) ;;
     (* Verify the move *)
     verify_the_move destination ;;
     (* Clean up backup if everything went well *)
     fs <- get ;;
     match backup_path with
     | Some backup =>
         if path_exists E backup fs then
           if path_is_dir E backup fs then rmtree E backup else unlink E backup
         else ret tt
     | None => ret tt
     end ;;
     ret true)
    (fun e =>
       (* Attempt recovery *)
       try_pass
         ((* If destination exists, remove it *)
          fs <- get ;;
          (if path_exists E destination fs then
             if path_is_dir E destination fs then rmtree E destination
             else unlink E destination
           else ret tt) ;;
          (* Try to restore source from backup *)
          fs <- get ;;
          match backup_path with
          | Some backup =>
              if path_exists E backup fs then shutil_move E backup source else ret tt
          | None => ret tt
          end ;;
          (* Restore original destination from backup *)
          fs <- get ;;
          match backup_path with
          | Some _ =>
              if negb (path_exists E destination fs) then
                let backup_path_check := path_add_suffix destination backup_suffix in
                if path_exists E backup_path_check fs
                then shutil_move E backup_path_check destination
                else ret tt
              else ret tt
          | None => ret tt
          end) ;;
       raise e).

(** [p.rmdir()] and [p.iterdir()] *)
Definition rmdir (p : Path) : M filesystem unit :=
  fun fs =>
    match locate_entry E p fs with
    | Found k =>
        match node_at fs k, children k fs with
        | Some Dir, [] => (Return tt, delete k fs)
        | Some Dir, _ => (Raise (os_error OSError p), fs)
        | _, _ => (Raise (os_error NotADirectoryError p), fs)
        end
    | l => (Raise (os_error (error_of l) p), fs)
    end.
Definition iterdir (p : Path) (fs : filesystem) : outcome (list Path) :=
  match locate_follow E p fs with
  | Found k =>
      match node_at fs k with
      | Some Dir => Return ((fun c => path_join p c.1) <$> children k fs)
      | _ => Raise (os_error NotADirectoryError p)
      end
  | l => Raise (os_error (error_of l) p)
  end.

(** *** safe_restore_from_usb *)

(** The local variable [backup_symlink] is the first state component. *)
Definition safe_restore_from_usb (symlink_path usb_source local_destination : Path)
    : M filesystem bool :=
  let backup_suffix := ".backup_" +:+ pid_str in
  with_locals (None : option Path)
    (try_except
       (fs <- lift_fs get ;;
        (* Validate input *)
        (if negb (path_exists E symlink_path fs) then
           raise (Exn ValueError "Symlink path doesn't exist")
         else if negb (path_is_symlink E symlink_path fs) then
           raise (Exn ValueError "Path is not a symlink")
         else if negb (path_exists E usb_source fs) then
           raise (Exn ValueError "USB source doesn't exist")
         else if path_exists E local_destination fs
                 && negb (path_is_symlink E local_destination fs) then
           raise (Exn ValueError "Local destination already exists and is not a symlink")
         else ret tt) ;;
        (* Create backup of symlink *)
        let backup := path_add_suffix symlink_path backup_suffix in
        lift_local (put (Some backup)) ;;
        (if path_exists E backup fs then lift_fs (unlink E backup) else ret tt) ;;
        (* Copy the symlink (as a regular backup) *)
        lift_fs (copy2 E symlink_path backup false) ;;
        (* Remove the symlink *)
        lift_fs (unlink E symlink_path) ;;
        (* Move from USB to local location *)
        lift_fs (shutil_move E usb_source local_destination) ;;
        (* Verify the move *)
        lift_fs (verify_the_move local_destination) ;;
        (* Clean up backup if everything went well *)
        fs <- lift_fs get ;;
        backup_symlink <- lift_local get ;;
        match backup_symlink with
        | Some b => if path_exists E b fs then lift_fs (unlink E b) else ret tt
        | None => ret tt
        end ;;
        ret true)
       (fun e =>
          (* Attempt recovery *)
          try_pass
            (fs <- lift_fs get ;;
             (* If local destination exists, try to move it back to USB *)
             (if path_exists E local_destination fs then
                if path_exists E (path_parent usb_source) fs
                then lift_fs (shutil_move E local_destination usb_source)
                else ret tt
              else ret tt) ;;
             (* Restore symlink from backup if possible *)
             fs <- lift_fs get ;;
             backup_symlink <- lift_local get ;;
             match backup_symlink with
             | Some b =>
                 if path_exists E b fs then
                   (if path_exists E symlink_path fs
                    then lift_fs (unlink E symlink_path) else ret tt) ;;
                   lift_fs (shutil_move E b symlink_path)
                 else ret tt
             | None => ret tt
             end) ;;
          raise e)).

(** *** safe_restore_internal_symlinks *)

(** The local list [backups] is the first state component of the loop. *)
Definition safe_restore_internal_symlinks (model_directory usb_source_directory : Path)
    : M filesystem bool :=
  try_except
    (fs <- get ;;
     (* Find all symlink files in the model directory *)
     let symlink_files :=
       omap (fun file_path =>
               if path_is_file E file_path fs && path_is_symlink E file_path fs then
                 match path_resolve E file_path fs with
                 | Return target =>
                     (* Check if target is in the USB source directory *)
                     if bool_decide (path_parent target = usb_source_directory)
                     then Some (file_path, target) else None
                 | Raise _ => None
                 end
               else None)
            (rglob E model_directory fs) in
     match symlink_files with
     | [] => raise (Exn ValueError "No valid internal symlinks found to restore")
     | _ => ret tt
     end ;;
     (* Create backup of symlinks and copy files from USB *)
     with_locals ([] : list (Path * Path))
       (for_each symlink_files
          (fun '(symlink_path, usb_target) =>
             let backup_path := path_add_suffix symlink_path (".backup_" +:+ pid_str) in
             try_except
               ((* Backup the symlink *)
                lift_fs (copy2 E symlink_path backup_path false) ;;
                lift_local (modify (fun backups => backups ++ [(symlink_path, backup_path)])) ;;
                (* Remove symlink *)
                lift_fs (unlink E symlink_path) ;;
                (* Copy file from USB to local location *)
                lift_fs (copy2 E usb_target symlink_path true) ;;
                (* Verify the copy *)
                fs' <- lift_fs get ;;
                if negb (path_exists E symlink_path fs') then
                  raise (Exn ValueError ("Failed to copy " +:+ path_name usb_target))
                else
                  size <- lift_outcome (st_size E symlink_path fs') ;;
                  if size =? 0
                  then raise (Exn ValueError ("Failed to copy " +:+ path_name usb_target))
                  else ret tt)
               (fun e =>
                  (* Restore all backups created so far *)
                  backups <- lift_local get ;;
                  for_each backups
                    (fun '(backup_symlink, backup_file) =>
                       try_pass
                         (fs' <- lift_fs get ;;
                          (if path_exists E backup_symlink fs'
                           then lift_fs (unlink E backup_symlink) else ret tt) ;;
                          lift_fs (shutil_move E backup_file backup_symlink))) ;;
                  raise e)) ;;
        (* Clean up backup files *)
        backups <- lift_local get ;;
        for_each backups
          (fun '(_, backup_path) =>
             fs' <- lift_fs get ;;
             if path_exists E backup_path fs' then lift_fs (unlink E backup_path)
             else ret tt)) ;;
     (* Now remove the files from USB *)
     for_each symlink_files (fun '(_, usb_target) => try_pass (unlink E usb_target)) ;;
     (* Try to remove empty USB directory *)
     try_pass
       (fs' <- get ;;
        if path_exists E usb_source_directory fs' then
          entries <- lift_outcome (iterdir usb_source_directory fs') ;;
          match entries with
          | [] => rmdir usb_source_directory
          | _ => ret tt
          end
        else ret tt) ;;
     ret true)
    (fun e => raise (Exn RuntimeError ("Failed to restore internal symlinks: " +:+ exn_str e))).

(** *** estimate_copy_time *)

(** [b"0" * (1024 * 1024)] *)
Definition speed_test_data : list byte :=
  N.iter (Z.to_N (1024 * 1024)) (cons "0"%byte) [].

(** The estimate itself is wall-clock arithmetic that the callers only
    print; what remains is the speed probe on the destination, whose
    errors the function swallows. *)
Definition estimate_copy_time (size_bytes : Z) (dest_path : Path) : M filesystem unit :=
  let test_file := path_join dest_path (".speed_test_" +:+ pid_str) in
  try_pass
    (write_file E test_file speed_test_data ;;
     (* Clean up test file *)
     unlink E test_file).

(** *** safe_move_with_file_symlinks *)

(** The local lists [moved_files] and [created_symlinks] are the first
    state component. *)
Definition safe_move_with_file_symlinks (model_directory usb_directory : Path)
    (files_to_move keep_local_files : list Path) : M filesystem bool :=
  with_locals (([] : list (Path * Path)), ([] : list Path))
    (try_except
       ((* Ensure USB directory exists *)
        lift_fs (mkdir E true true usb_directory) ;;
        (* Move files and create symlinks *)
        for_each files_to_move
          (fun file_path =>
             (* Calculate relative path within model directory *)
             relative_path <- lift_outcome (relative_to file_path model_directory) ;;
             let usb_target := path_concat usb_directory relative_path in
             (* Ensure USB target directory exists *)
             lift_fs (mkdir E true true (path_parent usb_target)) ;;
             (* Move file to USB *)
             lift_fs (shutil_move E file_path usb_target) ;;
             lift_local (modify (fun l => (l.1 ++ [(file_path, usb_target)], l.2))) ;;
             (* Create symlink in original location *)
             lift_fs (symlink_to E file_path usb_target) ;;
             lift_local (modify (fun l => (l.1, l.2 ++ [file_path]))) ;;
             (* Verify the symlink works *)
             fs <- lift_fs get ;;
             if negb (path_exists E file_path fs) || negb (path_is_symlink E file_path fs)
             then raise (Exn RuntimeError ("Symlink verification failed for "
                                           +:+ path_str file_path))
             else ret tt) ;;
        (* Verify all files are accessible *)
        for_each files_to_move
          (fun file_path =>
             fs <- lift_fs get ;;
             if negb (path_exists E file_path fs)
             then raise (Exn RuntimeError ("File not accessible after move: "
                                           +:+ path_str file_path))
             else ret tt) ;;
        ret true)
       (fun e =>
          (* Recovery: try to restore all moved files *)
          l <- lift_local get ;;
          for_each l.2
            (fun symlink_path =>
               try_pass
                 (fs <- lift_fs get ;;
                  if path_is_symlink E symlink_path fs
                  then lift_fs (unlink E symlink_path) else ret tt)) ;;
          for_each l.1
            (fun '(file_path, usb_target) =>
               try_pass
                 (fs <- lift_fs get ;;
                  if path_exists E usb_target fs && negb (path_exists E file_path fs)
                  then lift_fs (shutil_move E usb_target file_path) else ret tt)) ;;
          raise (Exn RuntimeError ("Failed to create file symlinks: " +:+ exn_str e)))).

End Utils.

(** ** config.py *)

(** The configuration values the engine reads; each field is what
    [config_data.get(key, default)] yields. *)
Record ConfigManager := mkConfigManager {
  symlink_strategy : string;         (* "auto", "directory" or "file" *)
  file_size_threshold_mb : Z;
  keep_local_patterns : list string
}.

Definition get_symlink_strategy (c : ConfigManager) : string := symlink_strategy c.
Definition get_file_size_threshold_bytes (c : ConfigManager) : Z :=
  file_size_threshold_mb c * 1024 * 1024.
Definition get_keep_local_patterns (c : ConfigManager) : list string :=
  keep_local_patterns c.

(** [Config.MIN_FREE_SPACE_BUFFER] *)
Definition MIN_FREE_SPACE_BUFFER : Z := 1024 * 1024 * 100.

(** ** models.py *)

Record ModelInfo := mkModelInfo {
  name : string;
  path : Path;
  size_bytes : Z;
  publisher : string;
  model_name : string;
  is_symlink : bool;
  linked_to : option Path;
  has_internal_symlinks : bool;
  internal_symlink_target : option Path;
  type : string
}.

(** The assignments to the attributes of a [ModelInfo]. *)
Definition set_is_symlink_linked_to (b : bool) (t : option Path) (m : ModelInfo) : ModelInfo :=
  mkModelInfo (name m) (path m) (size_bytes m) (publisher m) (model_name m)
    b t (has_internal_symlinks m) (internal_symlink_target m) (type m).
Definition set_internal_symlinks (b : bool) (t : option Path) (m : ModelInfo) : ModelInfo :=
  mkModelInfo (name m) (path m) (size_bytes m) (publisher m) (model_name m)
    (is_symlink m) (linked_to m) b t (type m).

(** A [dict] with string keys, in insertion order. *)
Fixpoint dict_get {V} (d : list (string * V)) (k : string) : option V :=
  match d with
  | [] => None
  | (k', v) :: rest => if bool_decide (k' = k) then Some v else dict_get rest k
  end.
Fixpoint dict_update {V} (d : list (string * V)) (k : string) (f : V -> V)
    : list (string * V) :=
  match d with
  | [] => []
  | (k', v) :: rest =>
      if bool_decide (k' = k) then (k', f v) :: rest
      else (k', v) :: dict_update rest k f
  end.
Definition dict_values {V} (d : list (string * V)) : list V := snd <$> d.

Record ModelManager := mkModelManager {
  local_path : Path;
  usb_path : Path;
  config_manager : ConfigManager;
  _models : list (string * ModelInfo);
  _usb_verification : option USBVerificationResult
}.

Definition set_usb_verification (v : option USBVerificationResult) (m : ModelManager)
    : ModelManager :=
  mkModelManager (local_path m) (usb_path m) (config_manager m) (_models m) v.
Definition set_models (d : list (string * ModelInfo)) (m : ModelManager) : ModelManager :=
  mkModelManager (local_path m) (usb_path m) (config_manager m) d (_usb_verification m).

(** Strings: [s.lower()] on ASCII, [needle in s], [p.suffix]. *)
Definition ascii_lower (c : ascii) : ascii :=
  let n := nat_of_ascii c in
  if (65 <=? n)%nat && (n <=? 90)%nat then ascii_of_nat (n + 32) else c.
Fixpoint str_lower (s : string) : string :=
  match s with
  | EmptyString => EmptyString
  | String c rest => String (ascii_lower c) (str_lower rest)
  end.
Fixpoint str_contains (needle s : string) : bool :=
  String.prefix needle s
  || match s with
     | EmptyString => false
     | String _ rest => str_contains needle rest
     end.
Fixpoint last_dot (s : string) (i : nat) (found : option nat) : option nat :=
  match s with
  | EmptyString => found
  | String c rest =>
      last_dot rest (S i) (if bool_decide (c = "."%char) then Some i else found)
  end.
Definition path_suffix (p : Path) : string :=
  let n := path_name p in
  match last_dot n 0 None with
  | Some i =>
      if (0 <? i)%nat && (i <? String.length n - 1)%nat
      then String.substring i (String.length n - i) n else ""
  | None => ""
  end.

Fixpoint dict_set {V} (d : list (string * V)) (k : string) (v : V)
    : list (string * V) :=
  match d with
  | [] => [(k, v)]
  | (k', v') :: rest =>
      if bool_decide (k' = k) then (k', v) :: rest
      else (k', v') :: dict_set rest k v
  end.

(** The partition loop of [_move_with_file_symlinks]: the two lists grow
    at their ends, in the order of [all_files]. *)
Section Partition.
Context (E : Env) (fs : filesystem) (size_threshold : Z) (keep_patterns : list string).

Fixpoint partition_files (all_files files_to_move files_to_keep : list Path)
    : outcome (list Path * list Path) :=
  match all_files with
  | [] => Return (files_to_move, files_to_keep)
  | file_path :: rest =>
      (* Check if file should be kept local based on patterns *)
      if should_keep_local E file_path keep_patterns then
        partition_files rest files_to_move (files_to_keep ++ [file_path])
      else
        (* Check if file is large enough to move *)
        match st_size E file_path fs with
        | Raise e => Raise e
        | Return size =>
            if size >=? size_threshold then
              partition_files rest (files_to_move ++ [file_path]) files_to_keep
            else
              partition_files rest files_to_move (files_to_keep ++ [file_path])
        end
  end.

End Partition.

Section Models.
Context (E : Env).

(** A method of the manager runs on the manager and the filesystem.  A
    [ModelInfo] object is referred to by the key under which [_models]
    holds it; assigning to its attributes updates that entry. *)
Definition update_model (key : string) (f : ModelInfo -> ModelInfo)
    : M (ModelManager * filesystem) unit :=
  lift_local (modify (fun mgr => set_models (dict_update (_models mgr) key f) mgr)).

Definition usb_available (mgr : ModelManager) : bool :=
  match _usb_verification mgr with
  | None => false
  | Some v => is_mounted v && is_writable v && has_space v
  end.

Definition refresh_usb_status : M (ModelManager * filesystem) USBVerificationResult :=
  mgr <- lift_local get ;;
  v <- lift_fs (verify_usb_mounted E (usb_path mgr) (1024 * 1024 * 100)) ;;
  lift_local (modify (set_usb_verification (Some v))) ;;
  ret v.

(** [_calculate_size]: a link is resolved once, then the target measured. *)
Definition _calculate_size (p : Path) (fs : filesystem) : Z :=
  let measure (q : Path) : Z :=
    if path_is_file E q fs then
      match st_size E q fs with Return n => n | Raise _ => 0 end
    else if path_is_dir E q fs then
      match sum_file_sizes E q fs with (Return n, _) => n | (Raise _, _) => 0 end
    else 0 in
  if path_is_symlink E p fs then
    match path_resolve E p fs with
    | Return target =>
        if path_is_symlink E target fs then
          match path_resolve E target fs with
          | Return target' => measure target'
          | Raise _ => 0
          end
        else measure target
    | Raise _ => 0
    end
  else measure p.

Definition get_movable_models (mgr : ModelManager) : list ModelInfo :=
  List.filter (fun model => negb (is_symlink model) && negb (has_internal_symlinks model))
              (dict_values (_models mgr)).

Definition get_usb_models (mgr : ModelManager) : list ModelInfo :=
  List.filter (fun model => is_symlink model || has_internal_symlinks model)
              (dict_values (_models mgr)).

Definition get_model_by_name (mgr : ModelManager) (mname : string) : option ModelInfo :=
  dict_get (_models mgr) mname.

(** [get_usb_space_info]: (total, used, free) *)
Definition get_usb_space_info : M (ModelManager * filesystem) (Z * Z * Z) :=
  mgr <- lift_local get ;;
  if negb (usb_available mgr) then ret (0, 0, 0)
  else try_except (lift_fs (disk_usage E (usb_path mgr))) (fun _ => ret (0, 0, 0)).

Definition _determine_symlink_strategy (mgr : ModelManager) (model_info : ModelInfo)
    (fs : filesystem) : string :=
  let config_strategy := get_symlink_strategy (config_manager mgr) in
  (* If user has explicit preference, respect it *)
  if bool_decide (config_strategy = "directory") || bool_decide (config_strategy = "file")
  then config_strategy
  else
    let model_path := path model_info in
    let lname := str_lower (name model_info) in
    (* Check for MLX/MX model indicators *)
    let mlx_indicators :=
      [ str_contains "mlx" lname;
        str_contains "mx" lname
          && existsb (fun x => str_contains x lname) ["fp4"; "fp6"; "fp8"];
        bool_decide (type model_info = "mlx_dir") ] in
    if existsb id mlx_indicators then "file"
    else if path_is_dir E model_path fs then
      let files := rglob E model_path fs in
      let file_extensions :=
        (fun f => str_lower (path_suffix f))
          <$> List.filter (fun f => path_is_file E f fs) files in
      if bool_decide (".safetensors" ∈ file_extensions) && existsb id mlx_indicators
      then "file"
      else if existsb (fun file =>
                         path_is_file E file fs
                         && existsb (fun indicator =>
                                       str_contains indicator (str_lower (path_name file)))
                                    ["mxfp"; "mx-"]) files
      then "file"
      else if bool_decide (".gguf" ∈ file_extensions) && negb (existsb id mlx_indicators)
      then "directory"
      else "file"
    else "file".

Definition _move_with_directory_symlink (key : string) (model : ModelInfo)
    (usb_dest : Path) : M (ModelManager * filesystem) bool :=
  mgr <- lift_local get ;;
  (* Use safe move with verification and USB monitoring *)
  lift_fs (safe_move_with_verification E (path model) usb_dest (Some (usb_path mgr))) ;;
  (* Create symlink in original location *)
  lift_fs (symlink_to E (path model) usb_dest) ;;
  (* Verify symlink health *)
  fs <- lift_fs get ;;
  let health := check_symlink_health E (path model) fs in
  if health_is_broken health then raise (Exn RuntimeError "Created symlink is broken")
  else
    (* Update model info *)
    update_model key (set_is_symlink_linked_to true (Some usb_dest)) ;;
    ret true.

Definition _move_with_file_symlinks (key : string) (model : ModelInfo)
    (usb_dest : Path) : M (ModelManager * filesystem) bool :=
  fs <- lift_fs get ;;
  if negb (path_is_dir E (path model) fs) then
    (* For single files, fall back to directory symlink approach *)
    _move_with_directory_symlink key model usb_dest
  else
    mgr <- lift_local get ;;
    (* Get configuration for file-level moves *)
    let size_threshold := get_file_size_threshold_bytes (config_manager mgr) in
    let keep_patterns := get_keep_local_patterns (config_manager mgr) in
    (* Find large files to move to USB *)
    let all_files := List.filter (fun f => path_is_file E f fs) (rglob E (path model) fs) in
    parts <- lift_outcome (partition_files E fs size_threshold keep_patterns all_files [] []) ;;
    let '(files_to_move, files_to_keep) := parts in
    match files_to_move with
    | [] => raise (Exn RuntimeError "No files meet the criteria for moving to USB")
    | _ =>
        (* Use the safe file symlink utility *)
        success <- lift_fs (safe_move_with_file_symlinks E (path model) usb_dest
                              files_to_move files_to_keep) ;;
        if success then
          (* Update model info to reflect internal symlinks *)
          update_model key (set_internal_symlinks true (Some usb_dest)) ;;
          ret true
        else ret false
    end.

(** The destination on the removable root: [usb_path / publisher /
    model_name], the publisher directory being made when it is missing. *)
Definition usb_destination (mgr : ModelManager) (model : ModelInfo) : M filesystem Path :=
  if negb (bool_decide (publisher model = "")) then
    (* Create publisher directory on USB if it doesn't exist *)
    let publisher_dir := path_join (usb_path mgr) (publisher model) in
    mkdir E false true publisher_dir ;;
    ret (path_join publisher_dir (model_name model))
  else
    (* Direct model (old structure or single files) *)
    ret (path_join (usb_path mgr) (model_name model)).

Definition move_model_to_usb (mname : string) : M (ModelManager * filesystem) bool :=
  (* Comprehensive pre-flight USB verification *)
  usb_status <- refresh_usb_status ;;
  if negb (is_mounted usb_status) then
    raise (Exn RuntimeError ("USB not properly mounted: " +:+ error_message usb_status))
  else if negb (is_writable usb_status) then
    raise (Exn RuntimeError ("USB not writable: " +:+ error_message usb_status))
  else if negb (has_space usb_status) then
    raise (Exn RuntimeError ("USB insufficient space: " +:+ error_message usb_status))
  else
    mgr <- lift_local get ;;
    match get_model_by_name mgr mname with
    | None => raise (Exn ValueError ("Model '" +:+ mname +:+ "' not found"))
    | Some model =>
        if is_symlink model then
          raise (Exn ValueError ("Model '" +:+ mname +:+ "' is already on USB"))
        else
          (* Create destination path maintaining publisher structure if needed *)
          usb_dest <- lift_fs (usb_destination mgr model) ;;
          (* Check if destination already exists *)
          fs <- lift_fs get ;;
          if path_exists E usb_dest fs then
            raise (Exn FileExistsError ("Destination already exists: " +:+ path_str usb_dest))
          else
            (* Check available space with buffer *)
            space_info <- get_usb_space_info ;;
            let required_space := size_bytes model + MIN_FREE_SPACE_BUFFER in
            if required_space >? space_info.2 then
              raise (Exn RuntimeError ("Insufficient USB space: need " +:+ pretty required_space
                                       +:+ ", have " +:+ pretty space_info.2))
            else
              (* Estimate copy time *)
              try_pass (lift_fs (estimate_copy_time E (size_bytes model) (usb_path mgr))) ;;
              try_except
                (fs' <- lift_fs get ;;
                 mgr' <- lift_local get ;;
                 (* Determine the best symlink strategy for this model *)
                 let strategy := _determine_symlink_strategy mgr' model fs' in
                 if bool_decide (strategy = "file") then
                   _move_with_file_symlinks mname model usb_dest
                 else
                   _move_with_directory_symlink mname model usb_dest)
                (fun e =>
                   (* Try to recover if something went wrong *)
                   fs' <- lift_fs get ;;
                   (if path_exists E usb_dest fs' && negb (path_exists E (path model) fs') then
                      try_pass (lift_fs (safe_move_with_verification E usb_dest (path model) None) ;;
                                ret tt)
                    else ret tt) ;;
                   raise (Exn RuntimeError ("Failed to move model: " +:+ exn_str e)))
    end.

Definition move_model_from_usb (mname : string) : M (ModelManager * filesystem) bool :=
  mgr <- lift_local get ;;
  match get_model_by_name mgr mname with
  | None => raise (Exn ValueError ("Model '" +:+ mname +:+ "' not found"))
  | Some model =>
      if negb (is_symlink model) && negb (has_internal_symlinks model) then
        raise (Exn ValueError ("Model '" +:+ mname
                               +:+ "' is not on USB (not a symlink or internal symlinks)"))
      else
        (* Comprehensive pre-flight USB verification *)
        usb_status <- refresh_usb_status ;;
        if negb (is_mounted usb_status) then
          raise (Exn RuntimeError ("USB not properly mounted: " +:+ error_message usb_status))
        else if negb (is_writable usb_status) then
          raise (Exn RuntimeError ("USB not writable: " +:+ error_message usb_status))
        else
          (* Verify that the USB source exists *)
          fs <- lift_fs get ;;
          usb_source_path <-
            (if is_symlink model then
               (* Full directory symlink case *)
               match linked_to model with
               | Some target =>
                   if path_exists E target fs then ret target
                   else raise (Exn RuntimeError ("Model '" +:+ mname
                                 +:+ "' target on USB not found or broken symlink"))
               | None => raise (Exn RuntimeError ("Model '" +:+ mname
                                 +:+ "' target on USB not found or broken symlink"))
               end
             else
               (* Internal file symlinks case: [has_internal_symlinks] holds here *)
               match internal_symlink_target model with
               | Some target =>
                   if path_exists E target fs then ret target
                   else raise (Exn RuntimeError ("Model '" +:+ mname
                                 +:+ "' USB target directory not found or broken internal symlinks"))
               | None => raise (Exn RuntimeError ("Model '" +:+ mname
                                 +:+ "' USB target directory not found or broken internal symlinks"))
               end) ;;
          (* Check local storage space *)
          local_stat <- lift_fs (disk_usage E (local_path mgr)) ;;
          let required_space := size_bytes model + MIN_FREE_SPACE_BUFFER in
          if required_space >? local_stat.2 then
            raise (Exn RuntimeError ("Insufficient local space: need " +:+ pretty required_space
                                     +:+ ", have " +:+ pretty local_stat.2))
          else
            (* Estimate copy time *)
            try_pass (lift_fs (estimate_copy_time E (size_bytes model) (local_path mgr))) ;;
            try_except
              ((if is_symlink model then
                  (* Full directory symlink case - use existing restore function *)
                  lift_fs (safe_restore_from_usb E (path model) usb_source_path (path model)) ;;
                  (* Update model info *)
                  update_model mname (set_is_symlink_linked_to false None)
                else
                  (* Internal file symlinks case - use new restore function *)
                  lift_fs (safe_restore_internal_symlinks E (path model) usb_source_path) ;;
                  (* Update model info *)
                  update_model mname (set_internal_symlinks false None)) ;;
               ret true)
              (fun e =>
                 raise (Exn RuntimeError ("Failed to restore model from USB: " +:+ exn_str e)))
  end.

(** [repair_broken_symlinks]: the class body defines the method twice; the
    second definition (the one that removes links) is the one the class
    keeps.  [results] is the dictionary it returns; [repair_entry] is the
    body of its loop over [self._models.items()]. *)
Definition repair_entry (item : string * ModelInfo) (results : list (string * string))
    : M (ModelManager * filesystem) (list (string * string)) :=
  let '(mname, model) := item in
  if is_symlink model then
    fs <- lift_fs get ;;
    let health := check_symlink_health E (path model) fs in
    if health_is_broken health then
      r <- try_except
             (lift_fs (unlink E (path model)) ;;
              (* Update model info *)
              update_model mname (set_is_symlink_linked_to false None) ;;
              ret "Removed broken symlink")
             (fun e => ret ("Failed to remove: " +:+ exn_str e)) ;;
      ret (dict_set results mname r)
    else if negb (health_target_exists health) then
      r <- try_except
             (lift_fs (unlink E (path model)) ;;
              (* Update model info *)
              update_model mname (set_is_symlink_linked_to false None) ;;
              ret "Removed symlink to missing target")
             (fun e => ret ("Failed to remove: " +:+ exn_str e)) ;;
      ret (dict_set results mname r)
    else ret results
  else ret results.

Fixpoint repair_loop (items : list (string * ModelInfo)) (results : list (string * string))
    : M (ModelManager * filesystem) (list (string * string)) :=
  match items with
  | [] => ret results
  | item :: rest =>
      results' <- repair_entry item results ;;
      repair_loop rest results'
  end.

Definition repair_broken_symlinks : M (ModelManager * filesystem) (list (string * string)) :=
  mgr <- lift_local get ;;
  repair_loop (_models mgr) [].

End Models.

(** ** Reading the result of [verify_usb_mounted] *)

(** The outcome a caller reads off the fields of the status. *)
Inductive mount_outcome :=
| NotMounted | LocalDirectory | NotWritable | InsufficientSpace | Healthy | UnknownFailure.

Definition classify (r : USBVerificationResult) : mount_outcome :=
  if bool_decide (mount_type r = "unknown") then UnknownFailure
  else if bool_decide (mount_type r = "not_mounted") then NotMounted
  else if negb (is_mounted r) then LocalDirectory
  else if negb (is_writable r) then NotWritable
  else if negb (has_space r) then InsufficientSpace
  else Healthy.

(** The situation the verifier finds, read off the world itself: whether
    the path exists, what the mount test says, how the write probe ends. *)
Definition mount_situation (E : Env) (usb_path : Path) (min_space_bytes : Z)
    (fs : filesystem) : mount_outcome :=
  if negb (path_exists E usb_path fs) then NotMounted
  else
    let is_mount_point := (detect_mount_point E usb_path).1 in
    match write_probe E usb_path min_space_bytes fs with
    | (Raise e, _) =>
        if is_OSError e then (if is_mount_point then NotWritable else LocalDirectory)
        else UnknownFailure
    | (Return (is_writable, has_space), _) =>
        if negb is_mount_point then LocalDirectory
        else if negb is_writable then NotWritable
        else if negb has_space then InsufficientSpace
        else Healthy
    end.

(** ** The three samples of a large file, in closed form *)

Definition sample_first (data : list byte) : list byte :=
  take (Z.to_nat MiB) data.
Definition sample_middle (data : list byte) : list byte :=
  take (Z.to_nat MiB) (drop (length data / 2) data).
Definition sample_last (data : list byte) : list byte :=
  drop (length data - Z.to_nat MiB) data.
Definition three_samples_equal (a b : list byte) : bool :=
  bool_decide (sample_first a = sample_first b)
  && bool_decide (sample_middle a = sample_middle b)
  && bool_decide (sample_last a = sample_last b).

(** ** Example worlds *)

(** [fnmatch] on patterns made of literals, [*] and [?]. *)
Fixpoint glob (pat s : list ascii) : bool :=
  match pat with
  | [] => match s with [] => true | _ => false end
  | c :: pat' =>
      if bool_decide (c = "*"%char) then
        (fix star (s : list ascii) : bool :=
           glob pat' s || match s with [] => false | _ :: s' => star s' end) s
      else
        match s with
        | [] => false
        | c' :: s' => (bool_decide (c = "?"%char) || bool_decide (c = c')) && glob pat' s'
        end
  end.
Definition fnmatch_glob (name pattern : string) : bool :=
  glob (list_ascii_of_string pattern) (list_ascii_of_string name).

(** A Linux machine with a stick mounted on [/media/usb], no I/O faults, a
    digest that tells all contents apart. *)
Definition linux_env : Env := {|
  env_platform := "Linux";
  env_ismount := fun s => bool_decide (s = "/media/usb");
  env_pid := 4242;
  env_time := 1700000000;
  env_cwd := ["/"];
  env_disk_usage := fun _ => (64000000000, 1000000000, 63000000000);
  env_dir_size := 4096;
  env_fault := fun _ _ => None;
  env_store := fun _ data => data;
  env_fnmatch := fnmatch_glob;
  env_md5 := string_of_list_byte;
  env_disconnected_before_delete := false;
  env_disconnected_at_completion := false
|}.

Definition models_dir : Path := ["/"; "home"; "models"].
Definition usb_dir : Path := ["/"; "media"; "usb"].

(** One model directory with a weight file and a configuration file. *)
Definition local_fs : filesystem :=
  list_to_map
    [ (["/"; "home"], Dir); (["/"; "home"; "models"], Dir);
      (["/"; "media"], Dir); (["/"; "media"; "usb"], Dir);
      (["/"; "home"; "models"; "acme"], Dir);
      (["/"; "home"; "models"; "acme"; "llama"], Dir);
      (["/"; "home"; "models"; "acme"; "llama"; "weights.gguf"],
       File ["001"; "002"; "003"; "004"]%byte);
      (["/"; "home"; "models"; "acme"; "llama"; "config.json"], File ["{"; "}"]%byte) ].

Definition llama : ModelInfo :=
  mkModelInfo "acme/llama" ["/"; "home"; "models"; "acme"; "llama"] 6
    "acme" "llama" false None false None "gguf_dir".

Definition manager_with (strategy : string) (threshold_mb : Z) : ModelManager :=
  mkModelManager models_dir usb_dir
    (mkConfigManager strategy threshold_mb ["*.json"; "tokenizer*"])
    [("acme/llama", llama)] None.

(** The files the partition loop sends to the removable root. *)
Definition eligible_to_move (E : Env) (fs : filesystem) (size_threshold : Z)
    (keep_patterns : list string) (f : Path) : bool :=
  negb (should_keep_local E f keep_patterns)
  && match st_size E f fs with
     | Return size => size >=? size_threshold
     | Raise _ => false
     end.

(** A single path component that names an entry. *)
Definition plain_name (c : string) : Prop := c <> "" /\ c <> ".." /\ c <> "/".
(** The removable root already holds [acme/llama]. *)
Definition occupied_fs : filesystem :=
  <[ ["/"; "media"; "usb"; "acme"; "llama"] := Dir ]>
    (<[ ["/"; "media"; "usb"; "acme"] := Dir ]> local_fs).

Definition healthy_status : USBVerificationResult :=
  mkUSBVerificationResult true true true "USB is properly mounted and accessible"
    "mount_point".

Definition llama_path : Path := ["/"; "home"; "models"; "acme"; "llama"].
Definition llama_on_usb : Path := ["/"; "media"; "usb"; "acme"; "llama"].

(** The entry is a link whose target on the removable root is gone. *)
Definition dangling_fs : filesystem :=
  list_to_map
    [ (["/"; "home"], Dir); (["/"; "home"; "models"], Dir);
      (["/"; "media"], Dir); (["/"; "media"; "usb"], Dir);
      (["/"; "home"; "models"; "acme"], Dir);
      (llama_path, Symlink llama_on_usb) ].

(** The entry is a link with a relative target, [data], which exists next
    to the link but not below the working directory. *)
Definition relative_link_fs : filesystem :=
  list_to_map
    [ (["/"; "home"], Dir); (["/"; "home"; "models"], Dir);
      (["/"; "media"], Dir); (["/"; "media"; "usb"], Dir);
      (["/"; "home"; "models"; "acme"], Dir);
      (["/"; "home"; "models"; "acme"; "data"], Dir);
      (["/"; "home"; "models"; "acme"; "data"; "weights.gguf"],
       File ["001"; "002"; "003"; "004"]%byte);
      (llama_path, Symlink ["data"]) ].

(** The entry is a link to its directory on the removable root. *)
Definition relocated_fs : filesystem :=
  list_to_map
    [ (["/"; "home"], Dir); (["/"; "home"; "models"], Dir);
      (["/"; "media"], Dir); (["/"; "media"; "usb"], Dir);
      (["/"; "home"; "models"; "acme"], Dir);
      (["/"; "media"; "usb"; "acme"], Dir);
      (llama_on_usb, Dir);
      (llama_on_usb ++ ["weights.gguf"], File ["001"; "002"; "003"; "004"]%byte);
      (llama_path, Symlink llama_on_usb) ].

Definition llama_link (target : Path) : ModelInfo :=
  mkModelInfo "acme/llama" llama_path 4 "acme" "llama" true (Some target) false None
    "gguf_dir".

Definition linked_manager (target : Path) : ModelManager :=
  mkModelManager models_dir usb_dir
    (mkConfigManager "auto" 100 ["*.json"; "tokenizer*"])
    [("acme/llama", llama_link target)] None.

(** An empty model file, and an older file at its destination. *)
Definition stale_destination_fs : filesystem :=
  list_to_map
    [ (["/"; "home"], Dir); (["/"; "home"; "models"], Dir);
      (["/"; "media"], Dir); (["/"; "media"; "usb"], Dir);
      (["/"; "home"; "models"; "tiny.gguf"], File []);
      (["/"; "media"; "usb"; "tiny.gguf"], File ["001"; "002"; "003"]%byte) ].

(** A state in which nodes were only removed. *)
Definition only_removed (fs fs' : filesystem) : Prop :=
  forall k, fs' !! k = fs !! k \/ fs' !! k = None.

(** Two managers that report the same size for every entry. *)
Definition same_sizes (mgr mgr' : ModelManager) : Prop :=
  forall n, size_bytes <$> dict_get (_models mgr') n
            = size_bytes <$> dict_get (_models mgr) n.

(** A method that leaves the reported sizes as they are, however it ends. *)
Definition keeps_sizes {A} (m : M (ModelManager * filesystem) A) : Prop :=
  forall mgr fs r mgr' fs', m (mgr, fs) = (r, (mgr', fs')) -> same_sizes mgr mgr'.

(** Two files of one length that differ in one byte, at [length before]. *)
Definition two_files (a b : list byte) : filesystem :=
  <[ ["/"; "a"] := File a ]> (<[ ["/"; "b"] := File b ]> ∅).

Definition zeros (n : Z) : list byte := replicate (Z.to_nat n) "000"%byte.
Definition one_GiB_file (marked : byte) : list byte :=
  zeros (2 * MiB) ++ marked :: zeros (GiB - 2 * MiB - 1).

(** ** Directory chains *)

(** Path resolution only ever stands on a chain of directories below the
    root: every step of [cur] is a directory. *)
Definition dir_chain (fs : filesystem) (cur : Path) : Prop :=
  is_absolute cur = true
  /\ forall k, k `prefix_of` cur -> k <> [] -> node_at fs k = Some Dir.

(** A device on which no file can be opened for reading. *)
Definition unreadable_env : Env := {|
  env_platform := "Linux";
  env_ismount := fun s => bool_decide (s = "/media/usb");
  env_pid := 4242;
  env_time := 1700000000;
  env_cwd := ["/"];
  env_disk_usage := fun _ => (64000000000, 1000000000, 63000000000);
  env_dir_size := 4096;
  env_fault := fun call p =>
    match call with
    | SysOpenRead => Some (os_error PermissionError p)
    | _ => None
    end;
  env_store := fun _ data => data;
  env_fnmatch := fnmatch_glob;
  env_md5 := string_of_list_byte;
  env_disconnected_before_delete := false;
  env_disconnected_at_completion := false
|}.

(** A device that is full: files can be opened, but nothing can be written
    to them. *)
Definition full_disk_env : Env := {|
  env_platform := "Linux";
  env_ismount := fun s => bool_decide (s = "/media/usb");
  env_pid := 4242;
  env_time := 1700000000;
  env_cwd := ["/"];
  env_disk_usage := fun _ => (64000000000, 64000000000, 0);
  env_dir_size := 4096;
  env_fault := fun call p =>
    match call with
    | SysWrite => Some (Exn OSError "[Errno 28] No space left on device")
    | _ => None
    end;
  env_store := fun _ _ => [];
  env_fnmatch := fnmatch_glob;
  env_md5 := string_of_list_byte;
  env_disconnected_before_delete := false;
  env_disconnected_at_completion := false
|}.

(** A computation that only reads the state. *)
Definition reads_only {S A} (m : M S A) : Prop := forall s, (m s).2 = s.

(** A computation that returns only values in [P]. *)
Definition returns_only {S A} (P : A -> Prop) (m : M S A) : Prop :=
  forall s a s', m s = (Return a, s') -> P a.

(** What a method of the manager establishes: [post] on the result and the
    manager it returns with, [exc] on the manager it raises with. *)
Definition wp {A} (m : M (ModelManager * filesystem) A)
    (post : A -> ModelManager -> Prop) (exc : exn -> ModelManager -> Prop)
    (mgr : ModelManager) : Prop :=
  forall fs r mgr' fs', m (mgr, fs) = (r, (mgr', fs')) ->
    match r with
    | Return a => post a mgr'
    | Raise e => exc e mgr'
    end.

(** The destination of an entry on the removable root. *)
Definition usb_dest_path (mgr : ModelManager) (model : ModelInfo) : Path :=
  if bool_decide (publisher model = "")
  then path_join (usb_path mgr) (model_name model)
  else path_join (path_join (usb_path mgr) (publisher model)) (model_name model).

(** The manager after a method has updated the entry [key] with [f] and
    stored the status [status]. *)
Definition manager_after (mgr : ModelManager) (status : USBVerificationResult)
    (key : string) (f : ModelInfo -> ModelInfo) : ModelManager :=
  set_models (dict_update (_models mgr) key f) (set_usb_verification (Some status) mgr).

(** Two records of one entry: everything but the link flags and pointers
    is equal. *)
Definition same_entry (m m' : ModelInfo) : Prop :=
  name m' = name m /\ path m' = path m /\ size_bytes m' = size_bytes m
  /\ publisher m' = publisher m /\ model_name m' = model_name m /\ type m' = type m.

(** A manager in which at most the link flags and pointers of the entry
    [key] (and the stored status) differ. *)
Definition touches_only (key : string) (mgr mgr' : ModelManager) : Prop :=
  local_path mgr' = local_path mgr
  /\ usb_path mgr' = usb_path mgr
  /\ config_manager mgr' = config_manager mgr
  /\ (_models mgr').*1 = (_models mgr).*1
  /\ forall n, match dict_get (_models mgr) n, dict_get (_models mgr') n with
               | Some m, Some m' => same_entry m m' /\ (n <> key -> m' = m)
               | None, None => True
               | _, _ => False
               end.

(** A manager in which entries were at most unflagged as links. *)
Definition unflags_only (mgr mgr' : ModelManager) : Prop :=
  local_path mgr' = local_path mgr
  /\ usb_path mgr' = usb_path mgr
  /\ config_manager mgr' = config_manager mgr
  /\ _usb_verification mgr' = _usb_verification mgr
  /\ (_models mgr').*1 = (_models mgr).*1
  /\ forall n, match dict_get (_models mgr) n, dict_get (_models mgr') n with
               | Some m, Some m' => m' = m \/ m' = set_is_symlink_linked_to false None m
               | None, None => True
               | _, _ => False
               end.

(** The entry is flagged as a link, but its path is a regular file. *)
Definition stale_flag_fs : filesystem :=
  list_to_map
    [ (["/"; "home"], Dir); (["/"; "home"; "models"], Dir);
      (["/"; "media"], Dir); (["/"; "media"; "usb"], Dir);
      (["/"; "home"; "models"; "acme"], Dir);
      (llama_path, File ["001"; "002"; "003"; "004"]%byte) ].

(** ** More of models.py and utils.py *)

Fixpoint dict_delete {V} (d : list (string * V)) (k : string) : list (string * V) :=
  match d with
  | [] => []
  | (k', v) :: rest =>
      if bool_decide (k' = k) then rest else (k', v) :: dict_delete rest k
  end.

(** The dictionary [check_health] returns; a field is the key of its name. *)
Record HealthIssues := mkHealthIssues {
  broken_symlinks : list string;
  missing_targets : list string;
  empty_directories : list string
}.

Section MoreModels.
Context (E : Env).

(** [get_large_files]: [large_files_loop] is its loop over
    [directory.rglob('*')], which stops at the first file it cannot access;
    the function then returns what it has found so far. *)
Fixpoint large_files_loop (size_threshold_bytes : Z) (fs : filesystem)
    (files large_files : list Path) : outcome (list Path) :=
  match files with
  | [] => Return large_files
  | file_path :: rest =>
      if path_is_file E file_path fs then
        match st_size E file_path fs with
        | Return size =>
            if size >=? size_threshold_bytes
            then large_files_loop size_threshold_bytes fs rest (large_files ++ [file_path])
            else large_files_loop size_threshold_bytes fs rest large_files
        | Raise e => if is_OSError e then Return large_files else Raise e
        end
      else large_files_loop size_threshold_bytes fs rest large_files
  end.

Definition get_large_files (directory : Path) (size_threshold_bytes : Z)
    (fs : filesystem) : outcome (list Path) :=
  if negb (path_is_dir E directory fs) then Return []
  else large_files_loop size_threshold_bytes fs (rglob E directory fs) [].

(** The block [if p.is_dir(): shutil.rmtree(p) else: p.unlink()], which
    [remove_model] carries three times. *)
Definition remove_tree_or_file (p : Path) : M filesystem unit :=
  fs <- get ;;
  if path_is_dir E p fs then rmtree E p else unlink E p.

Definition remove_model (mname : string) : M (ModelManager * filesystem) bool :=
  mgr <- lift_local get ;;
  match get_model_by_name mgr mname with
  | None => raise (Exn ValueError ("Model '" +:+ mname +:+ "' not found"))
  | Some model =>
      try_except
        ((if is_symlink model then
            (* Model is a symlink - remove both the symlink and the target on USB *)
            (* Remove the target on USB first *)
            fs <- lift_fs get ;;
            match linked_to model with
            | Some target =>
                if path_exists E target fs then lift_fs (remove_tree_or_file target)
                else ret tt
            | None => ret tt
            end ;;
            (* Remove the local symlink *)
            fs <- lift_fs get ;;
            if path_is_symlink E (path model) fs then lift_fs (unlink E (path model))
            else ret tt
          else if has_internal_symlinks model then
            (* Remove the USB target directory *)
            fs <- lift_fs get ;;
            match internal_symlink_target model with
            | Some target =>
                if path_exists E target fs then lift_fs (remove_tree_or_file target)
                else ret tt
            | None => ret tt
            end ;;
            (* Remove the local directory structure (contains symlinks) *)
            fs <- lift_fs get ;;
            if path_exists E (path model) fs then lift_fs (remove_tree_or_file (path model))
            else ret tt
          else
            (* Model is purely local - remove it directly *)
            fs <- lift_fs get ;;
            if path_exists E (path model) fs then lift_fs (remove_tree_or_file (path model))
            else ret tt) ;;
         (* Remove from internal model tracking *)
         lift_local (modify (fun mgr => set_models (dict_delete (_models mgr) mname) mgr)) ;;
         ret true)
        (fun e =>
           raise (Exn RuntimeError ("Failed to remove model '" +:+ mname +:+ "': "
                                    +:+ exn_str e)))
  end.

(** [check_health]: [issues] is the dictionary under construction;
    [check_health_entry] is the body of the loop over
    [self._models.items()]. *)
Definition check_health_entry (item : string * ModelInfo) (issues : HealthIssues)
    (fs : filesystem) : outcome HealthIssues :=
  let '(mname, model) := item in
  if is_symlink model then
    (* Check if symlink is broken *)
    let health := check_symlink_health E (path model) fs in
    if health_is_broken health then
      Return (mkHealthIssues (broken_symlinks issues ++ [mname])
                (missing_targets issues) (empty_directories issues))
    else if health_target_exists health then
      (* Check if target directory is empty *)
      match path_resolve E (path model) fs with
      | Raise e => Raise e
      | Return target =>
          if path_is_dir E target fs then
            let total_files := count_files E target fs in
            if total_files =? 0 then
              Return (mkHealthIssues (broken_symlinks issues) (missing_targets issues)
                        (empty_directories issues ++ [mname]))
            else Return issues
          else Return issues
      end
    else Return issues
  else Return issues.

Fixpoint check_health_loop (items : list (string * ModelInfo)) (issues : HealthIssues)
    (fs : filesystem) : outcome HealthIssues :=
  match items with
  | [] => Return issues
  | item :: rest =>
      match check_health_entry item issues fs with
      | Return issues' => check_health_loop rest issues' fs
      | Raise e => Raise e
      end
  end.

Definition check_health (mgr : ModelManager) (fs : filesystem) : outcome HealthIssues :=
  check_health_loop (_models mgr) (mkHealthIssues [] [] []) fs.

End MoreModels.

(** Computations that only remove nodes from the filesystem. *)
Definition shrinks_fs {A} (m : M filesystem A) : Prop :=
  forall fs r fs', m fs = (r, fs') -> only_removed fs fs'.
Definition shrinks {A} (m : M (ModelManager * filesystem) A) : Prop :=
  forall mgr fs r mgr' fs', m (mgr, fs) = (r, (mgr', fs')) -> only_removed fs fs'.

(** The entry is flagged as a link to its directory on the removable root,
    but its path is a directory of its own. *)
Definition diverged_fs : filesystem :=
  list_to_map
    [ (["/"; "home"], Dir); (["/"; "home"; "models"], Dir);
      (["/"; "media"], Dir); (["/"; "media"; "usb"], Dir);
      (["/"; "home"; "models"; "acme"], Dir);
      (["/"; "media"; "usb"; "acme"], Dir);
      (llama_on_usb, Dir);
      (llama_on_usb ++ ["weights.gguf"], File ["001"; "002"; "003"; "004"]%byte);
      (llama_path, Dir);
      (llama_path ++ ["weights.gguf"], File ["005"; "006"]%byte) ].

(** ** Well-formed filesystems *)

(** Every node lies in a directory. *)
Definition well_formed (fs : filesystem) : bool :=
  forallb (fun kv => bool_decide (node_at fs (removelast kv.1) = Some Dir))
          (map_to_list fs).

(** A single-file entry that is a link to its file on the removable root. *)
Definition linked_file_fs : filesystem :=
  list_to_map
    [ (["/"; "home"], Dir); (["/"; "home"; "models"], Dir);
      (["/"; "media"], Dir); (["/"; "media"; "usb"], Dir);
      (["/"; "home"; "models"; "tiny.gguf"], Symlink ["/"; "media"; "usb"; "tiny.gguf"]);
      (["/"; "media"; "usb"; "tiny.gguf"], File ["001"; "002"; "003"]%byte) ].

(** What the monitored variant of the move needs: the pre-flight
    verification finds the root mounted and writable and leaves the
    filesystem as it is, and the monitor does not report a disconnection
    when the move completes. *)
Definition monitor_quiet (E : Env) (monitor_usb_path : option (list string))
    (fs : gmap (list string) node) : Prop :=
  match monitor_usb_path with
  | None => True
  | Some usb =>
      (exists status,
         verify_usb_mounted E usb (1024 * 1024 * 100) fs = (Return status, fs)
         /\ is_mounted status = true /\ is_writable status = true)
      /\ env_disconnected_at_completion E = false
  end.

(** ** Directories without links *)

#[global] Instance plain_name_dec (c : string) : Decision (plain_name c).
Proof. unfold plain_name. apply _. Defined.

(** Below [d] every name is plain and no node is a link. *)
Definition tidy_below (d : Path) (fs : filesystem) : bool :=
  forallb (fun kv =>
             negb (bool_decide (d `prefix_of` kv.1))
             || (bool_decide (Forall plain_name (drop (length d) kv.1))
                 && match kv.2 with Symlink _ => false | _ => true end))
          (map_to_list fs).

(** No entry below [md] is a link to a file that lies directly in [usb]. *)
Definition links_lead_elsewhere (E : Env) (md usb : Path) (fs : filesystem) : bool :=
  forallb (fun p =>
             negb (path_is_file E p fs && path_is_symlink E p fs)
             || match path_resolve E p fs with
                | Return target => negb (bool_decide (path_parent target = usb))
                | Raise _ => true
                end)
          (rglob E md fs).

(** A model directory whose large file lies in a subdirectory, before and
    after its relocation. *)
Definition nested_fs : filesystem :=
  list_to_map
    [ (["/"; "home"], Dir); (["/"; "home"; "models"], Dir);
      (["/"; "home"; "models"; "llama"], Dir);
      (["/"; "home"; "models"; "llama"; "shards"], Dir);
      (["/"; "home"; "models"; "llama"; "shards"; "big.bin"], File ["001"; "002"]%byte);
      (["/"; "media"], Dir); (["/"; "media"; "usb"], Dir) ].
Definition nested_link_fs : filesystem :=
  list_to_map
    [ (["/"; "home"], Dir); (["/"; "home"; "models"], Dir);
      (["/"; "home"; "models"; "llama"], Dir);
      (["/"; "home"; "models"; "llama"; "shards"], Dir);
      (["/"; "home"; "models"; "llama"; "shards"; "big.bin"],
       Symlink ["/"; "media"; "usb"; "llama"; "shards"; "big.bin"]);
      (["/"; "media"], Dir); (["/"; "media"; "usb"], Dir);
      (["/"; "media"; "usb"; "llama"], Dir);
      (["/"; "media"; "usb"; "llama"; "shards"], Dir);
      (["/"; "media"; "usb"; "llama"; "shards"; "big.bin"], File ["001"; "002"]%byte) ].

(** A computation that raises only exceptions in [Q]. *)
Definition raises_only {S A} (Q : exn -> Prop) (m : M S A) : Prop :=
  forall s e s', m s = (Raise e, s') -> Q e.

(** ** Tracked paths *)

(** The path of an entry as the scan writes it: absolute, of plain names,
    and in a directory. *)
Definition path_in_directory (fs : filesystem) (p : Path) : bool :=
  is_absolute p
  && bool_decide (Forall plain_name (List.tl p))
  && bool_decide (p <> ["/"])
  && bool_decide (node_at fs (removelast p) = Some Dir).

(** Three tracked links: to a directory on the removable root, and two to
    directories that are not there. *)
Definition three_links_fs : filesystem :=
  list_to_map
    [ (["/"; "home"], Dir); (["/"; "home"; "models"], Dir);
      (["/"; "media"], Dir); (["/"; "media"; "usb"], Dir);
      (["/"; "home"; "models"; "acme"], Dir);
      (["/"; "media"; "usb"; "acme"], Dir);
      (llama_on_usb, Dir);
      (llama_on_usb ++ ["weights.gguf"], File ["001"; "002"; "003"; "004"]%byte);
      (llama_path, Symlink llama_on_usb);
      (["/"; "home"; "models"; "acme"; "gone"], Symlink ["/"; "media"; "usb"; "acme"; "gone"]);
      (["/"; "home"; "models"; "acme"; "lost"], Symlink ["/"; "media"; "usb"; "acme"; "lost"]) ].

Definition link_entry (mname : string) (name : string) : ModelInfo :=
  mkModelInfo mname (["/"; "home"; "models"; "acme"; name]) 4 "acme" name true
    (Some ["/"; "media"; "usb"; "acme"; name]) false None "gguf_dir".

Definition three_links_manager : ModelManager :=
  mkModelManager models_dir usb_dir
    (mkConfigManager "auto" 100 ["*.json"; "tokenizer*"])
    [("acme/gone", link_entry "acme/gone" "gone");
     ("acme/llama", llama_link llama_on_usb);
     ("acme/lost", link_entry "acme/lost" "lost")] None.

(** The model directory holds a link to a directory that lies elsewhere. *)
Definition linked_dir_fs : filesystem :=
  list_to_map
    [ (["/"; "home"], Dir); (["/"; "home"; "models"], Dir);
      (["/"; "media"], Dir); (["/"; "media"; "usb"], Dir);
      (["/"; "home"; "models"; "acme"], Dir);
      (["/"; "home"; "models"; "acme"; "llama"], Dir);
      (["/"; "home"; "models"; "acme"; "llama"; "weights.gguf"],
       File ["001"; "002"; "003"; "004"]%byte);
      (["/"; "home"; "models"; "acme"; "llama"; "config.json"], File ["{"; "}"]%byte);
      (["/"; "home"; "models"; "acme"; "llama"; "extra"], Symlink ["/"; "home"; "shared"]);
      (["/"; "home"; "shared"], Dir);
      (["/"; "home"; "shared"; "vocab.bin"], File ["005"; "006"; "007"]%byte) ].

(** * Verification *)

(** ** The two listings of the manager *)

Lemma filter_complement_perm {A} (f : A -> bool) (l : list A) :
  List.filter f l ++ List.filter (fun x => negb (f x)) l ≡ₚ l.
Proof.
  induction l as [|x l IH]; simpl; [done|].
  destruct (f x); simpl.
  - by rewrite IH.
  - rewrite <- Permutation_middle. by rewrite IH.
Qed.

Lemma elem_of_List_filter {A} (f : A -> bool) (l : list A) (x : A) :
  x ∈ List.filter f l <-> x ∈ l /\ f x = true.
Proof. rewrite !list_elem_of_In. apply filter_In. Qed.

(** C10: at every state of the manager the movable entries and the entries
    on the removable root split the tracked models: an entry is movable
    exactly when it is neither a whole-directory link nor carries per-file
    links, it is on the removable root exactly otherwise, no entry is in
    both lists, and the two lists together are the tracked models, each as
    often as it is tracked. *)
Theorem movable_and_usb_models_partition (mgr : ModelManager) :
  (forall model, model ∈ dict_values (_models mgr) ->
     (model ∈ get_movable_models mgr <->
        is_symlink model = false /\ has_internal_symlinks model = false)
     /\ (model ∈ get_usb_models mgr <->
           ~ (is_symlink model = false /\ has_internal_symlinks model = false))
     /\ (model ∈ get_movable_models mgr \/ model ∈ get_usb_models mgr))
  /\ (forall model, model ∈ get_movable_models mgr -> model ∈ get_usb_models mgr -> False)
  /\ get_movable_models mgr ++ get_usb_models mgr ≡ₚ dict_values (_models mgr).
Proof.
  unfold get_movable_models, get_usb_models.
  split; [|split].
  - intros model Hin. rewrite !elem_of_List_filter.
    destruct (is_symlink model), (has_internal_symlinks model); simpl;
      intuition congruence.
  - intros model. rewrite !elem_of_List_filter.
    destruct (is_symlink model), (has_internal_symlinks model); simpl;
      intuition congruence.
  - etransitivity; [|apply (filter_complement_perm
       (fun model => negb (is_symlink model) && negb (has_internal_symlinks model)))].
    apply Permutation_app; [done|].
    erewrite List.filter_ext; [done|].
    intros model. simpl. by destruct (is_symlink model), (has_internal_symlinks model).
Qed.

(** ** The per-file partition *)

Section PartitionFacts.
Context (E : Env) (fs : gmap (list string) node).
Context (size_threshold : Z) (keep_patterns : list string).

Lemma is_file_st_size (f : list string) :
  path_is_file E f fs = true -> exists size, st_size E f fs = Return size.
Proof.
  unfold path_is_file, st_size. destruct (stat E f fs) as [[data| |t]|]; try discriminate.
  eauto.
Qed.

(** The loop appends to [files_to_move] the eligible files and to
    [files_to_keep] the others, in order. *)
Lemma partition_files_filter (all_files files_to_move files_to_keep : list (list string)) :
  Forall (fun f => path_is_file E f fs = true) all_files ->
  partition_files E fs size_threshold keep_patterns all_files files_to_move files_to_keep
  = Return (files_to_move
              ++ List.filter (eligible_to_move E fs size_threshold keep_patterns) all_files,
            files_to_keep
              ++ List.filter (fun f => negb (eligible_to_move E fs size_threshold
                                               keep_patterns f)) all_files).
Proof.
  intros Hall. revert files_to_move files_to_keep.
  induction Hall as [|f rest Hf _ IH]; intros files_to_move files_to_keep; simpl.
  - by rewrite !app_nil_r.
  - destruct (is_file_st_size f Hf) as [size Hsize].
    assert (Hel : eligible_to_move E fs size_threshold keep_patterns f
                  = negb (should_keep_local E f keep_patterns) && (size >=? size_threshold)).
    { unfold eligible_to_move. by rewrite Hsize. }
    rewrite Hel, Hsize.
    destruct (should_keep_local E f keep_patterns); simpl.
    + rewrite IH. by rewrite <- app_assoc.
    + destruct (size >=? size_threshold); simpl; rewrite IH; by rewrite <- app_assoc.
Qed.

End PartitionFacts.

(** C3: under the per-file strategy every file of the directory entry that
    matches a keep-local pattern is kept, whatever its size; every other
    file is moved exactly when its size is at least the threshold and kept
    exactly when it is smaller; a file of exactly the threshold size is
    moved. *)
Theorem per_file_partition_inclusive (E : Env) (fs : gmap (list string) node)
    (entry : list string) (size_threshold : Z) (keep_patterns : list string) :
  let all_files := List.filter (fun f => path_is_file E f fs) (rglob E entry fs) in
  exists files_to_move files_to_keep,
    partition_files E fs size_threshold keep_patterns all_files [] []
      = Return (files_to_move, files_to_keep)
    /\ forall f, f ∈ all_files ->
         exists size, st_size E f fs = Return size
           /\ (should_keep_local E f keep_patterns = true ->
                 f ∈ files_to_keep /\ f ∉ files_to_move)
           /\ (should_keep_local E f keep_patterns = false ->
                 (f ∈ files_to_move <-> size_threshold <= size)
                 /\ (f ∈ files_to_keep <-> size < size_threshold)
                 /\ (size = size_threshold -> f ∈ files_to_move)).
Proof.
  intros all_files.
  assert (Hall : Forall (fun f => path_is_file E f fs = true) all_files).
  { apply List.Forall_forall. intros f Hf. apply filter_In in Hf. tauto. }
  eexists _, _. split; [apply partition_files_filter; exact Hall|].
  intros f Hf. simpl.
  assert (Hfile : path_is_file E f fs = true).
  { apply elem_of_List_filter in Hf. tauto. }
  destruct (is_file_st_size E fs f Hfile) as [size Hsize].
  exists size. split; [done|].
  rewrite !elem_of_List_filter. unfold eligible_to_move. rewrite Hsize.
  split.
  - intros Hk. rewrite Hk. simpl. intuition congruence.
  - intros Hk. rewrite Hk. simpl.
    destruct (Z.geb_spec size size_threshold); simpl;
      intuition (try congruence; try lia).
Qed.


Lemma List_filter_nil {A} (f : A -> bool) (l : list A) :
  (forall x, x ∈ l -> f x = false) -> List.filter f l = [].
Proof.
  induction l as [|x l IH]; intros H; simpl; [done|].
  rewrite (H x) by apply list_elem_of_here.
  apply IH. intros y Hy. apply H. by apply list_elem_of_further.
Qed.

(** C5: when the per-file strategy finds nothing to move in a directory
    entry (every file matches a keep-local pattern or is smaller than the
    threshold), the operation raises the no-eligible-files error and
    leaves the filesystem and the manager as they were: no file is moved,
    no link is made. *)
Theorem no_eligible_files_fails_untouched (E : Env) (key : string) (model : ModelInfo)
    (usb_dest : list string) (mgr : ModelManager) (fs : gmap (list string) node) :
  path_is_dir E (path model) fs = true ->
  (forall f size,
     f ∈ rglob E (path model) fs -> path_is_file E f fs = true ->
     st_size E f fs = Return size ->
     should_keep_local E f (get_keep_local_patterns (config_manager mgr)) = true
     \/ size < get_file_size_threshold_bytes (config_manager mgr)) ->
  _move_with_file_symlinks E key model usb_dest (mgr, fs)
  = (Raise (Exn RuntimeError "No files meet the criteria for moving to USB"), (mgr, fs)).
Proof.
  intros Hdir Hnone.
  unfold _move_with_file_symlinks, bind, lift_fs, lift_local, lift_outcome, get. simpl.
  rewrite Hdir. simpl.
  set (all_files := List.filter (fun f => path_is_file E f fs) (rglob E (path model) fs)).
  assert (Hall : Forall (fun f => path_is_file E f fs = true) all_files).
  { apply List.Forall_forall. intros f Hf. apply filter_In in Hf. tauto. }
  rewrite (partition_files_filter _ _ _ _ _ _ _ Hall). simpl.
  assert (Hnil : List.filter (eligible_to_move E fs
                   (get_file_size_threshold_bytes (config_manager mgr))
                   (get_keep_local_patterns (config_manager mgr))) all_files = []).
  { apply List_filter_nil. intros f Hf.
    apply elem_of_List_filter in Hf as [Hf Hfile].
    destruct (is_file_st_size E fs f Hfile) as [size Hsize].
    unfold eligible_to_move. rewrite Hsize.
    destruct (Hnone f size Hf Hfile Hsize) as [-> | Hlt]; [done|].
    apply andb_false_intro2. rewrite Z.geb_leb. apply Z.leb_gt. lia. }
  by rewrite Hnil.
Qed.

Lemma no_eligible_files_witness :
  _move_with_file_symlinks linux_env "acme/llama" llama
    ["/"; "media"; "usb"; "acme"; "llama"] (manager_with "file" 100, local_fs)
  = (Raise (Exn RuntimeError "No files meet the criteria for moving to USB"),
     (manager_with "file" 100, local_fs)).
Proof.
  apply no_eligible_files_fails_untouched.
  - (vm_compute; reflexivity).
  - intros f size Hf Hfile Hsize.
    assert (Hr : rglob linux_env (path llama) local_fs
                 = [ ["/"; "home"; "models"; "acme"; "llama"; "config.json"];
                     ["/"; "home"; "models"; "acme"; "llama"; "weights.gguf"] ])
      by (vm_compute; reflexivity).
    rewrite Hr in Hf.
    apply elem_of_cons in Hf as [-> | Hf].
    + right.
      assert (Hs : st_size linux_env
                     ["/"; "home"; "models"; "acme"; "llama"; "config.json"] local_fs
                   = Return 2) by (vm_compute; reflexivity).
      rewrite Hs in Hsize. injection Hsize as <-. vm_compute. reflexivity.
    + apply elem_of_cons in Hf as [-> | Hf].
      * right.
        assert (Hs : st_size linux_env
                       ["/"; "home"; "models"; "acme"; "llama"; "weights.gguf"] local_fs
                     = Return 4) by (vm_compute; reflexivity).
        rewrite Hs in Hsize. injection Hsize as <-. vm_compute. reflexivity.
      * apply elem_of_nil in Hf. destruct Hf.
Defined.

(** ** Mount verification *)

Lemma try_pass_returns {S} (body : M S unit) (s : S) :
  exists s', try_pass body s = (Return tt, s').
Proof.
  unfold try_pass, try_except, ret.
  destruct (body s) as [[[]|e] s']; eauto.
Qed.

Lemma detect_mount_point_type (E : Env) (usb_path : list string) :
  (detect_mount_point E usb_path).2
  = if (detect_mount_point E usb_path).1 then "mount_point" else "directory".
Proof.
  unfold detect_mount_point.
  generalize (find_mounted_ancestor E (S (length usb_path)) usb_path). intros anc.
  destruct (bool_decide (env_platform E = "Darwin"));
    [destruct (String.prefix "/Volumes/" (path_str usb_path))|];
    try destruct (env_ismount E (path_str usb_path)); destruct anc; reflexivity.
Qed.

Lemma classify_probed (imp w s : bool) (msg : string) :
  classify (mkUSBVerificationResult imp w s msg
              (if imp then "mount_point" else "directory"))
  = if negb imp then LocalDirectory
    else if negb w then NotWritable
    else if negb s then InsufficientSpace
    else Healthy.
Proof. destruct imp, w, s; reflexivity. Qed.

Lemma classify_not_mounted (msg : string) :
  classify (mkUSBVerificationResult false false false msg "not_mounted") = NotMounted.
Proof. reflexivity. Qed.

Lemma classify_unknown (msg : string) :
  classify (mkUSBVerificationResult false false false msg "unknown") = UnknownFailure.
Proof. reflexivity. Qed.

(** C8: for every path and every bound on the free space the verifier
    returns a status and raises nothing; the outcome read off the fields of
    the status is the situation found (path missing, not a mount point, not
    writable, too little space, healthy), so the outcomes are told apart by
    the fields; an error that is no [OSError] is reported as "unknown", and
    "unknown" is never a mounted, writable or roomy status; healthy is read
    exactly when the three flags are set. *)
Theorem verify_usb_mounted_never_raises (E : Env) (usb_path : list string)
    (min_space_bytes : Z) (fs : gmap (list string) node) :
  exists r fs',
    verify_usb_mounted E usb_path min_space_bytes fs = (Return r, fs')
    /\ classify r = mount_situation E usb_path min_space_bytes fs
    /\ (forall e fs1,
          path_exists E usb_path fs = true ->
          write_probe E usb_path min_space_bytes fs = (Raise e, fs1) ->
          is_OSError e = false ->
          mount_type r = "unknown")
    /\ (classify r = UnknownFailure ->
          is_mounted r = false /\ is_writable r = false /\ has_space r = false)
    /\ (classify r = NotMounted ->
          is_mounted r = false /\ is_writable r = false /\ has_space r = false)
    /\ (classify r = Healthy <->
          is_mounted r = true /\ is_writable r = true /\ has_space r = true).
Proof.
  unfold verify_usb_mounted, mount_situation, try_except, try_except_when, bind, get, ret.
  destruct (path_exists E usb_path fs) eqn:Hex; cbn [negb].
  2:{ eexists _, _. split; [reflexivity|].
      rewrite classify_not_mounted.
      cbn [is_mounted is_writable has_space mount_type].
      intuition (try discriminate; try congruence). }
  pose proof (detect_mount_point_type E usb_path) as Hty.
  destruct (detect_mount_point E usb_path) as [imp mt]. cbn [fst snd] in Hty |- *. subst mt.
  destruct (write_probe E usb_path min_space_bytes fs) as [[[w s]|e] fs1] eqn:Hprobe.
  - eexists _, _. split; [reflexivity|].
    rewrite classify_probed. cbn [is_mounted is_writable has_space mount_type].
    destruct imp, w, s; cbn [negb]; intuition (try discriminate; try congruence).
  - destruct (is_OSError e) eqn:Hos.
    + destruct (try_pass_returns
                  (fs' <- get ;;
                   when (path_exists E (usb_test_file E usb_path) fs')
                        (unlink E (usb_test_file E usb_path))) fs1) as [fs2 Hclean].
      unfold bind, get in Hclean. rewrite Hclean.
      eexists _, _. split; [reflexivity|].
      rewrite classify_probed. cbn [is_mounted is_writable has_space mount_type].
      destruct imp; cbn [negb]; intuition (try discriminate; try congruence).
    + eexists _, _. split; [reflexivity|].
      rewrite classify_unknown.
      cbn [is_mounted is_writable has_space mount_type].
      intuition (try discriminate; try congruence).
Qed.

(** ** Path resolution *)

Lemma walk_nil (hops : nat) (fs : gmap (list string) node) (cur : list string) :
  walk hops fs cur [] = Found cur.
Proof. destruct hops; reflexivity. Qed.

Lemma walk_cons (hops : nat) (fs : gmap (list string) node) (cur : list string)
    (c : string) (rest : list string) :
  walk hops fs cur (c :: rest)
  = if bool_decide (c = "..") then walk hops fs (path_parent cur) rest
    else
      match node_at fs (cur ++ [c]) with
      | None => match rest with [] => Missing (cur ++ [c]) | _ => Invalid FileNotFoundError end
      | Some Dir => walk hops fs (cur ++ [c]) rest
      | Some (File _) =>
          match rest with [] => Found (cur ++ [c]) | _ => Invalid NotADirectoryError end
      | Some (Symlink t) =>
          match hops with
          | O => Invalid OSError
          | S h =>
              if is_absolute t then walk h fs ["/"] (List.tl t ++ rest)
              else walk h fs cur (t ++ rest)
          end
      end.
Proof. destruct hops; reflexivity. Qed.

Lemma node_at_mono (fs fs' : gmap (list string) node) (k : list string) (n : node) :
  fs ⊆ fs' -> node_at fs k = Some n -> node_at fs' k = Some n.
Proof.
  unfold node_at. intros Hsub. case_bool_decide; [done|].
  intros Hk. by eapply lookup_weaken.
Qed.

(** A path that leads somewhere still leads there when entries are added. *)
Lemma walk_mono (fs fs' : gmap (list string) node) :
  fs ⊆ fs' ->
  forall hops cur todo d,
    walk hops fs cur todo = Found d -> walk hops fs' cur todo = Found d.
Proof.
  intros Hsub hops. induction hops as [|h IHh]; intros cur todo; revert cur.
  - induction todo as [|c rest IH]; intros cur d; [by rewrite !walk_nil|].
    rewrite !walk_cons. case_bool_decide; auto.
    destruct (node_at fs (cur ++ [c])) as [[data| |t]|] eqn:Hn;
      [rewrite (node_at_mono _ _ _ _ Hsub Hn)..|]; auto.
    destruct rest; discriminate.
  - induction todo as [|c rest IH]; intros cur d; [by rewrite !walk_nil|].
    rewrite !walk_cons. case_bool_decide; auto.
    destruct (node_at fs (cur ++ [c])) as [[data| |t]|] eqn:Hn;
      [rewrite (node_at_mono _ _ _ _ Hsub Hn)..|]; auto.
    + destruct (is_absolute t); auto.
    + destruct rest; discriminate.
Qed.

(** One more component after a directory that was reached. *)
Lemma walk_snoc (fs : gmap (list string) node) (c : string) :
  c <> ".." ->
  forall hops cur todo d,
    walk hops fs cur todo = Found d ->
    node_at fs d = Some Dir ->
    (forall t, node_at fs (d ++ [c]) <> Some (Symlink t)) ->
    walk hops fs cur (todo ++ [c])
    = match node_at fs (d ++ [c]) with
      | None => Missing (d ++ [c])
      | Some _ => Found (d ++ [c])
      end.
Proof.
  intros Hc hops. induction hops as [|h IHh]; intros cur todo; revert cur.
  - induction todo as [|x rest IH]; intros cur d.
    + rewrite walk_nil. intros [= <-] Hd Hl. rewrite app_nil_l, walk_cons.
      rewrite bool_decide_false by done.
      destruct (node_at fs (cur ++ [c])) as [[data| |t]|];
        rewrite ?walk_nil; try reflexivity. by destruct (Hl t).
    + rewrite <- app_comm_cons, !walk_cons. case_bool_decide; auto.
      destruct (node_at fs (cur ++ [x])) as [[data| |t]|] eqn:Hn; auto.
      * destruct rest; [|discriminate]. intros [= <-] Hd. congruence.
      * discriminate.
      * destruct rest; discriminate.
  - induction todo as [|x rest IH]; intros cur d.
    + rewrite walk_nil. intros [= <-] Hd Hl. rewrite app_nil_l, walk_cons.
      rewrite bool_decide_false by done.
      destruct (node_at fs (cur ++ [c])) as [[data| |t]|];
        rewrite ?walk_nil; try reflexivity. by destruct (Hl t).
    + rewrite <- app_comm_cons, !walk_cons. case_bool_decide; auto.
      destruct (node_at fs (cur ++ [x])) as [[data| |t]|] eqn:Hn; auto.
      * destruct rest; [|discriminate]. intros [= <-] Hd. congruence.
      * destruct (is_absolute t); intros Hw Hd Hl; rewrite app_assoc; by apply IHh.
      * destruct rest; discriminate.
Qed.

Lemma join_not_root (p : list string) (c : string) : c <> "/" -> path_join p c <> ["/"].
Proof.
  unfold path_join. intros Hc. destruct p as [|x p]; simpl.
  - congruence.
  - intros [= _ H]. by destruct p.
Qed.

Lemma path_name_join (p : list string) (c : string) :
  c <> "/" -> path_name (path_join p c) = c.
Proof.
  intros Hc. unfold path_name. rewrite bool_decide_false by by apply join_not_root.
  apply last_last.
Qed.

Lemma path_parent_join (p : list string) (c : string) :
  c <> "/" -> path_parent (path_join p c) = p.
Proof.
  intros Hc. unfold path_parent. rewrite bool_decide_false by by apply join_not_root.
  apply removelast_last.
Qed.

Section Locate.
Context (E : Env).

(** The entry [c] of a directory that [p] leads to. *)
Lemma locate_follow_join (p : list string) (c : string) (fs : gmap (list string) node)
    (d : list string) :
  plain_name c ->
  locate_follow E p fs = Found d ->
  node_at fs d = Some Dir ->
  (forall t, node_at fs (d ++ [c]) <> Some (Symlink t)) ->
  locate_follow E (path_join p c) fs
  = match node_at fs (d ++ [c]) with
    | None => Missing (d ++ [c])
    | Some _ => Found (d ++ [c])
    end.
Proof.
  intros (Hc1 & Hc2 & Hc3). unfold locate_follow, path_join.
  destruct p as [|x p].
  - cbn [is_absolute app]. rewrite bool_decide_false by done.
    intros Hw Hd Hl. by apply (walk_snoc fs c Hc2 _ _ [] d).
  - cbn [is_absolute app List.tl]. destruct (bool_decide (x = "/")).
    + intros Hw Hd Hl. by apply walk_snoc.
    + intros Hw Hd Hl. by apply (walk_snoc fs c Hc2 _ _ (x :: p) d).
Qed.

Lemma locate_entry_join (p : list string) (c : string) (fs : gmap (list string) node) :
  plain_name c ->
  locate_entry E (path_join p c) fs
  = match locate_follow E p fs with
    | Found d =>
        match node_at fs d with
        | Some Dir =>
            match node_at fs (d ++ [c]) with
            | Some _ => Found (d ++ [c])
            | None => Missing (d ++ [c])
            end
        | Some _ => Invalid NotADirectoryError
        | None => Invalid FileNotFoundError
        end
    | Missing _ => Invalid FileNotFoundError
    | Invalid e => Invalid e
    end.
Proof.
  intros (Hc1 & Hc2 & Hc3). unfold locate_entry.
  rewrite path_name_join, path_parent_join by done.
  by rewrite !bool_decide_false by done.
Qed.

(** What [locate_entry] says of a missing entry. *)
Lemma locate_entry_join_missing (p : list string) (c : string)
    (fs : gmap (list string) node) (k : list string) :
  plain_name c ->
  locate_entry E (path_join p c) fs = Missing k ->
  exists d, k = d ++ [c] /\ locate_follow E p fs = Found d
            /\ node_at fs d = Some Dir /\ node_at fs k = None /\ fs !! k = None
            /\ k <> ["/"].
Proof.
  intros Hc. rewrite locate_entry_join by done.
  destruct (locate_follow E p fs) as [d| |]; try discriminate.
  destruct (node_at fs d) as [[| |]|] eqn:Hd; try discriminate.
  destruct (node_at fs (d ++ [c])) eqn:Hn; try discriminate.
  intros [= <-]. exists d. repeat split; auto.
  - unfold node_at in Hn. by case_bool_decide.
  - destruct Hc as (_ & _ & Hc). by apply (join_not_root d c).
Qed.

(** Once a file is stored at a missing entry, the path leads to it. *)
Lemma locate_after_store (p : list string) (c : string) (fs : gmap (list string) node)
    (k : list string) (data : list byte) :
  plain_name c ->
  locate_entry E (path_join p c) fs = Missing k ->
  locate_follow E (path_join p c) fs = Missing k
  /\ locate_follow E (path_join p c) (<[k := File data]> fs) = Found k
  /\ locate_entry E (path_join p c) (<[k := File data]> fs) = Found k
  /\ node_at (<[k := File data]> fs) k = Some (File data).
Proof.
  intros Hc Hm.
  destruct (locate_entry_join_missing p c fs k Hc Hm) as (d & -> & Hp & Hd & Hn & Hl & Hr).
  assert (Hsub : fs ⊆ <[d ++ [c] := File data]> fs) by by apply insert_subseteq.
  assert (Hk : node_at (<[d ++ [c] := File data]> fs) (d ++ [c]) = Some (File data)).
  { unfold node_at. rewrite bool_decide_false by done. apply lookup_insert_eq. }
  assert (Hp' : locate_follow E p (<[d ++ [c] := File data]> fs) = Found d).
  { unfold locate_follow in *. destruct (is_absolute p); by eapply walk_mono. }
  assert (Hd' : node_at (<[d ++ [c] := File data]> fs) d = Some Dir)
    by by eapply node_at_mono.
  split; [|split; [|split]]; [| | |done].
  - rewrite (locate_follow_join p c fs d Hc Hp Hd); rewrite Hn; [done|congruence].
  - rewrite (locate_follow_join p c _ d Hc Hp' Hd'); rewrite Hk; [done|congruence].
  - rewrite locate_entry_join, Hp', Hd', Hk by done. done.
Qed.

End Locate.

(** ** The write probe cleans up after itself *)

Section Probe.
Context (E : Env).

Lemma test_name_plain : plain_name (".llm_mover_test_" +:+ pid_str E).
Proof. repeat split; discriminate. Qed.

Lemma speed_name_plain : plain_name (".speed_test_" +:+ pid_str E).
Proof. repeat split; discriminate. Qed.

(** Writing a file that was not there and removing it again. *)
Lemma store_then_unlink (p : list string) (c : string) (fs : gmap (list string) node)
    (k : list string) (data : list byte) :
  plain_name c ->
  locate_entry E (path_join p c) fs = Missing k ->
  store_file E (path_join p c) data fs = (Return tt, <[k := File data]> fs)
  /\ stat E (path_join p c) (<[k := File data]> fs) = Some (File data)
  /\ path_exists E (path_join p c) fs = false
  /\ unlink E (path_join p c) (<[k := File data]> fs) = (Return tt, fs).
Proof.
  intros Hc Hm.
  destruct (locate_after_store E p c fs k data Hc Hm) as (H1 & H2 & H3 & H4).
  destruct (locate_entry_join_missing E p c fs k Hc Hm) as (d & _ & _ & _ & _ & Hl & _).
  repeat split.
  - unfold store_file. by rewrite H1.
  - unfold stat. by rewrite H2.
  - unfold path_exists, stat. by rewrite H1.
  - unfold unlink. rewrite H3, H4. by rewrite delete_insert_id.
Qed.

(** When no stale probe file lies on the root, the probe leaves the
    filesystem as it was, unless it fails after the write: then the probe
    file is still there. *)
Lemma write_probe_restores (usb_path : list string) (min_space_bytes : Z)
    (fs : gmap (list string) node) (k : list string) :
  locate_entry E (usb_test_file E usb_path) fs = Missing k ->
  forall r fs1,
    write_probe E usb_path min_space_bytes fs = (r, fs1) ->
    match r with
    | Return _ => fs1 = fs
    | Raise _ =>
        fs1 = fs
        \/ (exists data, fs1 = <[k := File data]> fs
                         /\ unlink E (usb_test_file E usb_path) fs1 = (Return tt, fs)
                         /\ path_exists E (usb_test_file E usb_path) fs1 = true)
    end.
Proof.
  intros Hm r fs1. unfold usb_test_file in *.
  unfold write_probe, usb_test_file, write_file, bind, raise.
  destruct (env_fault E SysOpenWrite _) as [e|].
  { intros [= <- <-]. by left. }
  set (data := env_store E _ _).
  destruct (store_then_unlink _ _ fs k data test_name_plain Hm) as (Hs & Hst & Hex & Hun).
  rewrite Hs.
  assert (Hex' : path_exists E (path_join usb_path (".llm_mover_test_" +:+ pid_str E))
                   (<[k := File data]> fs) = true).
  { unfold path_exists. by rewrite Hst. }
  destruct (env_fault E SysWrite _) as [e|].
  { intros [= <- <-]. right. eauto. }
  unfold ret at 1.
  unfold read_file. destruct (env_fault E SysOpenRead _) as [e|].
  { intros [= <- <-]. right. eauto. }
  rewrite Hst.
  unfold disk_usage. destruct (env_fault E SysDiskUsage _) as [e|].
  { intros [= <- <-]. right. eauto. }
  destruct (path_exists E usb_path _).
  - rewrite Hun. unfold ret. by intros [= <- <-].
  - intros [= <- <-]. right. eauto.
Qed.

(** A verification that does not end in "unknown" leaves the filesystem as
    it was, when no stale probe file lay on the root. *)
Lemma verify_usb_mounted_restores (usb_path : list string) (min_space_bytes : Z)
    (fs : gmap (list string) node) (k : list string) (status : USBVerificationResult)
    (fs1 : gmap (list string) node) :
  locate_entry E (usb_test_file E usb_path) fs = Missing k ->
  verify_usb_mounted E usb_path min_space_bytes fs = (Return status, fs1) ->
  mount_type status <> "unknown" ->
  fs1 = fs.
Proof.
  intros Hm. unfold verify_usb_mounted, try_except, try_except_when, bind, get, ret.
  destruct (path_exists E usb_path fs); cbn [negb].
  2:{ by intros [= <- <-]. }
  destruct (detect_mount_point E usb_path) as [imp mt].
  pose proof (write_probe_restores usb_path min_space_bytes fs k Hm) as Hp.
  destruct (write_probe E usb_path min_space_bytes fs) as [[[w s]|e] fs'].
  - specialize (Hp _ _ eq_refl). cbn in Hp. subst fs'. by intros [= <- <-].
  - specialize (Hp _ _ eq_refl). cbn in Hp.
    destruct (is_OSError e).
    + unfold try_pass, try_except, bind, get, when, ret.
      destruct Hp as [-> | (data & -> & Hun & Hex)].
      * assert (Hex : path_exists E (usb_test_file E usb_path) fs = false).
        { unfold path_exists, stat, usb_test_file.
          destruct (locate_after_store E _ _ fs k [] test_name_plain Hm) as (-> & _).
          done. }
        rewrite Hex. by intros [= <- <-].
      * rewrite Hex, Hun. by intros [= <- <-].
    + intros [= <- <-]. cbn. congruence.
Qed.

End Probe.
(** ** Comparing the outcome of a run *)

(** Two filesystems with the same listing are equal; the outcome of a run
    is compared by its result and by the listing of its filesystem. *)
Lemma fs_eq_by_listing (m1 m2 : gmap (list string) node) :
  map_to_list m1 = map_to_list m2 -> m1 = m2.
Proof. intros H. apply map_to_list_inj. by rewrite H. Qed.

Lemma run_eq_fs {A} (x : outcome A * gmap (list string) node) (r : outcome A)
    (m : gmap (list string) node) :
  x.1 = r -> map_to_list x.2 = map_to_list m -> x = (r, m).
Proof. destruct x as [r' m']. simpl. intros -> H. f_equal. by apply fs_eq_by_listing. Qed.

Lemma run_eq_mgr_fs {A} (x : outcome A * (ModelManager * gmap (list string) node))
    (r : outcome A) (g : ModelManager) (m : gmap (list string) node) :
  x.1 = r -> x.2.1 = g -> map_to_list x.2.2 = map_to_list m -> x = (r, (g, m)).
Proof.
  destruct x as [r' [g' m']]. simpl. intros -> -> H. do 2 f_equal.
  by apply fs_eq_by_listing.
Qed.

(** ** Relocation onto an occupied destination *)

Lemma walk_missing (fs : gmap (list string) node) :
  forall hops cur todo k, walk hops fs cur todo = Missing k -> node_at fs k = None.
Proof.
  intros hops. induction hops as [|h IHh]; intros cur todo; revert cur.
  - induction todo as [|c rest IH]; intros cur k; [by rewrite walk_nil|].
    rewrite walk_cons. case_bool_decide; [eauto|].
    destruct (node_at fs (cur ++ [c])) as [[data| |t]|] eqn:Hn;
      [ destruct rest; intros Hw; discriminate Hw
      | eauto
      | intros Hw; discriminate Hw
      | destruct rest; [by intros [= <-] | intros Hw; discriminate Hw] ].
  - induction todo as [|c rest IH]; intros cur k; [by rewrite walk_nil|].
    rewrite walk_cons. case_bool_decide; [eauto|].
    destruct (node_at fs (cur ++ [c])) as [[data| |t]|] eqn:Hn;
      [ destruct rest; intros Hw; discriminate Hw
      | eauto
      | destruct (is_absolute t); eauto
      | destruct rest; [by intros [= <-] | intros Hw; discriminate Hw] ].
Qed.

Lemma locate_entry_missing (E : Env) (p : list string) (fs : gmap (list string) node)
    (k : list string) :
  locate_entry E p fs = Missing k -> fs !! k = None.
Proof.
  intros H. assert (Hn : node_at fs k = None).
  { unfold locate_entry in H.
    destruct (bool_decide (path_name p = "") || bool_decide (path_name p = "..")).
    - unfold locate_follow in H. destruct (is_absolute p); by eapply walk_missing.
    - destruct (locate_follow E (path_parent p) fs) as [d| |]; try discriminate.
      destruct (node_at fs d) as [[| |]|]; try discriminate.
      destruct (node_at fs (d ++ [path_name p])) eqn:Hn; try discriminate.
      by injection H as <-. }
  unfold node_at in Hn. by case_bool_decide.
Qed.

(** [mkdir] without [parents] makes at most one new, empty directory. *)
Lemma mkdir_single_effect (E : Env) (exist_ok : bool) (p : list string)
    (fs : gmap (list string) node) (r : outcome unit) (fs' : gmap (list string) node) :
  mkdir E false exist_ok p fs = (r, fs') ->
  fs' = fs \/ exists k, fs !! k = None /\ fs' = <[k := Dir]> fs.
Proof.
  unfold mkdir.
  assert (Hstep : forall fuel, path_mkdir E fuel false exist_ok p fs = (r, fs') ->
            fs' = fs \/ exists k, fs !! k = None /\ fs' = <[k := Dir]> fs).
  { intros fuel.
    assert (Hos : forall r0 fs0, os_mkdir E p fs = (r0, fs0) ->
              (exists e, r0 = Raise e /\ fs0 = fs)
              \/ (r0 = Return tt /\ exists k, fs !! k = None /\ fs0 = <[k := Dir]> fs)).
    { intros r0 fs0. unfold os_mkdir.
      destruct (locate_entry E p fs) as [k|k|c] eqn:Hl; intros [= <- <-]; eauto.
      right. split; [done|]. exists k. split; [|done]. by eapply locate_entry_missing. }
    destruct fuel; simpl;
      (destruct (os_mkdir E p fs) as [[[]|e] fs0] eqn:Hmk;
       destruct (Hos _ _ eq_refl) as [(e' & He & ->) | (Hr & k & Hk & ->)];
       try discriminate;
       [ intros [= <- <-]; eauto
       | destruct (bool_decide (exn_kind e = FileNotFoundError));
         [ intros [= <- <-]; by left
         | destruct (negb exist_ok || negb (path_is_dir E p fs)); intros [= <- <-]; by left ] ]). }
  apply Hstep.
Qed.

Lemma verify_mounted_not_unknown (E : Env) (usb_path : list string) (min_space_bytes : Z)
    (fs fs1 : gmap (list string) node) (status : USBVerificationResult) :
  verify_usb_mounted E usb_path min_space_bytes fs = (Return status, fs1) ->
  is_mounted status = true ->
  mount_type status <> "unknown".
Proof.
  unfold verify_usb_mounted, try_except, try_except_when, bind, get, ret.
  destruct (path_exists E usb_path fs); cbn [negb].
  2:{ intros [= <- <-]. discriminate. }
  pose proof (detect_mount_point_type E usb_path) as Hty.
  destruct (detect_mount_point E usb_path) as [imp mt]. cbn [fst snd] in Hty. subst mt.
  destruct (write_probe E usb_path min_space_bytes fs) as [[[w s]|e] fs'].
  - intros [= <- <-]. cbn. by destruct imp.
  - destruct (is_OSError e).
    + destruct (try_pass_returns
                  (fs' <- get ;;
                   when (path_exists E (usb_test_file E usb_path) fs')
                        (unlink E (usb_test_file E usb_path))) fs') as [fs2 Hclean].
      unfold bind, get in Hclean. rewrite Hclean.
      intros [= <- <-]. cbn. by destruct imp.
    + intros [= <- <-]. discriminate.
Qed.

(** C4: a relocation that reaches the destination check (the pre-flight
    verification found the root healthy, the entry is tracked and is not a
    link) and finds the computed destination existing raises
    [FileExistsError] there and does nothing further: the filesystem is the
    one the pre-flight left.  When no stale probe file lay on the root,
    that filesystem holds every node it held before the call, unchanged,
    and at most one node more: the new, empty publisher directory; so
    nothing of the source is moved, deleted or replaced by a link. *)
Theorem relocate_onto_existing_destination (E : Env) (mname : string)
    (mgr : ModelManager) (fs : gmap (list string) node) (model : ModelInfo)
    (status : USBVerificationResult) (fs1 : gmap (list string) node)
    (usb_dest : list string) (fs2 : gmap (list string) node) :
  verify_usb_mounted E (usb_path mgr) (1024 * 1024 * 100) fs = (Return status, fs1) ->
  is_mounted status = true -> is_writable status = true -> has_space status = true ->
  get_model_by_name mgr mname = Some model ->
  is_symlink model = false ->
  usb_destination E mgr model fs1 = (Return usb_dest, fs2) ->
  path_exists E usb_dest fs2 = true ->
  move_model_to_usb E mname (mgr, fs)
  = (Raise (Exn FileExistsError ("Destination already exists: " +:+ path_str usb_dest)),
     (set_usb_verification (Some status) mgr, fs2))
  /\ (forall k, locate_entry E (usb_test_file E (usb_path mgr)) fs = Missing k ->
        fs ⊆ fs2
        /\ (fs2 = fs \/ exists k', fs !! k' = None /\ fs2 = <[k' := Dir]> fs)).
Proof.
  intros Hv Hm Hw Hs Hget Hsym Hdest Hex. split.
  - unfold move_model_to_usb, refresh_usb_status, bind, lift_local, lift_fs, get, modify, ret.
    cbn [fst snd]. rewrite Hv. cbn [fst snd].
    rewrite Hm, Hw, Hs. cbn [negb fst snd].
    unfold get_model_by_name in *. cbn [fst snd _models usb_path set_usb_verification].
    rewrite Hget, Hsym. cbn [fst snd _models usb_path set_usb_verification].
    assert (Hd : usb_destination E (set_usb_verification (Some status) mgr) model fs1
                 = (Return usb_dest, fs2)) by exact Hdest.
    rewrite Hd. cbn [fst snd]. by rewrite Hex.
  - intros k Hk.
    assert (fs1 = fs) as ->.
    { eapply verify_usb_mounted_restores; eauto. by eapply verify_mounted_not_unknown. }
    assert (Hfr : fs2 = fs \/ exists k', fs !! k' = None /\ fs2 = <[k' := Dir]> fs).
    { unfold usb_destination, bind, ret in Hdest.
      destruct (negb (bool_decide (publisher model = ""))).
      - destruct (mkdir E false true _ fs) as [[[]|e] fs'] eqn:Hmk; [|discriminate].
        injection Hdest as _ <-. by eapply mkdir_single_effect.
      - injection Hdest as _ <-. by left. }
    split; [|exact Hfr].
    destruct Hfr as [-> | (k' & Hn & ->)]; [done|]. by apply insert_subseteq.
Qed.

Lemma relocate_onto_existing_destination_witness :
  move_model_to_usb linux_env "acme/llama" (manager_with "auto" 100, occupied_fs)
  = (Raise (Exn FileExistsError
              ("Destination already exists: "
                 +:+ path_str ["/"; "media"; "usb"; "acme"; "llama"])),
     (set_usb_verification (Some healthy_status) (manager_with "auto" 100), occupied_fs))
  /\ (forall k,
        locate_entry linux_env (usb_test_file linux_env (usb_path (manager_with "auto" 100)))
          occupied_fs = Missing k ->
        occupied_fs ⊆ occupied_fs
        /\ (occupied_fs = occupied_fs
            \/ exists k', occupied_fs !! k' = None /\ occupied_fs = <[k' := Dir]> occupied_fs)).
Proof.
  apply (relocate_onto_existing_destination linux_env "acme/llama"
           (manager_with "auto" 100) occupied_fs llama healthy_status occupied_fs
           ["/"; "media"; "usb"; "acme"; "llama"] occupied_fs).
  - apply run_eq_fs; vm_compute; reflexivity.
  - reflexivity.
  - reflexivity.
  - reflexivity.
  - vm_compute; reflexivity.
  - reflexivity.
  - apply run_eq_fs; vm_compute; reflexivity.
  - vm_compute; reflexivity.
Defined.

(** ** The health of a link *)

(** A path that does not resolve gets the initial dictionary back: the
    early return comes before the link is looked at. *)
Lemma check_symlink_health_unresolved (E : Env) (p : list string)
    (fs : gmap (list string) node) :
  path_exists E p fs = false ->
  check_symlink_health E p fs = mkSymlinkHealth false false false None false false.
Proof. intros H. unfold check_symlink_health. by rewrite H. Qed.

(** C7 (the code misses it): a link whose recorded target does not exist is
    not reported broken.  Here the entry is a link to a missing directory
    on the removable root; the health check returns before it looks at the
    link, with [is_symlink] and [is_broken] both false. *)
Theorem check_symlink_health_dangling_link_not_broken :
  path_is_symlink linux_env llama_path dangling_fs = true
  /\ readlink linux_env llama_path dangling_fs = Return llama_on_usb
  /\ path_exists linux_env llama_on_usb dangling_fs = false
  /\ check_symlink_health linux_env llama_path dangling_fs
     = mkSymlinkHealth false false false None false false.
Proof. repeat split; vm_compute; reflexivity. Qed.

(** ** Rollback of a verified move *)

(** C1 (the code misses it): the destination existed and was renamed aside;
    the moved file is empty, so the verification fails.  The rollback
    deletes the destination and raises the original error, but moves the
    backup to the source path: the destination is not restored, and the
    former destination file now lies where the source was. *)
Theorem safe_move_rollback_loses_destination :
  let source := ["/"; "home"; "models"; "tiny.gguf"] in
  let destination := ["/"; "media"; "usb"; "tiny.gguf"] in
  let run := safe_move_with_verification linux_env source destination None
               stale_destination_fs in
  stale_destination_fs !! source = Some (File [])
  /\ stale_destination_fs !! destination = Some (File ["001"; "002"; "003"]%byte)
  /\ run.1 = Raise (Exn ValueError "Destination file is empty or doesn't exist")
  /\ run.2 !! destination = None
  /\ run.2 !! path_add_suffix destination ".backup_4242" = None
  /\ run.2 !! source = Some (File ["001"; "002"; "003"]%byte).
Proof. repeat split; vm_compute; reflexivity. Qed.

(** ** Repair *)

Section Repair.
Context (E : Env).

Lemma unlink_effect (p : list string) (fs : gmap (list string) node)
    (r : outcome unit) (fs1 : gmap (list string) node) :
  unlink E p fs = (r, fs1) ->
  (fs1 = fs /\ exists e, r = Raise e)
  \/ (r = Return tt /\ exists k, locate_entry E p fs = Found k /\ fs1 = delete k fs).
Proof.
  unfold unlink. destruct (locate_entry E p fs) as [k| |] eqn:Hl.
  - destruct (node_at fs k) as [[| |]|]; intros [= <- <-]; eauto.
  - intros [= <- <-]; eauto.
  - intros [= <- <-]; eauto.
Qed.

Lemma unlink_link (p : list string) (fs : gmap (list string) node) (k t : list string) :
  locate_entry E p fs = Found k -> node_at fs k = Some (Symlink t) ->
  unlink E p fs = (Return tt, delete k fs).
Proof. intros Hl Hn. unfold unlink. by rewrite Hl, Hn. Qed.

Lemma node_at_delete (fs : gmap (list string) node) (k : list string) (n : node) :
  node_at fs k = Some n -> n <> Dir -> node_at (delete k fs) k = None.
Proof.
  unfold node_at. case_bool_decide; [congruence|]. intros _ _. apply lookup_delete_eq.
Qed.

Lemma only_removed_refl (fs : gmap (list string) node) : only_removed fs fs.
Proof. intros k. by left. Qed.

Lemma only_removed_trans (fs1 fs2 fs3 : gmap (list string) node) :
  only_removed fs1 fs2 -> only_removed fs2 fs3 -> only_removed fs1 fs3.
Proof.
  intros H12 H23 k. destruct (H23 k) as [-> | ->]; [apply H12 | by right].
Qed.

Lemma only_removed_delete (fs : gmap (list string) node) (k : list string) :
  only_removed fs (delete k fs).
Proof.
  intros k'. destruct (decide (k = k')) as [->|Hne].
  - right. apply lookup_delete_eq.
  - left. by apply lookup_delete_ne.
Qed.

(** The attempt to remove a link, as both branches of [repair_entry] make
    it: it never raises and removes at most the entry of the path. *)
Lemma removal_attempt (mname : string) (p : list string) (msg : string)
    (mgr : ModelManager) (fs : gmap (list string) node) :
  exists r mgr' fs',
    try_except
      (lift_fs (unlink E p) ;;
       update_model mname (set_is_symlink_linked_to false None) ;;
       ret msg)
      (fun e => ret ("Failed to remove: " +:+ exn_str e)) (mgr, fs)
    = (Return r, (mgr', fs'))
    /\ only_removed fs fs'
    /\ (forall k t, locate_entry E p fs = Found k -> node_at fs k = Some (Symlink t) ->
          fs' = delete k fs).
Proof.
  unfold try_except, bind, lift_fs, update_model, lift_local, modify, ret. cbn [fst snd].
  destruct (unlink E p fs) as [r fs1] eqn:Hu.
  destruct (unlink_effect _ _ _ _ Hu) as [(-> & e & ->) | (-> & k & Hl & ->)]; cbn [fst snd].
  - eexists _, _, _. split; [reflexivity|]. split; [apply only_removed_refl|].
    intros k t Hl Hn. rewrite (unlink_link _ _ _ _ Hl Hn) in Hu. discriminate.
  - eexists _, _, _. split; [reflexivity|]. split; [apply only_removed_delete|].
    intros k' t Hl' _. congruence.
Qed.

(** One round of the loop. *)
Lemma repair_entry_effect (mname : string) (model : ModelInfo)
    (results : list (string * string)) (mgr : ModelManager)
    (fs : gmap (list string) node) :
  exists res mgr' fs',
    repair_entry E (mname, model) results (mgr, fs) = (Return res, (mgr', fs'))
    /\ only_removed fs fs'
    /\ (is_symlink model = true ->
        health_is_broken (check_symlink_health E (path model) fs) = true
        \/ health_target_exists (check_symlink_health E (path model) fs) = false ->
        forall k t, locate_entry E (path model) fs = Found k ->
                    node_at fs k = Some (Symlink t) -> fs' = delete k fs)
    /\ (health_is_broken (check_symlink_health E (path model) fs) = false ->
        health_target_exists (check_symlink_health E (path model) fs) = true ->
        res = results /\ mgr' = mgr /\ fs' = fs).
Proof.
  unfold repair_entry.
  destruct (is_symlink model).
  2:{ eexists _, _, _. split; [reflexivity|]. split; [apply only_removed_refl|].
      split; [discriminate|done]. }
  unfold bind at 1. unfold lift_fs at 1. unfold get at 1. cbn [fst snd].
  destruct (health_is_broken (check_symlink_health E (path model) fs)) eqn:Hb.
  - destruct (removal_attempt mname (path model) "Removed broken symlink" mgr fs)
      as (r & mgr' & fs' & Hrun & Hrem & Hdel).
    unfold bind at 1. rewrite Hrun. unfold ret.
    eexists _, _, _. split; [reflexivity|]. split; [exact Hrem|].
    split; [intros _ _; exact Hdel | discriminate].
  - destruct (health_target_exists (check_symlink_health E (path model) fs)) eqn:Ht;
      cbn [negb].
    + eexists _, _, _. split; [reflexivity|]. split; [apply only_removed_refl|].
      split; [|done]. intros _ [?|?]; discriminate.
    + destruct (removal_attempt mname (path model) "Removed symlink to missing target"
                  mgr fs) as (r & mgr' & fs' & Hrun & Hrem & Hdel).
      unfold bind at 1. rewrite Hrun. unfold ret.
      eexists _, _, _. split; [reflexivity|]. split; [exact Hrem|].
      split; [intros _ _; exact Hdel | discriminate].
Qed.

(** In this filesystem the loop returns, and it only removes. *)
Lemma repair_loop_only_removes (items : list (string * ModelInfo)) :
  forall results mgr fs,
    exists res mgr' fs',
      repair_loop E items results (mgr, fs) = (Return res, (mgr', fs'))
      /\ only_removed fs fs'.
Proof.
  induction items as [|[mname model] rest IH]; intros results mgr fs.
  - eexists _, _, _. split; [reflexivity|apply only_removed_refl].
  - cbn [repair_loop]. unfold bind at 1.
    destruct (repair_entry_effect mname model results mgr fs)
      as (res1 & mgr1 & fs1 & -> & Hrem & _).
    destruct (IH res1 mgr1 fs1) as (res & mgr' & fs' & -> & Hrem').
    eexists _, _, _. split; [reflexivity|]. by eapply only_removed_trans.
Qed.

Lemma repair_loop_app (pre rest : list (string * ModelInfo)) :
  forall results s,
    repair_loop E (pre ++ rest) results s
    = match repair_loop E pre results s with
      | (Return res1, s1) => repair_loop E rest res1 s1
      | (Raise e, s1) => (Raise e, s1)
      end.
Proof.
  induction pre as [|item pre IH]; intros results s; [reflexivity|].
  cbn [app repair_loop]. unfold bind.
  destruct (repair_entry E item results s) as [[res1|e] s1]; [apply IH|reflexivity].
Qed.

End Repair.

(** The three kinds of link, repaired: a dangling link and a link that the
    health check calls broken are removed, a healthy link stays. *)
Example repair_dangling_link :
  let run := repair_broken_symlinks linux_env (linked_manager llama_on_usb, dangling_fs) in
  health_target_exists (check_symlink_health linux_env llama_path dangling_fs) = false
  /\ run.1 = Return [("acme/llama", "Removed symlink to missing target")]
  /\ run.2.2 !! llama_path = None
  /\ is_symlink <$> get_model_by_name run.2.1 "acme/llama" = Some false.
Proof. repeat split; vm_compute; reflexivity. Qed.

Example repair_broken_link :
  let run := repair_broken_symlinks linux_env (linked_manager ["data"], relative_link_fs) in
  health_is_broken (check_symlink_health linux_env llama_path relative_link_fs) = true
  /\ run.1 = Return [("acme/llama", "Removed broken symlink")]
  /\ run.2.2 !! llama_path = None.
Proof. repeat split; vm_compute; reflexivity. Qed.

Example repair_healthy_link :
  let run := repair_broken_symlinks linux_env (linked_manager llama_on_usb, relocated_fs) in
  check_symlink_health linux_env llama_path relocated_fs
    = mkSymlinkHealth true true true (Some llama_on_usb) false true
  /\ run.1 = Return []
  /\ run.2.2 !! llama_path = Some (Symlink llama_on_usb)
  /\ map_to_list run.2.2 = map_to_list relocated_fs.
Proof. repeat split; vm_compute; reflexivity. Qed.

(** ** The reported size over a round trip *)

Lemma same_sizes_refl (mgr : ModelManager) : same_sizes mgr mgr.
Proof. by intros n. Qed.

Lemma same_sizes_trans (m1 m2 m3 : ModelManager) :
  same_sizes m1 m2 -> same_sizes m2 m3 -> same_sizes m1 m3.
Proof. intros H12 H23 n. by rewrite H23, H12. Qed.

Lemma dict_get_update {V} (d : list (string * V)) (k n : string) (f : V -> V) :
  dict_get (dict_update d k f) n
  = if bool_decide (k = n) then f <$> dict_get d n else dict_get d n.
Proof.
  induction d as [|[k' v] d IH]; simpl.
  - by case_bool_decide.
  - destruct (decide (k' = k)) as [->|Hne].
    + rewrite bool_decide_true by done. simpl.
      destruct (decide (k = n)) as [->|Hne'].
      * by rewrite !bool_decide_true by done.
      * by rewrite !bool_decide_false by done.
    + rewrite (bool_decide_false (k' = k)) by done. simpl.
      destruct (decide (k' = n)) as [->|Hne'].
      * rewrite bool_decide_true by done. by rewrite bool_decide_false by done.
      * rewrite (bool_decide_false (k' = n)) by done. apply IH.
Qed.

Section KeepsSizes.
Context (E : Env).

Lemma keeps_ret {A} (a : A) : keeps_sizes (ret a).
Proof. intros mgr fs r mgr' fs' [= _ <- _]. apply same_sizes_refl. Qed.

Lemma keeps_raise {A} (e : exn) : keeps_sizes (@raise _ A e).
Proof. intros mgr fs r mgr' fs' [= _ <- _]. apply same_sizes_refl. Qed.

Lemma keeps_bind {A B : Type} (m : M (ModelManager * gmap (list string) node) A)
    (k : A -> M (ModelManager * gmap (list string) node) B) :
  keeps_sizes m -> (forall a, keeps_sizes (k a)) -> keeps_sizes (bind m k).
Proof.
  intros Hm Hk mgr fs r mgr' fs'. unfold bind.
  destruct (m (mgr, fs)) as [[a|e] [mgr1 fs1]] eqn:Hrun.
  - intros Hrun'. eapply same_sizes_trans; [by eapply Hm | by eapply Hk].
  - intros [= _ <- _]. by eapply Hm.
Qed.

Lemma keeps_try_except {A : Type} (body : M (ModelManager * gmap (list string) node) A)
    (handler : exn -> M (ModelManager * gmap (list string) node) A) :
  keeps_sizes body -> (forall e, keeps_sizes (handler e)) ->
  keeps_sizes (try_except body handler).
Proof.
  intros Hm Hk mgr fs r mgr' fs'. unfold try_except.
  destruct (body (mgr, fs)) as [[a|e] [mgr1 fs1]] eqn:Hrun.
  - intros [= _ <- _]. by eapply Hm.
  - intros Hrun'. eapply same_sizes_trans; [by eapply Hm | by eapply Hk].
Qed.

Lemma keeps_try_pass (body : M (ModelManager * gmap (list string) node) unit) :
  keeps_sizes body -> keeps_sizes (try_pass body).
Proof. intros H. apply keeps_try_except; [done|]. intros e. apply keeps_ret. Qed.

Lemma keeps_lift_fs {A : Type} (m : M (gmap (list string) node) A) :
  keeps_sizes (lift_fs m).
Proof.
  intros mgr fs r mgr' fs'. unfold lift_fs. cbn [fst snd].
  destruct (m fs). intros [= _ <- _]. apply same_sizes_refl.
Qed.

Lemma keeps_lift_outcome {A} (o : outcome A) : keeps_sizes (lift_outcome o).
Proof. intros mgr fs r mgr' fs' [= _ <- _]. apply same_sizes_refl. Qed.

Lemma keeps_get : keeps_sizes (lift_local get).
Proof. intros mgr fs r mgr' fs' [= _ <- _]. apply same_sizes_refl. Qed.

Lemma keeps_set_usb_verification (v : option USBVerificationResult) :
  keeps_sizes (lift_local (modify (set_usb_verification v))).
Proof. intros mgr fs r mgr' fs' [= _ <- _]. by intros n. Qed.

Lemma keeps_update_model (key : string) (f : ModelInfo -> ModelInfo) :
  (forall model, size_bytes (f model) = size_bytes model) ->
  keeps_sizes (update_model key f).
Proof.
  intros Hf mgr fs r mgr' fs' [= _ <- _]. intros n. cbn [_models set_models].
  rewrite dict_get_update. case_bool_decide; [|done].
  destruct (dict_get (_models mgr) n); simpl; [by rewrite Hf|done].
Qed.

Ltac keeps_with known :=
  repeat first
    [ known
    | apply keeps_ret | apply keeps_raise | apply keeps_lift_fs
    | apply keeps_lift_outcome | apply keeps_get | apply keeps_set_usb_verification
    | apply keeps_update_model; intros; reflexivity
    | apply keeps_try_pass
    | apply keeps_try_except; [|intros ?]
    | apply keeps_bind; [|intros ?]
    | progress cbv zeta
    | match goal with
      | |- keeps_sizes (if ?b then _ else _) => destruct b
      | |- keeps_sizes (match ?x with _ => _ end) => destruct x
      end ].
Ltac keeps := keeps_with fail.

Lemma keeps_refresh_usb_status : keeps_sizes (refresh_usb_status E).
Proof. unfold refresh_usb_status. keeps. Qed.

Lemma keeps_get_usb_space_info : keeps_sizes (get_usb_space_info E).
Proof. unfold get_usb_space_info. keeps. Qed.

Lemma keeps_move_with_directory_symlink (key : string) (model : ModelInfo)
    (usb_dest : list string) :
  keeps_sizes (_move_with_directory_symlink E key model usb_dest).
Proof. unfold _move_with_directory_symlink. keeps. Qed.

Lemma keeps_move_with_file_symlinks (key : string) (model : ModelInfo)
    (usb_dest : list string) :
  keeps_sizes (_move_with_file_symlinks E key model usb_dest).
Proof.
  unfold _move_with_file_symlinks.
  keeps_with ltac:(apply keeps_move_with_directory_symlink).
Qed.

Lemma keeps_move_model_to_usb (mname : string) :
  keeps_sizes (move_model_to_usb E mname).
Proof.
  unfold move_model_to_usb.
  keeps_with ltac:(first [ apply keeps_refresh_usb_status
                         | apply keeps_get_usb_space_info
                         | apply keeps_move_with_file_symlinks
                         | apply keeps_move_with_directory_symlink ]).
Qed.

Lemma keeps_move_model_from_usb (mname : string) :
  keeps_sizes (move_model_from_usb E mname).
Proof.
  unfold move_model_from_usb. keeps_with ltac:(apply keeps_refresh_usb_status).
Qed.

End KeepsSizes.

(** The record of an entry is not measured again: an entry that is
    relocated and then restored is still tracked, with the size that its
    record held before the relocation, whatever lies on the disk. *)
Lemma round_trip_keeps_record_size (E : Env) (mname : string)
    (mgr : ModelManager) (fs : gmap (list string) node) (model : ModelInfo)
    (b1 b2 : bool) (mgr1 mgr2 : ModelManager) (fs1 fs2 : gmap (list string) node) :
  get_model_by_name mgr mname = Some model ->
  move_model_to_usb E mname (mgr, fs) = (Return b1, (mgr1, fs1)) ->
  move_model_from_usb E mname (mgr1, fs1) = (Return b2, (mgr2, fs2)) ->
  exists model',
    get_model_by_name mgr2 mname = Some model' /\ size_bytes model' = size_bytes model.
Proof.
  intros Hget Hto Hfrom.
  pose proof (keeps_move_model_to_usb E mname _ _ _ _ _ Hto mname) as H1.
  pose proof (keeps_move_model_from_usb E mname _ _ _ _ _ Hfrom mname) as H2.
  unfold get_model_by_name in *. rewrite H1, Hget in H2. simpl in H2.
  destruct (dict_get (_models mgr2) mname) as [model'|]; [|discriminate].
  exists model'. split; [done|]. by injection H2.
Qed.

Lemma run_surjective {A : Type} (x : outcome A * (ModelManager * gmap (list string) node))
    (r : outcome A) :
  x.1 = r -> x = (r, (x.2.1, x.2.2)).
Proof. destruct x as [r' [g m]]. simpl. by intros ->. Qed.

(** The same round trip measured on the filesystem: the entry is the
    directory it was, with the size it had; so under the per-file
    strategy, where only the publisher directory stays behind on the root. *)
Example round_trip_measured :
  let run1 := move_model_to_usb linux_env "acme/llama" (manager_with "auto" 100, local_fs) in
  let run2 := move_model_from_usb linux_env "acme/llama" run1.2 in
  _calculate_size linux_env llama_path local_fs = 6
  /\ path_is_symlink linux_env llama_path run1.2.2 = true
  /\ _calculate_size linux_env llama_path run1.2.2 = 6
  /\ path_is_symlink linux_env llama_path run2.2.2 = false
  /\ _calculate_size linux_env llama_path run2.2.2 = 6.
Proof. repeat split; vm_compute; reflexivity. Qed.

Example round_trip_measured_per_file :
  let run1 := move_model_to_usb linux_env "acme/llama" (manager_with "file" 0, local_fs) in
  let run2 := move_model_from_usb linux_env "acme/llama" run1.2 in
  run1.1 = Return true /\ run2.1 = Return true
  /\ has_internal_symlinks <$> get_model_by_name run1.2.1 "acme/llama" = Some true
  /\ path_is_symlink linux_env (llama_path ++ ["weights.gguf"]) run1.2.2 = true
  /\ path_is_symlink linux_env (llama_path ++ ["config.json"]) run1.2.2 = false
  /\ _calculate_size linux_env llama_path run1.2.2 = 6
  /\ map_to_list run2.2.2
     = map_to_list (<[ ["/"; "media"; "usb"; "acme"] := Dir ]> local_fs).
Proof. repeat split; vm_compute; reflexivity. Qed.

(** ** Integrity verification *)

Lemma takeZ_take {A : Type} (l : list A) (n : Z) : takeZ l n = take (Z.to_nat n) l.
Proof.
  revert n. induction l as [|x l IH]; intros n; simpl.
  - by rewrite take_nil.
  - destruct (Z.leb_spec n 0).
    + by replace (Z.to_nat n) with 0%nat by lia.
    + replace (Z.to_nat n) with (S (Z.to_nat (n - 1))) by lia. simpl. by rewrite IH.
Qed.

Lemma dropZ_drop {A : Type} (l : list A) (n : Z) : dropZ l n = drop (Z.to_nat n) l.
Proof.
  revert n. induction l as [|x l IH]; intros n; simpl.
  - by rewrite drop_nil.
  - destruct (Z.leb_spec n 0).
    + by replace (Z.to_nat n) with 0%nat by lia.
    + replace (Z.to_nat n) with (S (Z.to_nat (n - 1))) by lia. simpl. by rewrite IH.
Qed.

(** Reading by chunks feeds the hasher the whole rest of the file. *)
Lemma read_chunks_all (chunk_size : Z) (data : list byte) :
  0 < chunk_size ->
  forall fuel pos hasher,
    0 <= pos ->
    (length data - Z.to_nat pos < fuel)%nat ->
    read_chunks fuel chunk_size (mkFileHandle data pos) hasher
    = hasher ++ drop (Z.to_nat pos) data.
Proof.
  intros Hc fuel. induction fuel as [|fuel IH]; intros pos hasher Hpos Hfuel; [lia|].
  cbn [read_chunks]. unfold fh_read. cbn [fh_data fh_pos].
  destruct (Z.ltb_spec chunk_size 0); [lia|].
  rewrite takeZ_take, dropZ_drop.
  destruct (take (Z.to_nat chunk_size) (drop (Z.to_nat pos) data)) as [|c chunk] eqn:Hchunk.
  - destruct (drop (Z.to_nat pos) data) as [|y rest] eqn:Hd; [by rewrite app_nil_r|].
    replace (Z.to_nat chunk_size) with (S (Z.to_nat (chunk_size - 1))) in Hchunk by lia.
    discriminate.
  - assert (Hlen : (length (c :: chunk) <= length data - Z.to_nat pos)%nat).
    { rewrite <- Hchunk, length_take, length_drop. lia. }
    rewrite IH.
    + rewrite <- app_assoc. f_equal. rewrite <- Hchunk.
      set (rest := drop (Z.to_nat pos) data).
      replace (Z.to_nat (pos + Z.of_nat (length (take (Z.to_nat chunk_size) rest))))
        with (Z.to_nat pos + length (take (Z.to_nat chunk_size) rest))%nat by lia.
      rewrite <- drop_drop. fold rest.
      rewrite length_take.
      destruct (Nat.le_ge_cases (Z.to_nat chunk_size) (length rest)).
      * rewrite Nat.min_l by done. by rewrite take_drop.
      * rewrite Nat.min_r by done.
        rewrite take_ge by done. rewrite drop_all. by rewrite app_nil_r.
    + lia.
    + simpl in Hlen |- *. lia.
Qed.

Section Integrity.
Context (E : Env).

Lemma open_rb_file (p : list string) (fs : gmap (list string) node) (data : list byte) :
  stat E p fs = Some (File data) -> env_fault E SysOpenRead p = None ->
  open_rb E p fs = (Return (mkFileHandle data 0), fs).
Proof.
  intros Hs Hf. unfold open_rb, bind, read_file, ret. by rewrite Hf, Hs.
Qed.

(** The checksum is the digest of the whole content. *)
Lemma calculate_checksum_whole (p : list string) (fs : gmap (list string) node)
    (data : list byte) (chunk_size : Z) :
  stat E p fs = Some (File data) -> env_fault E SysOpenRead p = None ->
  0 < chunk_size ->
  _calculate_checksum E p chunk_size fs = (Return (env_md5 E data), fs).
Proof.
  intros Hs Hf Hc. unfold _calculate_checksum, try_except, bind.
  rewrite (open_rb_file p fs data Hs Hf). unfold ret. cbn [fh_data].
  rewrite read_chunks_all by (simpl; lia). by rewrite drop_0.
Qed.

(** The sampling check on two files of one length, at least 1 MiB. *)
Lemma verify_large_file_samples (source destination : list string)
    (fs : gmap (list string) node) (a b : list byte) :
  stat E source fs = Some (File a) -> stat E destination fs = Some (File b) ->
  env_fault E SysOpenRead source = None -> env_fault E SysOpenRead destination = None ->
  length a = length b ->
  MiB <= Z.of_nat (length a) ->
  _verify_large_file E source destination fs = (Return (three_samples_equal a b), fs).
Proof.
  intros Ha Hb Hfa Hfb Hlen Hbig.
  unfold _verify_large_file, try_except, bind.
  rewrite (open_rb_file _ _ _ Ha Hfa), (open_rb_file _ _ _ Hb Hfb).
  assert (HM : 0 < MiB) by (unfold MiB; lia).
  assert (HM0 : (MiB <? 0) = false) by (apply Z.ltb_ge; lia).
  assert (Hmid : (Z.of_nat (length a) / 2 <? 0) = false).
  { apply Z.ltb_ge. apply Z.div_pos; lia. }
  assert (Hend : (Z.of_nat (length a) + - MiB <? 0) = false) by (apply Z.ltb_ge; lia).
  unfold three_samples_equal, sample_first, sample_middle, sample_last.
  unfold fh_read, fh_read_all, fh_seek, fh_seek_end, lift_outcome, get, ret, st_size.
  cbn [fh_data fh_pos]. rewrite !HM0. cbv beta iota zeta. rewrite <- ?Hlen.
  rewrite !takeZ_take, !dropZ_drop.
  replace (Z.to_nat 0) with 0%nat by lia. rewrite !drop_0.
  destruct (bool_decide (take (Z.to_nat MiB) a = take (Z.to_nat MiB) b)); [|done].
  cbn [negb andb]. rewrite Ha, Hmid. cbn [fh_data fh_pos].
  rewrite !takeZ_take, !dropZ_drop.
  replace (Z.to_nat (Z.of_nat (length a) / 2)) with (length a / 2)%nat
    by (rewrite <- (Nat2Z.id (length a / 2)); f_equal; apply Nat2Z.inj_div).
  destruct (bool_decide (take (Z.to_nat MiB) (drop (length a / 2) a)
                         = take (Z.to_nat MiB) (drop (length a / 2) b))); [|done].
  cbn [negb andb]. rewrite <- ?Hlen, Hend. cbn [fh_data fh_pos].
  rewrite !dropZ_drop.
  replace (Z.to_nat (Z.of_nat (length a) + - MiB)) with (length a - Z.to_nat MiB)%nat by lia.
  by destruct (bool_decide (drop (length a - Z.to_nat MiB) a
                            = drop (length a - Z.to_nat MiB) b)).
Qed.

(** What the verification computes on two regular files that can be read. *)
Lemma verify_file_integrity_eq (source destination : list string)
    (fs : gmap (list string) node) (a b : list byte) :
  stat E source fs = Some (File a) -> stat E destination fs = Some (File b) ->
  env_fault E SysOpenRead source = None -> env_fault E SysOpenRead destination = None ->
  verify_file_integrity E source destination fs
  = (Return (if bool_decide (length a = length b) then
               if Z.of_nat (length a) >? GiB then three_samples_equal a b
               else bool_decide (env_md5 E a = env_md5 E b)
             else false), fs).
Proof.
  intros Ha Hb Hfa Hfb.
  unfold verify_file_integrity, bind, get, lift_outcome, ret, path_exists, st_size.
  rewrite Ha, Hb. cbn [negb orb].
  destruct (decide (length a = length b)) as [Hlen|Hlen].
  - rewrite (bool_decide_true (Z.of_nat (length a) = Z.of_nat (length b))) by lia.
    rewrite (bool_decide_true (length a = length b)) by done. cbn [negb].
    change (1024 * 1024 * 1024) with GiB.
    destruct (Z.gtb_spec (Z.of_nat (length a)) GiB).
    + apply verify_large_file_samples; try done. unfold GiB, MiB in *. lia.
    + rewrite (calculate_checksum_whole _ _ _ _ Ha Hfa) by lia.
      by rewrite (calculate_checksum_whole _ _ _ _ Hb Hfb) by lia.
  - rewrite (bool_decide_false (Z.of_nat (length a) = Z.of_nat (length b))) by lia.
    by rewrite (bool_decide_false (length a = length b)) by done.
Qed.

End Integrity.

(** *** Where the digest and the samples part ways *)

Lemma stat_two_files (a b : list byte) :
  stat linux_env ["/"; "a"] (two_files a b) = Some (File a)
  /\ stat linux_env ["/"; "b"] (two_files a b) = Some (File b).
Proof. split; vm_compute; reflexivity. Qed.

Lemma length_zeros (n : Z) : length (zeros n) = Z.to_nat n.
Proof. apply length_replicate. Qed.

(** Two contents that differ in one byte which no sample covers. *)
Lemma samples_miss_one_byte (before after : list byte) (x y : byte) :
  (Z.to_nat MiB <= length before)%nat ->
  (length before < (length before + S (length after)) / 2)%nat ->
  (length before < length before + S (length after) - Z.to_nat MiB)%nat ->
  three_samples_equal (before ++ x :: after) (before ++ y :: after) = true.
Proof.
  intros Hfirst Hmiddle Hlast.
  unfold three_samples_equal, sample_first, sample_middle, sample_last.
  rewrite !length_app. cbn [length].
  rewrite !take_app_le by done.
  rewrite !drop_app_ge by lia.
  destruct ((length before + S (length after)) / 2 - length before)%nat
    as [|i] eqn:Hi; [lia|].
  destruct (length before + S (length after) - Z.to_nat MiB - length before)%nat
    as [|j] eqn:Hj; [lia|].
  cbn [drop]. by rewrite !bool_decide_true.
Qed.

Lemma digest_sees_one_byte (before after : list byte) (x y : byte) :
  x <> y ->
  Z.of_nat (length before + S (length after)) <= GiB ->
  verify_file_integrity linux_env ["/"; "a"] ["/"; "b"]
    (two_files (before ++ x :: after) (before ++ y :: after))
  = (Return false, two_files (before ++ x :: after) (before ++ y :: after)).
Proof.
  intros Hxy Hsize.
  destruct (stat_two_files (before ++ x :: after) (before ++ y :: after)) as [Ha Hb].
  rewrite (verify_file_integrity_eq linux_env _ _ _ _ _ Ha Hb) by done.
  rewrite bool_decide_true by (rewrite !length_app; done).
  rewrite length_app. cbn [length].
  destruct (Z.gtb_spec (Z.of_nat (length before + S (length after))) GiB); [lia|].
  rewrite bool_decide_false; [done|].
  cbn [env_md5 linux_env]. intros Heq.
  apply (f_equal list_byte_of_string) in Heq.
  rewrite !list_byte_of_string_of_list_byte in Heq.
  apply app_inv_head in Heq. congruence.
Qed.

(** Claim C2, as the code has it.  On two readable regular files the
    verification returns false when the sizes differ; when the sizes are
    equal and the size is at most 1 GiB (1 GiB itself included) it compares
    the digests of the whole contents; only when the size is strictly above
    1 GiB does it compare the three 1 MiB samples (first, middle, last). *)
Theorem verify_file_integrity_size_digest_samples (E : Env)
    (source destination : list string) (fs : gmap (list string) node)
    (a b : list byte) :
  stat E source fs = Some (File a) -> stat E destination fs = Some (File b) ->
  env_fault E SysOpenRead source = None -> env_fault E SysOpenRead destination = None ->
  exists result,
    verify_file_integrity E source destination fs = (Return result, fs)
    /\ (length a <> length b -> result = false)
    /\ (length a = length b -> Z.of_nat (length a) <= GiB ->
        result = bool_decide (env_md5 E a = env_md5 E b))
    /\ (length a = length b -> GiB < Z.of_nat (length a) ->
        result = three_samples_equal a b).
Proof.
  intros Ha Hb Hfa Hfb. eexists. split.
  - apply (verify_file_integrity_eq E _ _ _ _ _ Ha Hb Hfa Hfb).
  - split; [|split].
    + intros Hne. by rewrite bool_decide_false.
    + intros Heq Hsmall. rewrite bool_decide_true by done.
      destruct (Z.gtb_spec (Z.of_nat (length a)) GiB); [lia|done].
    + intros Heq Hlarge. rewrite bool_decide_true by done.
      destruct (Z.gtb_spec (Z.of_nat (length a)) GiB); [done|lia].
Qed.

Lemma verify_file_integrity_size_digest_samples_witness :
  exists result,
    verify_file_integrity linux_env ["/"; "a"] ["/"; "b"]
      (two_files ["001"; "002"]%byte ["001"; "003"]%byte)
    = (Return result, two_files ["001"; "002"]%byte ["001"; "003"]%byte)
    /\ (length ["001"; "002"]%byte <> length ["001"; "003"]%byte -> result = false)
    /\ (length ["001"; "002"]%byte = length ["001"; "003"]%byte ->
        Z.of_nat (length ["001"; "002"]%byte) <= GiB ->
        result = bool_decide (env_md5 linux_env ["001"; "002"]%byte
                              = env_md5 linux_env ["001"; "003"]%byte))
    /\ (length ["001"; "002"]%byte = length ["001"; "003"]%byte ->
        GiB < Z.of_nat (length ["001"; "002"]%byte) ->
        result = three_samples_equal ["001"; "002"]%byte ["001"; "003"]%byte).
Proof.
  apply (verify_file_integrity_size_digest_samples linux_env ["/"; "a"] ["/"; "b"]
           (two_files ["001"; "002"]%byte ["001"; "003"]%byte)).
  - vm_compute; reflexivity.
  - vm_compute; reflexivity.
  - reflexivity.
  - reflexivity.
Defined.

(** Claim C2, the counterexample.  Two files of exactly 1 GiB that differ in
    the one byte at offset 2 MiB: the three samples are equal, yet the
    verification returns false, because at 1 GiB the code still compares
    the digests of the whole contents. *)
Lemma verify_file_integrity_at_one_GiB_compares_digests :
  Z.of_nat (length (one_GiB_file "000"%byte)) = GiB
  /\ length (one_GiB_file "000"%byte) = length (one_GiB_file "001"%byte)
  /\ three_samples_equal (one_GiB_file "000"%byte) (one_GiB_file "001"%byte) = true
  /\ verify_file_integrity linux_env ["/"; "a"] ["/"; "b"]
       (two_files (one_GiB_file "000"%byte) (one_GiB_file "001"%byte))
     = (Return false, two_files (one_GiB_file "000"%byte) (one_GiB_file "001"%byte)).
Proof.
  unfold one_GiB_file.
  assert (Hbefore : length (zeros (2 * MiB)) = Z.to_nat (2 * MiB)) by apply length_zeros.
  assert (Hafter : length (zeros (GiB - 2 * MiB - 1)) = Z.to_nat (GiB - 2 * MiB - 1))
    by apply length_zeros.
  generalize dependent (zeros (2 * MiB)). generalize dependent (zeros (GiB - 2 * MiB - 1)).
  intros after Hafter before Hbefore.
  assert (Hlen : Z.of_nat (length before + S (length after)) = GiB).
  { rewrite Hbefore, Hafter. unfold GiB, MiB. lia. }
  split; [|split; [|split]].
  - rewrite length_app. exact Hlen.
  - rewrite !length_app. reflexivity.
  - apply samples_miss_one_byte.
    + rewrite Hbefore. unfold MiB. lia.
    + rewrite Hbefore, Hafter. apply Nat.div_le_lower_bound; [lia|].
      unfold GiB, MiB. lia.
    + rewrite Hbefore, Hafter. unfold GiB, MiB. lia.
  - apply digest_sees_one_byte; [discriminate|]. rewrite Hlen. lia.
Qed.

(** * Further properties of the engine *)

(** ** What a resolved path can be *)

Lemma dir_chain_root (fs : gmap (list string) node) : dir_chain fs ["/"].
Proof.
  split; [reflexivity|]. intros k [rest Hk] Hne.
  destruct k as [|c k]; [done|]. injection Hk as <- Hk.
  destruct k; [reflexivity|discriminate].
Qed.

Lemma dir_chain_parent (fs : gmap (list string) node) (cur : list string) :
  dir_chain fs cur -> dir_chain fs (path_parent cur).
Proof.
  intros [Habs Hdirs]. unfold path_parent. case_bool_decide; [by split|].
  destruct cur as [|root rest]; [discriminate|].
  destruct rest as [|c rest].
  { simpl in Habs. apply bool_decide_eq_true in Habs. by subst. }
  split; [exact Habs|].
  intros k Hk Hne. apply Hdirs; [|done].
  etrans; [exact Hk|]. exists [List.last (root :: c :: rest) ""].
  apply app_removelast_last. discriminate.
Qed.

Lemma prefix_of_snoc {A : Type} (k cur : list A) (c : A) :
  k `prefix_of` cur ++ [c] -> k = cur ++ [c] \/ k `prefix_of` cur.
Proof.
  intros [rest Hk]. destruct rest as [|x rest _] using rev_ind.
  - left. by rewrite app_nil_r in Hk.
  - right. rewrite app_assoc in Hk. apply app_inj_tail in Hk as [Hk _]. by exists rest.
Qed.

Lemma dir_chain_snoc (fs : gmap (list string) node) (cur : list string) (c : string) :
  dir_chain fs cur -> node_at fs (cur ++ [c]) = Some Dir -> dir_chain fs (cur ++ [c]).
Proof.
  intros [Habs Hdirs] Hn. split.
  - destruct cur; [discriminate|exact Habs].
  - intros k Hk Hne. apply prefix_of_snoc in Hk as [->|Hk]; [done|]. by apply Hdirs.
Qed.

Lemma dir_chain_node (fs : gmap (list string) node) (cur : list string) :
  dir_chain fs cur -> node_at fs cur = Some Dir.
Proof. intros [Habs Hdirs]. apply Hdirs; [done|]. by destruct cur. Qed.

(** Resolution ends on a directory or on a regular file, never on a link. *)
Lemma walk_found_kind (fs : gmap (list string) node) :
  forall hops cur todo d,
    dir_chain fs cur ->
    walk hops fs cur todo = Found d ->
    node_at fs d = Some Dir \/ exists data, node_at fs d = Some (File data).
Proof.
  intros hops. induction hops as [|h IHh]; intros cur todo; revert cur.
  - induction todo as [|c rest IH]; intros cur d Hchain.
    + rewrite walk_nil. intros [= <-]. left. by apply dir_chain_node.
    + rewrite walk_cons. case_bool_decide.
      { apply IH. by apply dir_chain_parent. }
      destruct (node_at fs (cur ++ [c])) as [[data| |t]|] eqn:Hn.
      * destruct rest; [|intros Hw; discriminate Hw]. intros [= <-]. eauto.
      * apply IH. by apply dir_chain_snoc.
      * intros Hw; discriminate Hw.
      * destruct rest; intros Hw; discriminate Hw.
  - induction todo as [|c rest IH]; intros cur d Hchain.
    + rewrite walk_nil. intros [= <-]. left. by apply dir_chain_node.
    + rewrite walk_cons. case_bool_decide.
      { apply IH. by apply dir_chain_parent. }
      destruct (node_at fs (cur ++ [c])) as [[data| |t]|] eqn:Hn.
      * destruct rest; [|intros Hw; discriminate Hw]. intros [= <-]. eauto.
      * apply IH. by apply dir_chain_snoc.
      * destruct (is_absolute t); apply IHh; [apply dir_chain_root|done].
      * destruct rest; intros Hw; discriminate Hw.
Qed.

Lemma stat_kind (E : Env) (p : list string) (fs : gmap (list string) node) (n : node) :
  is_absolute p = true ->
  stat E p fs = Some n -> n = Dir \/ exists data, n = File data.
Proof.
  intros Habs. unfold stat, locate_follow. rewrite Habs.
  destruct (walk SYMLOOP_MAX fs ["/"] (List.tl p)) as [d| |] eqn:Hw; try discriminate.
  simpl. intros Hn.
  destruct (walk_found_kind fs _ _ _ _ (dir_chain_root fs) Hw) as [Hd|[data Hd]];
    rewrite Hd in Hn; injection Hn as <-; eauto.
Qed.

Lemma st_size_of_existing (E : Env) (p : list string) (fs : gmap (list string) node) :
  is_absolute p = true -> path_exists E p fs = true ->
  exists size, st_size E p fs = Return size.
Proof.
  intros Habs. unfold path_exists, st_size.
  destruct (stat E p fs) as [n|] eqn:Hs; [|discriminate]. intros _.
  destruct (stat_kind E p fs n Habs Hs) as [->|[data ->]]; eauto.
Qed.

(** ** Integrity verification: error and edge behaviour *)

Section ReadsOnly.
Context {S : Type}.

Lemma reads_only_ret {A : Type} (a : A) : reads_only (ret a : M S A).
Proof. by intros s. Qed.

Lemma reads_only_raise {A : Type} (e : exn) : reads_only (raise e : M S A).
Proof. by intros s. Qed.

Lemma reads_only_get : reads_only (get : M S S).
Proof. by intros s. Qed.

Lemma reads_only_lift_outcome {A : Type} (o : outcome A) :
  reads_only (lift_outcome o : M S A).
Proof. by intros s. Qed.

Lemma reads_only_bind {A B : Type} (m : M S A) (k : A -> M S B) :
  reads_only m -> (forall a, reads_only (k a)) -> reads_only (bind m k).
Proof.
  intros Hm Hk s. unfold bind. specialize (Hm s).
  destruct (m s) as [[a|e] s']; simpl in Hm; subst s'; [apply Hk|done].
Qed.

Lemma reads_only_try_except {A : Type} (body : M S A) (handler : exn -> M S A) :
  reads_only body -> (forall e, reads_only (handler e)) -> reads_only (try_except body handler).
Proof.
  intros Hm Hk s. unfold try_except. specialize (Hm s).
  destruct (body s) as [[a|e] s']; simpl in Hm; subst s'; [done|apply Hk].
Qed.

(** A [try] whose handler returns a value returns a value. *)
Lemma try_except_returns {A : Type} (body : M S A) (v : exn -> A) (s : S) :
  exists a, (try_except body (fun e => ret (v e)) s).1 = Return a.
Proof. unfold try_except. destruct (body s) as [[a|e] s']; simpl; eauto. Qed.

End ReadsOnly.

Ltac reads_only_step :=
  first
    [ apply reads_only_ret | apply reads_only_raise | apply reads_only_get
    | apply reads_only_lift_outcome
    | apply reads_only_bind; [|intros ?]
    | apply reads_only_try_except; [|intros ?]
    | match goal with
      | |- reads_only (let '(_, _) := ?x in _) => destruct x
      | |- reads_only (if ?b then _ else _) => destruct b
      end ].

Section IntegrityEdges.
Context (E : Env).

Lemma reads_only_read_file (p : list string) : reads_only (read_file E p).
Proof.
  intros fs. unfold read_file. destruct (env_fault E SysOpenRead p); [done|].
  by destruct (stat E p fs) as [[| |]|].
Qed.

Lemma reads_only_open_rb (p : list string) : reads_only (open_rb E p).
Proof. unfold open_rb. apply reads_only_bind; [apply reads_only_read_file|intros; apply reads_only_ret]. Qed.

Lemma calculate_checksum_returns (p : list string) (chunk_size : Z)
    (fs : gmap (list string) node) :
  exists digest, _calculate_checksum E p chunk_size fs = (Return digest, fs).
Proof.
  assert (Hro : reads_only (_calculate_checksum E p chunk_size)).
  { unfold _calculate_checksum.
    apply reads_only_try_except; [|intros; apply reads_only_ret].
    apply reads_only_bind; [apply reads_only_open_rb|intros; apply reads_only_ret]. }
  destruct (try_except_returns
              (f <- open_rb E p ;;
               ret (env_md5 E (read_chunks (Datatypes.S (length (fh_data f))) chunk_size f [])))
              (fun _ => "") fs) as [digest Hd].
  specialize (Hro fs). fold (_calculate_checksum E p chunk_size) in Hd.
  destruct (_calculate_checksum E p chunk_size fs) as [r fs']. simpl in *. subst. eauto.
Qed.

Lemma verify_large_file_returns (source destination : list string)
    (fs : gmap (list string) node) :
  exists b, _verify_large_file E source destination fs = (Return b, fs).
Proof.
  assert (Hro : reads_only (_verify_large_file E source destination)).
  { unfold _verify_large_file.
    apply reads_only_try_except; [|intros; apply reads_only_ret].
    apply reads_only_bind; [apply reads_only_open_rb|intros sf].
    apply reads_only_bind; [apply reads_only_open_rb|intros df].
    repeat reads_only_step. }
  assert (Hret : exists b, (_verify_large_file E source destination fs).1 = Return b).
  { unfold _verify_large_file. apply (try_except_returns _ (fun _ => false)). }
  destruct Hret as [b Hb]. specialize (Hro fs).
  destruct (_verify_large_file E source destination fs) as [r fs']. simpl in *. subst. eauto.
Qed.

End IntegrityEdges.

(** X1.  The integrity verification only reads: whatever it answers, and
    whatever the device does when the files are read, the filesystem is the
    one it found; and it answers [False] as soon as one of the two paths
    does not exist. *)
Theorem verify_file_integrity_reads_only (E : Env) (source destination : list string)
    (fs : gmap (list string) node) :
  (verify_file_integrity E source destination fs).2 = fs
  /\ (path_exists E source fs = false \/ path_exists E destination fs = false ->
      (verify_file_integrity E source destination fs).1 = Return false).
Proof.
  unfold verify_file_integrity, bind, get, lift_outcome, ret.
  destruct (path_exists E source fs) eqn:Hes; cbn [negb orb]; [|by split].
  destruct (path_exists E destination fs) eqn:Hed; cbn [negb orb]; [|by split].
  split; [|intros [?|?]; discriminate].
  destruct (st_size E source fs) as [n|e]; [|done].
  destruct (st_size E destination fs) as [m|e]; [|done].
  destruct (negb (bool_decide (n = m))); [done|].
  destruct (n >? 1024 * 1024 * 1024).
  - by destruct (verify_large_file_returns E source destination fs) as [b ->].
  - destruct (calculate_checksum_returns E source 8192 fs) as [a ->].
    by destruct (calculate_checksum_returns E destination 8192 fs) as [b ->].
Qed.

(** X2.  A faithful copy is never rejected: two readable regular files with
    the same content verify, whatever their size and whatever the digest. *)
Theorem verify_file_integrity_accepts_equal_content (E : Env)
    (source destination : list string) (fs : gmap (list string) node) (data : list byte) :
  stat E source fs = Some (File data) -> stat E destination fs = Some (File data) ->
  env_fault E SysOpenRead source = None -> env_fault E SysOpenRead destination = None ->
  verify_file_integrity E source destination fs = (Return true, fs).
Proof.
  intros Ha Hb Hfa Hfb.
  rewrite (verify_file_integrity_eq E _ _ _ _ _ Ha Hb Hfa Hfb).
  rewrite !bool_decide_true by done. unfold three_samples_equal.
  rewrite !bool_decide_true by done. by destruct (_ >? _).
Qed.

Lemma verify_file_integrity_accepts_equal_content_witness :
  verify_file_integrity linux_env ["/"; "a"] ["/"; "b"]
    (two_files ["001"; "002"]%byte ["001"; "002"]%byte)
  = (Return true, two_files ["001"; "002"]%byte ["001"; "002"]%byte).
Proof.
  apply (verify_file_integrity_accepts_equal_content linux_env ["/"; "a"] ["/"; "b"]
           (two_files ["001"; "002"]%byte ["001"; "002"]%byte) ["001"; "002"]%byte).
  - vm_compute; reflexivity.
  - vm_compute; reflexivity.
  - reflexivity.
  - reflexivity.
Defined.

(** X3.  The checksum does not depend on the chunk size: for every positive
    chunk size it is the digest of the whole content of a readable regular
    file, and the empty string when the file cannot be read; it never
    raises and leaves the filesystem alone. *)
Theorem calculate_checksum_any_chunk_size (E : Env) (p : list string) (chunk_size : Z)
    (fs : gmap (list string) node) :
  0 < chunk_size ->
  _calculate_checksum E p chunk_size fs
  = (Return match read_file E p fs with
            | (Return data, _) => env_md5 E data
            | (Raise _, _) => ""
            end, fs).
Proof.
  intros Hc. unfold _calculate_checksum, try_except, open_rb, bind, read_file, ret.
  destruct (env_fault E SysOpenRead p); [reflexivity|].
  destruct (stat E p fs) as [[data| |t]|]; try reflexivity.
  cbn [fh_data]. rewrite read_chunks_all by (simpl; lia). by rewrite drop_0.
Qed.

Lemma calculate_checksum_any_chunk_size_witness :
  _calculate_checksum linux_env ["/"; "a"] 1 (two_files ["001"; "002"; "003"]%byte [])
  = (Return match read_file linux_env ["/"; "a"] (two_files ["001"; "002"; "003"]%byte []) with
            | (Return data, _) => env_md5 linux_env data
            | (Raise _, _) => ""
            end, two_files ["001"; "002"; "003"]%byte []).
Proof.
  apply (calculate_checksum_any_chunk_size linux_env ["/"; "a"] 1
           (two_files ["001"; "002"; "003"]%byte [])). lia.
Defined.

(** X4.  When neither side can be opened for reading, both checksums are the
    empty string, and two files of one size (at most 1 GiB) verify although
    nothing of their contents was compared. *)
Theorem verify_file_integrity_passes_unreadable_files (E : Env)
    (source destination : list string) (fs : gmap (list string) node)
    (a b : list byte) (e1 e2 : exn) :
  stat E source fs = Some (File a) -> stat E destination fs = Some (File b) ->
  env_fault E SysOpenRead source = Some e1 ->
  env_fault E SysOpenRead destination = Some e2 ->
  length a = length b -> Z.of_nat (length a) <= GiB ->
  verify_file_integrity E source destination fs = (Return true, fs).
Proof.
  intros Ha Hb Hfa Hfb Hlen Hsmall.
  unfold verify_file_integrity, bind, get, lift_outcome, ret, path_exists, st_size.
  rewrite Ha, Hb. cbn [negb orb].
  rewrite bool_decide_true by lia. cbn [negb].
  change (1024 * 1024 * 1024) with GiB.
  destruct (Z.gtb_spec (Z.of_nat (length a)) GiB); [lia|].
  unfold _calculate_checksum, try_except, open_rb, bind, read_file, ret.
  by rewrite Hfa, Hfb.
Qed.

Lemma verify_file_integrity_passes_unreadable_files_witness :
  verify_file_integrity unreadable_env ["/"; "a"] ["/"; "b"]
    (two_files ["001"; "002"]%byte ["003"; "004"]%byte)
  = (Return true, two_files ["001"; "002"]%byte ["003"; "004"]%byte).
Proof.
  apply (verify_file_integrity_passes_unreadable_files unreadable_env ["/"; "a"] ["/"; "b"]
           (two_files ["001"; "002"]%byte ["003"; "004"]%byte)
           ["001"; "002"]%byte ["003"; "004"]%byte
           (os_error PermissionError ["/"; "a"]) (os_error PermissionError ["/"; "b"])).
  - vm_compute; reflexivity.
  - vm_compute; reflexivity.
  - reflexivity.
  - reflexivity.
  - reflexivity.
  - vm_compute; discriminate.
Defined.

(** X5.  Above 1 GiB only the three samples are read: two readable files of
    one size that differ in a byte which lies behind the first sample and
    before the middle and the last one verify. *)
Theorem verify_file_integrity_misses_unsampled_byte (E : Env)
    (source destination : list string) (fs : gmap (list string) node)
    (before after : list byte) (x y : byte) :
  stat E source fs = Some (File (before ++ x :: after)) ->
  stat E destination fs = Some (File (before ++ y :: after)) ->
  env_fault E SysOpenRead source = None -> env_fault E SysOpenRead destination = None ->
  GiB < Z.of_nat (length before + S (length after)) ->
  (Z.to_nat MiB <= length before)%nat ->
  (length before < (length before + S (length after)) / 2)%nat ->
  (length before < length before + S (length after) - Z.to_nat MiB)%nat ->
  verify_file_integrity E source destination fs = (Return true, fs).
Proof.
  intros Ha Hb Hfa Hfb Hbig Hfirst Hmiddle Hlast.
  rewrite (verify_file_integrity_eq E _ _ _ _ _ Ha Hb Hfa Hfb).
  rewrite bool_decide_true by (rewrite !length_app; done).
  rewrite length_app. cbn [length].
  destruct (Z.gtb_spec (Z.of_nat (length before + S (length after))) GiB); [|lia].
  by rewrite samples_miss_one_byte.
Qed.

Lemma verify_file_integrity_misses_unsampled_byte_witness :
  verify_file_integrity linux_env ["/"; "a"] ["/"; "b"]
    (two_files (zeros (2 * MiB) ++ "000"%byte :: zeros GiB)
               (zeros (2 * MiB) ++ "001"%byte :: zeros GiB))
  = (Return true, two_files (zeros (2 * MiB) ++ "000"%byte :: zeros GiB)
                            (zeros (2 * MiB) ++ "001"%byte :: zeros GiB)).
Proof.
  apply (verify_file_integrity_misses_unsampled_byte linux_env ["/"; "a"] ["/"; "b"]
           (two_files (zeros (2 * MiB) ++ "000"%byte :: zeros GiB)
                      (zeros (2 * MiB) ++ "001"%byte :: zeros GiB))
           (zeros (2 * MiB)) (zeros GiB) "000"%byte "001"%byte).
  - apply stat_two_files.
  - apply stat_two_files.
  - reflexivity.
  - reflexivity.
  - rewrite !length_zeros. unfold GiB, MiB. lia.
  - rewrite !length_zeros. unfold MiB. lia.
  - rewrite !length_zeros. apply Nat.div_le_lower_bound; [lia|]. unfold GiB, MiB. lia.
  - rewrite !length_zeros. unfold GiB, MiB. lia.
Defined.

(** ** The health of a link *)

Lemma readlink_of_symlink (E : Env) (p : list string) (fs : gmap (list string) node) :
  path_is_symlink E p fs = true -> exists t, readlink E p fs = Return t.
Proof.
  unfold path_is_symlink, readlink. destruct (lstat E p fs) as [[| |t]|]; try discriminate.
  eauto.
Qed.

Lemma st_size_of_file (E : Env) (p : list string) (fs : gmap (list string) node) :
  path_is_file E p fs = true -> exists size, st_size E p fs = Return size.
Proof.
  unfold path_is_file, st_size. destruct (stat E p fs) as [[data| |t]|]; try discriminate.
  eauto.
Qed.

(** The dictionary in closed form: the [try] block of the function cannot
    fail once the path is known to be a link. *)
Lemma check_symlink_health_eq (E : Env) (p : list string) (fs : gmap (list string) node) :
  check_symlink_health E p fs
  = if negb (path_exists E p fs) then mkSymlinkHealth false false false None false false
    else if path_is_symlink E p fs then
      match readlink E p fs with
      | Return t =>
          if path_exists E t fs then
            mkSymlinkHealth true true true (Some t) false
              (if path_is_file E p fs && path_is_file E t fs then
                 match st_size E p fs, st_size E t fs with
                 | Return a, Return b => bool_decide (a = b)
                 | _, _ => false
                 end
               else path_is_dir E p fs && path_is_dir E t fs)
          else mkSymlinkHealth true true false (Some t) true false
      | Raise _ => mkSymlinkHealth true true false None true false
      end
    else mkSymlinkHealth false true false None false false.
Proof.
  unfold check_symlink_health.
  destruct (path_exists E p fs) eqn:Hex; cbn [negb]; [|reflexivity].
  destruct (path_is_symlink E p fs) eqn:Hl; [|reflexivity].
  destruct (readlink_of_symlink E p fs Hl) as [t ->].
  unfold bind, modify, try_except, lift_outcome, get, ret.
  cbn [snd fst set_is_symlink set_target_path set_target_exists set_is_broken
       set_size_match health_is_symlink health_exists health_target_exists
       health_target_path health_is_broken health_size_match].
  destruct (path_exists E t fs); cbn [negb]; [|reflexivity].
  destruct (path_is_file E p fs) eqn:Hfp; cbn [andb].
  - destruct (path_is_file E t fs) eqn:Hft.
    + destruct (st_size_of_file E p fs Hfp) as [a ->].
      destruct (st_size_of_file E t fs Hft) as [b ->]. reflexivity.
    + assert (path_is_dir E p fs = false) as ->; [|reflexivity].
      unfold path_is_file, path_is_dir in *. by destruct (stat E p fs) as [[| |]|].
  - destruct (path_is_dir E p fs); cbn [andb]; [|reflexivity].
    by destruct (path_is_dir E t fs).
Qed.

(** X6.  What the health dictionary always satisfies: [exists] is the
    existence test; a path is called a link only when it exists; broken
    means exactly a link whose recorded target was not found; a size match
    and a found target are only reported for links, with the target that
    was read and that exists. *)
Theorem check_symlink_health_invariants (E : Env) (p : list string)
    (fs : gmap (list string) node) :
  let health := check_symlink_health E p fs in
  health_exists health = path_exists E p fs
  /\ health_is_symlink health = path_exists E p fs && path_is_symlink E p fs
  /\ (health_is_broken health = true <->
        health_is_symlink health = true /\ health_target_exists health = false)
  /\ (health_size_match health = true -> health_target_exists health = true)
  /\ (health_target_exists health = true ->
        exists t, health_target_path health = Some t
                  /\ readlink E p fs = Return t /\ path_exists E t fs = true).
Proof.
  cbv zeta. rewrite check_symlink_health_eq.
  destruct (path_exists E p fs) eqn:Hex; cbn [negb andb].
  2:{ cbn. intuition discriminate. }
  destruct (path_is_symlink E p fs) eqn:Hl.
  2:{ cbn. intuition discriminate. }
  destruct (readlink_of_symlink E p fs Hl) as [t Ht]. rewrite Ht.
  destruct (path_exists E t fs) eqn:Hext.
  - cbn [health_exists health_is_symlink health_is_broken health_size_match
         health_target_exists health_target_path].
    repeat split; try done; try (intros [? ?]; discriminate). eauto.
  - cbn. repeat split; try done; intros; discriminate.
Qed.

(** X7.  For a link whose recorded target exists, the function itself shows
    when it reports a size match: a link to a directory always matches; a
    link to a regular file matches exactly when the file the link leads to
    and the file the recorded target names (read from the working
    directory) have one size. *)
Theorem check_symlink_health_size_match (E : Env) (p t : list string)
    (fs : gmap (list string) node) :
  path_exists E p fs = true ->
  path_is_symlink E p fs = true ->
  readlink E p fs = Return t ->
  path_exists E t fs = true ->
  health_is_broken (check_symlink_health E p fs) = false
  /\ (path_is_dir E p fs = true -> path_is_dir E t fs = true ->
      health_size_match (check_symlink_health E p fs) = true)
  /\ (forall a b, stat E p fs = Some (File a) -> stat E t fs = Some (File b) ->
      health_size_match (check_symlink_health E p fs) = bool_decide (length a = length b)).
Proof.
  intros Hex Hl Ht Hext. rewrite check_symlink_health_eq, Hex, Hl, Ht, Hext.
  cbn [negb health_is_broken health_size_match]. repeat split.
  - intros Hdp Hdt. rewrite Hdp, Hdt.
    unfold path_is_file, path_is_dir in *. by destruct (stat E p fs) as [[| |]|].
  - intros a b Ha Hb. unfold path_is_file, st_size. rewrite Ha, Hb. cbn [andb].
    apply bool_decide_ext. lia.
Qed.

Lemma check_symlink_health_size_match_witness :
  health_is_broken (check_symlink_health linux_env llama_path relocated_fs) = false
  /\ (path_is_dir linux_env llama_path relocated_fs = true ->
      path_is_dir linux_env llama_on_usb relocated_fs = true ->
      health_size_match (check_symlink_health linux_env llama_path relocated_fs) = true)
  /\ (forall a b, stat linux_env llama_path relocated_fs = Some (File a) ->
      stat linux_env llama_on_usb relocated_fs = Some (File b) ->
      health_size_match (check_symlink_health linux_env llama_path relocated_fs)
      = bool_decide (length a = length b)).
Proof.
  apply (check_symlink_health_size_match linux_env llama_path llama_on_usb relocated_fs);
    vm_compute; reflexivity.
Defined.

(** ** The choice of strategy *)

(** X8.  The strategy is always ["file"] or ["directory"]; an explicit
    preference in the configuration is returned as it is; without one, the
    whole-directory strategy is chosen only for a directory entry that holds
    a regular file with the suffix [.gguf] and carries no MLX indicator in
    its name or type: every other entry, a single file included, gets the
    per-file strategy. *)
Theorem determine_symlink_strategy_choice (E : Env) (mgr : ModelManager)
    (model_info : ModelInfo) (fs : gmap (list string) node) :
  let configured := get_symlink_strategy (config_manager mgr) in
  let strategy := _determine_symlink_strategy E mgr model_info fs in
  (strategy = "file" \/ strategy = "directory")
  /\ (configured = "file" \/ configured = "directory" -> strategy = configured)
  /\ (configured <> "file" -> configured <> "directory" -> strategy = "directory" ->
      path_is_dir E (path model_info) fs = true
      /\ str_contains "mlx" (str_lower (name model_info)) = false
      /\ type model_info <> "mlx_dir"
      /\ exists f, f ∈ rglob E (path model_info) fs
                   /\ path_is_file E f fs = true
                   /\ str_lower (path_suffix f) = ".gguf").
Proof.
  cbv zeta. unfold _determine_symlink_strategy.
  destruct (decide (get_symlink_strategy (config_manager mgr) = "directory")) as [Hd|Hd].
  { rewrite (bool_decide_true _ Hd). cbn [orb]. rewrite Hd. intuition congruence. }
  rewrite (bool_decide_false _ Hd). cbn [orb].
  destruct (decide (get_symlink_strategy (config_manager mgr) = "file")) as [Hf|Hf].
  { rewrite (bool_decide_true _ Hf). rewrite Hf. intuition congruence. }
  rewrite (bool_decide_false _ Hf).
  set (indicators := existsb id _).
  destruct indicators eqn:Hind.
  { split; [by left|]. split; [intros [?|?]; congruence|]. intros _ _ ?; discriminate. }
  destruct (path_is_dir E (path model_info) fs) eqn:Hdir.
  2:{ split; [by left|]. split; [intros [?|?]; congruence|]. intros _ _ ?; discriminate. }
  cbn [andb].
  rewrite andb_false_r.
  destruct (existsb _ (rglob E (path model_info) fs)).
  { split; [by left|]. split; [intros [?|?]; congruence|]. intros _ _ ?; discriminate. }
  cbn [negb]. rewrite andb_true_r.
  case_bool_decide as Hext.
  2:{ split; [by left|]. split; [intros [?|?]; congruence|]. intros _ _ ?; discriminate. }
  split; [by right|]. split; [intros [?|?]; congruence|]. intros _ _ _.
  split; [reflexivity|].
  subst indicators. cbn [existsb id] in Hind.
  apply orb_false_elim in Hind as [Hmlx Hind].
  apply orb_false_elim in Hind as [_ Hind].
  apply orb_false_elim in Hind as [Hty _].
  split; [exact Hmlx|]. split; [by apply bool_decide_eq_false in Hty|].
  apply list_elem_of_fmap in Hext as (f & Hsuffix & Hin).
  apply elem_of_List_filter in Hin as [Hin Hfile]. eauto.
Qed.

(** ** Probes on the removable root *)

Section ProbeEdges.
Context (E : Env).

Lemma write_probe_error_kind (usb_path : list string) (min_space_bytes : Z)
    (fs : gmap (list string) node) (k : list string) (e : exn)
    (fs1 : gmap (list string) node) :
  (forall call p e, env_fault E call p = Some e -> is_OSError e = true) ->
  locate_entry E (usb_test_file E usb_path) fs = Missing k ->
  write_probe E usb_path min_space_bytes fs = (Raise e, fs1) ->
  is_OSError e = true.
Proof.
  intros Hfault Hm. unfold usb_test_file in *.
  unfold write_probe, usb_test_file, write_file, bind, raise.
  destruct (env_fault E SysOpenWrite _) as [e0|] eqn:Hw.
  { intros [= <- <-]. eauto. }
  set (data := env_store E _ _).
  destruct (store_then_unlink E _ _ fs k data (test_name_plain E) Hm) as (Hs & Hst & Hex & Hun).
  rewrite Hs.
  destruct (env_fault E SysWrite _) as [e0|] eqn:Hwr.
  { intros [= <- <-]. eauto. }
  unfold ret at 1.
  unfold read_file. destruct (env_fault E SysOpenRead _) as [e0|] eqn:Hr.
  { intros [= <- <-]. eauto. }
  rewrite Hst.
  unfold disk_usage. destruct (env_fault E SysDiskUsage _) as [e0|] eqn:Hd.
  { intros [= <- <-]. eauto. }
  destruct (path_exists E usb_path _).
  - rewrite Hun. unfold ret. intros Heq; discriminate Heq.
  - by intros [= <- <-].
Qed.

End ProbeEdges.



(** X10.  The speed probe never raises.  When no file of its name lies in
    the destination directory, it leaves the filesystem exactly as it found
    it if the file cannot be opened or the write succeeds.  If the write
    fails once the file is open, the exception is swallowed before the
    clean-up is reached: the file [.speed_test_pid] stays in the
    destination, with the bytes the device kept. *)
Theorem estimate_copy_time_trace (E : Env) (size_bytes : Z)
    (dest_path : list string) (fs : gmap (list string) node) :
  exists fs',
    estimate_copy_time E size_bytes dest_path fs = (Return tt, fs')
    /\ (forall k,
          locate_entry E (path_join dest_path (".speed_test_" +:+ pid_str E)) fs = Missing k ->
          (is_Some (env_fault E SysOpenWrite
                      (path_join dest_path (".speed_test_" +:+ pid_str E)))
           \/ env_fault E SysWrite (path_join dest_path (".speed_test_" +:+ pid_str E)) = None ->
           fs' = fs)
          /\ (env_fault E SysOpenWrite (path_join dest_path (".speed_test_" +:+ pid_str E))
               = None ->
              is_Some (env_fault E SysWrite
                         (path_join dest_path (".speed_test_" +:+ pid_str E))) ->
              fs' = <[k := File (env_store E
                                   (path_join dest_path (".speed_test_" +:+ pid_str E))
                                   speed_test_data)]> fs)).
Proof.
  unfold estimate_copy_time.
  destruct (try_pass_returns
              (write_file E (path_join dest_path (".speed_test_" +:+ pid_str E))
                 speed_test_data ;;
               unlink E (path_join dest_path (".speed_test_" +:+ pid_str E))) fs)
    as [fs' Hrun].
  exists fs'. split; [exact Hrun|].
  intros k Hm. revert Hrun.
  unfold try_pass, try_except, write_file, bind, raise, ret.
  destruct (env_fault E SysOpenWrite _) as [e|].
  { intros [= <-]. split; [done|]. discriminate. }
  set (data := env_store E _ _).
  destruct (store_then_unlink E _ _ fs k data (speed_name_plain E) Hm) as (Hs & _ & _ & Hun).
  rewrite Hs.
  destruct (env_fault E SysWrite _) as [e|].
  - intros [= <-]. split; [|done]. intros [[? Hnone]|Hnone]; discriminate Hnone.
  - rewrite Hun. intros [= <-]. split; [done|]. intros _ [? Hsome]. discriminate Hsome.
Qed.

Lemma estimate_copy_time_trace_witness :
  exists fs',
    estimate_copy_time full_disk_env 1000 usb_dir local_fs = (Return tt, fs')
    /\ fs' = <[usb_dir ++ [".speed_test_4242"] := File []]> local_fs.
Proof.
  destruct (estimate_copy_time_trace full_disk_env 1000 usb_dir local_fs)
    as (fs' & Hrun & Htrace).
  exists fs'. split; [exact Hrun|].
  destruct (Htrace (usb_dir ++ [".speed_test_4242"])) as [_ Hstays].
  { vm_compute; reflexivity. }
  apply Hstays; [reflexivity|]. by eexists.
Defined.

(** X11.  Reading the free space never raises and changes neither the
    manager nor the filesystem; the answer is all zeros when the removable
    root has not been verified as mounted, writable and roomy, or when its
    usage cannot be read, and the usage of the root otherwise. *)
Theorem get_usb_space_info_total (E : Env) (mgr : ModelManager)
    (fs : gmap (list string) node) :
  exists info,
    get_usb_space_info E (mgr, fs) = (Return info, (mgr, fs))
    /\ (usb_available mgr = false -> info = (0, 0, 0))
    /\ (forall e, env_fault E SysDiskUsage (usb_path mgr) = Some e -> info = (0, 0, 0))
    /\ (path_exists E (usb_path mgr) fs = false -> info = (0, 0, 0))
    /\ (usb_available mgr = true ->
        env_fault E SysDiskUsage (usb_path mgr) = None ->
        path_exists E (usb_path mgr) fs = true ->
        info = env_disk_usage E (usb_path mgr)).
Proof.
  unfold get_usb_space_info, bind, lift_local, lift_fs, get, try_except, disk_usage, ret.
  cbn [fst snd].
  destruct (usb_available mgr); cbn [negb].
  2:{ eexists. split; [reflexivity|]. intuition discriminate. }
  destruct (env_fault E SysDiskUsage (usb_path mgr)) as [e|]; cbn [fst snd].
  { eexists. split; [reflexivity|]. intuition discriminate. }
  destruct (path_exists E (usb_path mgr) fs); cbn [fst snd].
  - eexists. split; [reflexivity|]. intuition discriminate.
  - eexists. split; [reflexivity|]. intuition discriminate.
Qed.

(** ** What the movers return *)

Section ReturnsOnly.
Context {S : Type}.

Lemma returns_only_ret {A : Type} (P : A -> Prop) (a : A) :
  P a -> returns_only P (ret a : M S A).
Proof. by intros Ha s a' s' [= <- _]. Qed.

Lemma returns_only_raise {A : Type} (P : A -> Prop) (e : exn) :
  returns_only P (raise e : M S A).
Proof. intros s a s' Hr. discriminate Hr. Qed.

Lemma returns_only_bind {A B : Type} (P : B -> Prop) (m : M S A) (k : A -> M S B) :
  (forall a, returns_only P (k a)) -> returns_only P (bind m k).
Proof.
  intros Hk s b s'. unfold bind. destruct (m s) as [[a|e] s1]; [apply Hk|].
  intros Hr. discriminate Hr.
Qed.

Lemma returns_only_try_except {A : Type} (P : A -> Prop) (body : M S A)
    (handler : exn -> M S A) :
  returns_only P body -> (forall e, returns_only P (handler e)) ->
  returns_only P (try_except body handler).
Proof.
  intros Hb Hh s a s'. unfold try_except.
  destruct (body s) as [[a'|e] s1] eqn:Hrun; [|apply Hh].
  intros [= <- <-]. by eapply Hb.
Qed.

Lemma returns_only_with_locals {L A : Type} (P : A -> Prop) (init : L)
    (m : M (L * S) A) :
  returns_only P m -> returns_only P (with_locals init m).
Proof.
  intros Hm s a s'. unfold with_locals.
  destruct (m (init, s)) as [r s1] eqn:Hrun. intros [= -> _]. by eapply Hm.
Qed.

End ReturnsOnly.

Ltac solve_returns_only :=
  repeat first
    [ apply returns_only_ret; reflexivity
    | apply returns_only_raise
    | apply returns_only_with_locals
    | apply returns_only_try_except; [|intros ?]
    | apply returns_only_bind; intros ? ].

Section Movers.
Context (E : Env).

Lemma safe_move_with_verification_returns_true (source destination : list string)
    (monitor_usb_path : option (list string)) :
  returns_only (eq true) (safe_move_with_verification E source destination monitor_usb_path).
Proof. unfold safe_move_with_verification. solve_returns_only. Qed.

Lemma safe_restore_from_usb_returns_true (symlink_path usb_source local_destination : list string) :
  returns_only (eq true) (safe_restore_from_usb E symlink_path usb_source local_destination).
Proof. unfold safe_restore_from_usb. solve_returns_only. Qed.

Lemma safe_restore_internal_symlinks_returns_true (model_directory usb_source : list string) :
  returns_only (eq true) (safe_restore_internal_symlinks E model_directory usb_source).
Proof. unfold safe_restore_internal_symlinks. solve_returns_only. Qed.

Lemma safe_move_with_file_symlinks_returns_true (model_directory usb_directory : list string)
    (files_to_move keep_local_files : list (list string)) :
  returns_only (eq true)
    (safe_move_with_file_symlinks E model_directory usb_directory files_to_move keep_local_files).
Proof. unfold safe_move_with_file_symlinks. solve_returns_only. Qed.

End Movers.

(** ** A small program logic for the methods of the manager *)

Section Wp.
Context {A : Type}.
Implicit Types (post : A -> ModelManager -> Prop) (exc : exn -> ModelManager -> Prop).

Lemma wp_ret post exc (mgr : ModelManager) (a : A) :
  post a mgr -> wp (ret a) post exc mgr.
Proof. intros H fs r mgr' fs' [= <- <- _]. exact H. Qed.

Lemma wp_raise post exc (mgr : ModelManager) (e : exn) :
  exc e mgr -> wp (raise e) post exc mgr.
Proof. intros H fs r mgr' fs' [= <- <- _]. exact H. Qed.

Lemma wp_lift_outcome post exc (mgr : ModelManager) (o : outcome A) :
  match o with Return a => post a mgr | Raise e => exc e mgr end ->
  wp (lift_outcome o) post exc mgr.
Proof. intros H fs r mgr' fs' [= <- <- _]. exact H. Qed.

Lemma wp_bind {B : Type} post exc (mgr : ModelManager)
    (m : M (ModelManager * gmap (list string) node) B)
    (k : B -> M (ModelManager * gmap (list string) node) A) :
  wp m (fun b mgr' => wp (k b) post exc mgr') exc mgr ->
  wp (bind m k) post exc mgr.
Proof.
  intros Hm fs r mgr' fs'. unfold bind.
  destruct (m (mgr, fs)) as [[b|e] [mgr1 fs1]] eqn:Hrun; specialize (Hm _ _ _ _ Hrun).
  - apply Hm.
  - by intros [= <- <- _].
Qed.

Lemma wp_try_except post exc (mgr : ModelManager)
    (body : M (ModelManager * gmap (list string) node) A)
    (handler : exn -> M (ModelManager * gmap (list string) node) A) :
  wp body post (fun e mgr' => wp (handler e) post exc mgr') mgr ->
  wp (try_except body handler) post exc mgr.
Proof.
  intros Hm fs r mgr' fs'. unfold try_except.
  destruct (body (mgr, fs)) as [[b|e] [mgr1 fs1]] eqn:Hrun; specialize (Hm _ _ _ _ Hrun).
  - by intros [= <- <- _].
  - apply Hm.
Qed.

(** A filesystem operation leaves the manager alone; [R] is what is known
    of its result. *)
Lemma wp_lift_fs post exc (mgr : ModelManager) (R : A -> Prop)
    (m : M (gmap (list string) node) A) :
  returns_only R m ->
  (forall a, R a -> post a mgr) -> (forall e, exc e mgr) ->
  wp (lift_fs m) post exc mgr.
Proof.
  intros HR Hpost Hexc fs r mgr' fs'. unfold lift_fs. cbn [fst snd].
  destruct (m fs) as [[a|e] fs1] eqn:Hrun; intros [= <- <- _]; [|apply Hexc].
  apply Hpost. by eapply HR.
Qed.

Lemma wp_consequence post post' exc exc' (mgr : ModelManager)
    (m : M (ModelManager * gmap (list string) node) A) :
  wp m post' exc' mgr ->
  (forall a mgr', post' a mgr' -> post a mgr') ->
  (forall e mgr', exc' e mgr' -> exc e mgr') ->
  wp m post exc mgr.
Proof.
  intros Hm Hpost Hexc fs r mgr' fs' Hrun. specialize (Hm _ _ _ _ Hrun).
  destruct r; auto.
Qed.

End Wp.

Lemma returns_only_any {S A : Type} (m : M S A) : returns_only (fun _ => True) m.
Proof. by intros s a s' _. Qed.

Lemma wp_get (post : ModelManager -> ModelManager -> Prop)
    (exc : exn -> ModelManager -> Prop) (mgr : ModelManager) :
  post mgr mgr -> wp (lift_local get) post exc mgr.
Proof. intros H fs r mgr' fs' [= <- <- _]. exact H. Qed.

Lemma wp_modify (post : unit -> ModelManager -> Prop)
    (exc : exn -> ModelManager -> Prop) (mgr : ModelManager)
    (f : ModelManager -> ModelManager) :
  post tt (f mgr) -> wp (lift_local (modify f)) post exc mgr.
Proof. intros H fs r mgr' fs' [= <- <- _]. exact H. Qed.

Lemma wp_try_pass (post : unit -> ModelManager -> Prop)
    (exc : exn -> ModelManager -> Prop) (mgr : ModelManager)
    (body : M (ModelManager * gmap (list string) node) unit) :
  wp body post (fun _ mgr' => post tt mgr') mgr -> wp (try_pass body) post exc mgr.
Proof.
  intros H. unfold try_pass. apply wp_try_except.
  eapply wp_consequence; [exact H|done|]. intros e mgr' Hp. by apply wp_ret.
Qed.

(** One step of a proof in the logic; [known] is tried first. *)
Ltac wp_step known :=
  first
    [ known
    | apply wp_ret | apply wp_raise | apply wp_get | apply wp_modify
    | apply wp_lift_outcome
    | apply wp_try_pass
    | apply wp_try_except
    | apply wp_bind
    | apply (wp_lift_fs _ _ _ (fun _ => True));
        [apply returns_only_any | intros ? _ | intros ?]
    | progress cbv zeta
    | match goal with
      | |- wp (if ?b then _ else _) _ _ _ => destruct b eqn:?
      | |- wp (match ?x with _ => _ end) _ _ _ => destruct x eqn:?
      | |- match ?o with Return _ => _ | Raise _ => _ end => destruct o eqn:?
      end ].

Section ManagerSpecs.
Context (E : Env).

Lemma verify_usb_mounted_returns (usb_path : list string) (min_space_bytes : Z)
    (fs : gmap (list string) node) :
  exists status, (verify_usb_mounted E usb_path min_space_bytes fs).1 = Return status.
Proof.
  unfold verify_usb_mounted.
  apply (try_except_returns _
           (fun e => mkUSBVerificationResult false false false
                       ("USB verification failed: " +:+ exn_str e) "unknown")).
Qed.

(** The status is refreshed and nothing else of the manager changes. *)
Lemma wp_refresh_usb_status (post : USBVerificationResult -> ModelManager -> Prop)
    (exc : exn -> ModelManager -> Prop) (mgr : ModelManager) :
  (forall status, post status (set_usb_verification (Some status) mgr)) ->
  wp (refresh_usb_status E) post exc mgr.
Proof.
  intros Hpost fs r mgr' fs'.
  unfold refresh_usb_status, bind, lift_local, lift_fs, get, modify, ret. cbn [fst snd].
  destruct (verify_usb_mounted_returns (usb_path mgr) (1024 * 1024 * 100) fs) as [status Hs].
  destruct (verify_usb_mounted E (usb_path mgr) (1024 * 1024 * 100) fs) as [r0 fs1].
  simpl in Hs. subst r0. cbn [fst snd]. intros [= <- <- _]. apply Hpost.
Qed.

Lemma wp_get_usb_space_info (post : Z * Z * Z -> ModelManager -> Prop)
    (exc : exn -> ModelManager -> Prop) (mgr : ModelManager) :
  (forall info, post info mgr) -> wp (get_usb_space_info E) post exc mgr.
Proof.
  intros Hpost. unfold get_usb_space_info.
  apply wp_bind, wp_get. destruct (negb (usb_available mgr)); [by apply wp_ret|].
  apply wp_try_except.
  apply (wp_lift_fs _ _ _ (fun _ => True)); [apply returns_only_any|auto|].
  intros e. by apply wp_ret.
Qed.

Lemma wp_update_model (post : unit -> ModelManager -> Prop)
    (exc : exn -> ModelManager -> Prop) (mgr : ModelManager)
    (key : string) (f : ModelInfo -> ModelInfo) :
  post tt (set_models (dict_update (_models mgr) key f) mgr) ->
  wp (update_model key f) post exc mgr.
Proof. intros H. unfold update_model. by apply wp_modify. Qed.

(** The whole-directory strategy returns only [True], with the entry
    flagged as a link to its destination. *)
Lemma wp_move_with_directory_symlink (key : string) (model : ModelInfo)
    (usb_dest : list string) (mgr : ModelManager) :
  wp (_move_with_directory_symlink E key model usb_dest)
     (fun b mgr' =>
        b = true
        /\ mgr' = set_models (dict_update (_models mgr) key
                                (set_is_symlink_linked_to true (Some usb_dest))) mgr)
     (fun _ _ => True) mgr.
Proof.
  unfold _move_with_directory_symlink.
  repeat wp_step ltac:(first [apply wp_update_model | exact I | by split]).
Qed.

(** The per-file strategy returns only [True], with the entry flagged as
    carrying internal links, or as a link when it fell back to the
    whole-directory strategy. *)
Lemma wp_move_with_file_symlinks (key : string) (model : ModelInfo)
    (usb_dest : list string) (mgr : ModelManager) :
  wp (_move_with_file_symlinks E key model usb_dest)
     (fun b mgr' =>
        b = true
        /\ (mgr' = set_models (dict_update (_models mgr) key
                                 (set_is_symlink_linked_to true (Some usb_dest))) mgr
            \/ mgr' = set_models (dict_update (_models mgr) key
                                    (set_internal_symlinks true (Some usb_dest))) mgr))
     (fun _ _ => True) mgr.
Proof.
  unfold _move_with_file_symlinks.
  apply wp_bind. apply (wp_lift_fs _ _ _ (fun _ => True)); [apply returns_only_any| |done].
  intros fs _. destruct (negb (path_is_dir E (path model) fs)).
  { eapply wp_consequence; [apply wp_move_with_directory_symlink| |done].
    intros b mgr' [-> ->]. auto. }
  apply wp_bind, wp_get. apply wp_bind, wp_lift_outcome.
  destruct (partition_files _ _ _ _ _ _ _) as [[files_to_move files_to_keep]|e]; [|done].
  destruct files_to_move as [|f files_to_move]; [by apply wp_raise|].
  apply wp_bind.
  apply (wp_lift_fs _ _ _ (eq true));
    [apply safe_move_with_file_symlinks_returns_true| |done].
  intros success <-. apply wp_bind, wp_update_model. apply wp_ret. auto.
Qed.

End ManagerSpecs.

(** ** Relocation and restoration: what success means for the manager *)

Section Relocation.
Context (E : Env).

Lemma usb_destination_returns (mgr : ModelManager) (model : ModelInfo) :
  returns_only (eq (usb_dest_path mgr model)) (usb_destination E mgr model).
Proof.
  unfold usb_destination, usb_dest_path.
  destruct (bool_decide (publisher model = "")); cbn [negb].
  - by apply returns_only_ret.
  - apply returns_only_bind. intros _. by apply returns_only_ret.
Qed.

(** A relocation returns only [True]; the entry was tracked and not a
    link, and is now flagged as a link to its destination or as carrying
    internal links to it; the verification status is stored; nothing else
    of the manager changes. *)
Lemma wp_move_model_to_usb (mname : string) (mgr : ModelManager) :
  wp (move_model_to_usb E mname)
     (fun b mgr' =>
        b = true
        /\ exists model status,
             get_model_by_name mgr mname = Some model
             /\ is_symlink model = false
             /\ (mgr' = manager_after mgr status mname
                          (set_is_symlink_linked_to true (Some (usb_dest_path mgr model)))
                 \/ mgr' = manager_after mgr status mname
                             (set_internal_symlinks true (Some (usb_dest_path mgr model)))))
     (fun _ _ => True) mgr.
Proof.
  unfold move_model_to_usb.
  apply wp_bind, wp_refresh_usb_status. intros status.
  destruct (negb (is_mounted status)); [by apply wp_raise|].
  destruct (negb (is_writable status)); [by apply wp_raise|].
  destruct (negb (has_space status)); [by apply wp_raise|].
  apply wp_bind, wp_get.
  unfold get_model_by_name at 1. cbn [_models set_usb_verification].
  destruct (dict_get (_models mgr) mname) as [model|] eqn:Hget; [|by apply wp_raise].
  destruct (is_symlink model) eqn:Hlink; [by apply wp_raise|].
  apply wp_bind.
  apply (wp_lift_fs _ _ _ (eq (usb_dest_path (set_usb_verification (Some status) mgr) model)));
    [apply usb_destination_returns| |done].
  intros usb_dest <-.
  change (usb_dest_path (set_usb_verification (Some status) mgr) model)
    with (usb_dest_path mgr model).
  apply wp_bind. apply (wp_lift_fs _ _ _ (fun _ => True)); [apply returns_only_any| |done].
  intros fs _. destruct (path_exists E (usb_dest_path mgr model) fs); [by apply wp_raise|].
  apply wp_bind, wp_get_usb_space_info. intros info.
  destruct (_ >? _); [by apply wp_raise|].
  match goal with
  | |- wp (bind _ (fun _ => ?K)) ?post ?exc ?m => assert (HK : wp K post exc m)
  end.
  { apply wp_try_except. apply wp_bind.
    apply (wp_lift_fs _ _ _ (fun _ => True)); [apply returns_only_any|intros fs' _|].
    2:{ intros e. cbv beta. repeat wp_step ltac:(exact I). }
    apply wp_bind, wp_get.
    destruct (bool_decide (_ = "file")).
    - eapply wp_consequence; [apply wp_move_with_file_symlinks| |].
      + intros b mgr' [-> Hmgr]. split; [done|]. exists model, status.
        repeat split; done.
      + intros e mgr' _. repeat wp_step ltac:(exact I).
    - eapply wp_consequence; [apply wp_move_with_directory_symlink| |].
      + intros b mgr' [-> ->]. split; [done|]. exists model, status.
        repeat split; try done. auto.
      + intros e mgr' _. repeat wp_step ltac:(exact I). }
  apply wp_bind, wp_try_pass.
  apply (wp_lift_fs _ _ _ (fun _ => True)); [apply returns_only_any|intros _ _|intros _];
    exact HK.
Qed.

(** A restoration returns only [True]; the entry was tracked and on the
    removable root, and the flag through which it was restored is cleared. *)
Lemma wp_move_model_from_usb (mname : string) (mgr : ModelManager) :
  wp (move_model_from_usb E mname)
     (fun b mgr' =>
        b = true
        /\ exists model status,
             get_model_by_name mgr mname = Some model
             /\ (is_symlink model = true
                 /\ mgr' = manager_after mgr status mname (set_is_symlink_linked_to false None)
                 \/ is_symlink model = false /\ has_internal_symlinks model = true
                    /\ mgr' = manager_after mgr status mname (set_internal_symlinks false None)))
     (fun _ _ => True) mgr.
Proof.
  unfold move_model_from_usb.
  apply wp_bind, wp_get.
  destruct (get_model_by_name mgr mname) as [model|] eqn:Hget; [|by apply wp_raise].
  destruct (is_symlink model) eqn:Hlink; cbn [negb andb].
  - apply wp_bind, wp_refresh_usb_status. intros status.
    repeat wp_step ltac:(first [ apply wp_update_model | exact I ]).
    all: split; [done|]; exists model, status; split; [done|]; left; by split.
  - destruct (has_internal_symlinks model) eqn:Hint; cbn [negb]; [|by apply wp_raise].
    apply wp_bind, wp_refresh_usb_status. intros status.
    repeat wp_step ltac:(first [ apply wp_update_model | exact I ]).
    all: split; [done|]; exists model, status; split; [done|]; right; by repeat split.
Qed.

End Relocation.

Lemma dict_get_elem_of_values {V : Type} (d : list (string * V)) (k : string) (v : V) :
  dict_get d k = Some v -> v ∈ dict_values d.
Proof.
  unfold dict_values. induction d as [|[k' v'] d IH]; simpl; [done|].
  case_bool_decide.
  - intros [= ->]. apply list_elem_of_here.
  - intros H'. apply list_elem_of_further. by apply IH.
Qed.

Lemma wp_run {A : Type} (m : M (ModelManager * gmap (list string) node) A)
    (post : A -> ModelManager -> Prop) (mgr : ModelManager)
    (fs : gmap (list string) node) (a : A) (mgr' : ModelManager)
    (fs' : gmap (list string) node) :
  wp m post (fun _ _ => True) mgr ->
  m (mgr, fs) = (Return a, (mgr', fs')) -> post a mgr'.
Proof. intros Hwp Hrun. exact (Hwp _ _ _ _ Hrun). Qed.

Lemma get_model_after (mgr : ModelManager) (status : USBVerificationResult)
    (key : string) (f : ModelInfo -> ModelInfo) (n : string) :
  get_model_by_name (manager_after mgr status key f) n
  = if bool_decide (key = n) then f <$> get_model_by_name mgr n
    else get_model_by_name mgr n.
Proof. unfold get_model_by_name, manager_after. cbn [_models set_models]. apply dict_get_update. Qed.

(** X12.  A relocation that returns, returns [True], and the manager then
    lists the entry on the removable root: the entry was tracked and not a
    link; afterwards it is flagged as a link to its destination
    [usb_path/publisher/model_name] or as carrying internal links to it, so
    it is among [get_usb_models] and not among [get_movable_models]; every
    other entry is as it was. *)
Theorem relocated_entry_is_listed_on_usb (E : Env) (mname : string)
    (mgr : ModelManager) (fs : gmap (list string) node) (b : bool)
    (mgr' : ModelManager) (fs' : gmap (list string) node) :
  move_model_to_usb E mname (mgr, fs) = (Return b, (mgr', fs')) ->
  b = true
  /\ exists model model',
       get_model_by_name mgr mname = Some model
       /\ is_symlink model = false
       /\ get_model_by_name mgr' mname = Some model'
       /\ (model' = set_is_symlink_linked_to true (Some (usb_dest_path mgr model)) model
           \/ model' = set_internal_symlinks true (Some (usb_dest_path mgr model)) model)
       /\ model' ∈ get_usb_models mgr'
       /\ (model' ∉ get_movable_models mgr')
       /\ (forall n, n <> mname -> get_model_by_name mgr' n = get_model_by_name mgr n).
Proof.
  intros Hrun.
  destruct (wp_run _ _ _ _ _ _ _ (wp_move_model_to_usb E mname mgr) Hrun)
    as (-> & model & status & Hget & Hlink & Hmgr).
  split; [done|].
  assert (Hflag : exists model',
            get_model_by_name mgr' mname = Some model'
            /\ (model' = set_is_symlink_linked_to true (Some (usb_dest_path mgr model)) model
                \/ model' = set_internal_symlinks true (Some (usb_dest_path mgr model)) model)
            /\ forall n, n <> mname -> get_model_by_name mgr' n = get_model_by_name mgr n).
  { destruct Hmgr as [-> | ->]; eexists; (split; [|split]).
    - rewrite get_model_after, bool_decide_true, Hget by done. reflexivity.
    - by left.
    - intros n Hn. by rewrite get_model_after, bool_decide_false.
    - rewrite get_model_after, bool_decide_true, Hget by done. reflexivity.
    - by right.
    - intros n Hn. by rewrite get_model_after, bool_decide_false. }
  destruct Hflag as (model' & Hget' & Hmodel' & Hothers).
  exists model, model'. repeat split; try done.
  - unfold get_usb_models. apply elem_of_List_filter. split.
    + by eapply dict_get_elem_of_values.
    + destruct Hmodel' as [-> | ->]; cbn; [done|apply orb_true_r].
  - unfold get_movable_models. rewrite elem_of_List_filter. intros [_ Hf].
    destruct Hmodel' as [-> | ->]; cbn in Hf; [done|].
    rewrite andb_false_r in Hf. done.
Qed.

Lemma relocated_entry_is_listed_on_usb_witness :
  true = true
  /\ exists model model',
       get_model_by_name (manager_with "auto" 100) "acme/llama" = Some model
       /\ is_symlink model = false
       /\ get_model_by_name
            (move_model_to_usb linux_env "acme/llama" (manager_with "auto" 100, local_fs)).2.1
            "acme/llama" = Some model'
       /\ (model' = set_is_symlink_linked_to true
                      (Some (usb_dest_path (manager_with "auto" 100) model)) model
           \/ model' = set_internal_symlinks true
                         (Some (usb_dest_path (manager_with "auto" 100) model)) model)
       /\ model' ∈ get_usb_models
            (move_model_to_usb linux_env "acme/llama" (manager_with "auto" 100, local_fs)).2.1
       /\ (model' ∉ get_movable_models
            (move_model_to_usb linux_env "acme/llama" (manager_with "auto" 100, local_fs)).2.1)
       /\ (forall n, n <> "acme/llama" ->
             get_model_by_name
               (move_model_to_usb linux_env "acme/llama" (manager_with "auto" 100, local_fs)).2.1
               n
             = get_model_by_name (manager_with "auto" 100) n).
Proof.
  set (run := move_model_to_usb linux_env "acme/llama" (manager_with "auto" 100, local_fs)).
  assert (H1 : run.1 = Return true) by (vm_compute; reflexivity).
  apply (relocated_entry_is_listed_on_usb linux_env "acme/llama" (manager_with "auto" 100)
           local_fs true run.2.1 run.2.2).
  exact (run_surjective run _ H1).
Defined.

(** X13.  A restoration that returns, returns [True], and clears the flag
    through which the entry was restored: a whole-directory link is no link
    any more and has no target; an entry with internal links carries none
    any more; every other entry is as it was. *)
Theorem restored_entry_is_unflagged (E : Env) (mname : string)
    (mgr : ModelManager) (fs : gmap (list string) node) (b : bool)
    (mgr' : ModelManager) (fs' : gmap (list string) node) :
  move_model_from_usb E mname (mgr, fs) = (Return b, (mgr', fs')) ->
  b = true
  /\ exists model model',
       get_model_by_name mgr mname = Some model
       /\ get_model_by_name mgr' mname = Some model'
       /\ is_symlink model' = false
       /\ (is_symlink model = true
           /\ model' = set_is_symlink_linked_to false None model
           \/ is_symlink model = false /\ has_internal_symlinks model = true
              /\ model' = set_internal_symlinks false None model)
       /\ (forall n, n <> mname -> get_model_by_name mgr' n = get_model_by_name mgr n).
Proof.
  intros Hrun.
  destruct (wp_run _ _ _ _ _ _ _ (wp_move_model_from_usb E mname mgr) Hrun)
    as (-> & model & status & Hget & Hmgr).
  split; [done|]. exists model.
  destruct Hmgr as [[Hlink ->] | (Hlink & Hint & ->)]; eexists;
    (split; [exact Hget|]); (split; [|split; [|split]]).
  - rewrite get_model_after, bool_decide_true, Hget by done. reflexivity.
  - reflexivity.
  - left. by split.
  - intros n Hn. by rewrite get_model_after, bool_decide_false.
  - rewrite get_model_after, bool_decide_true, Hget by done. reflexivity.
  - exact Hlink.
  - right. by repeat split.
  - intros n Hn. by rewrite get_model_after, bool_decide_false.
Qed.

Lemma restored_entry_is_unflagged_witness :
  true = true
  /\ exists model model',
       get_model_by_name (linked_manager llama_on_usb) "acme/llama" = Some model
       /\ get_model_by_name
            (move_model_from_usb linux_env "acme/llama"
               (linked_manager llama_on_usb, relocated_fs)).2.1 "acme/llama" = Some model'
       /\ is_symlink model' = false
       /\ (is_symlink model = true
           /\ model' = set_is_symlink_linked_to false None model
           \/ is_symlink model = false /\ has_internal_symlinks model = true
              /\ model' = set_internal_symlinks false None model)
       /\ (forall n, n <> "acme/llama" ->
             get_model_by_name
               (move_model_from_usb linux_env "acme/llama"
                  (linked_manager llama_on_usb, relocated_fs)).2.1 n
             = get_model_by_name (linked_manager llama_on_usb) n).
Proof.
  set (run := move_model_from_usb linux_env "acme/llama"
                (linked_manager llama_on_usb, relocated_fs)).
  assert (H1 : run.1 = Return true) by (vm_compute; reflexivity).
  apply (restored_entry_is_unflagged linux_env "acme/llama" (linked_manager llama_on_usb)
           relocated_fs true run.2.1 run.2.2).
  exact (run_surjective run _ H1).
Defined.

(** X14.  The round trip on the records of the manager: a movable entry
    without stale pointers that is relocated and then restored, both with
    success, has exactly the record it had, is movable again, and every
    record of the manager is the one it was. *)
Theorem relocate_then_restore_restores_records (E : Env) (mname : string)
    (mgr : ModelManager) (fs : gmap (list string) node) (model : ModelInfo)
    (b1 b2 : bool) (mgr1 mgr2 : ModelManager) (fs1 fs2 : gmap (list string) node) :
  get_model_by_name mgr mname = Some model ->
  is_symlink model = false -> has_internal_symlinks model = false ->
  linked_to model = None -> internal_symlink_target model = None ->
  move_model_to_usb E mname (mgr, fs) = (Return b1, (mgr1, fs1)) ->
  move_model_from_usb E mname (mgr1, fs1) = (Return b2, (mgr2, fs2)) ->
  (forall n, get_model_by_name mgr2 n = get_model_by_name mgr n)
  /\ model ∈ get_movable_models mgr2
  /\ model ∉ get_usb_models mgr2.
Proof.
  intros Hget Hlink Hint Hto Htarget Hrun1 Hrun2.
  destruct (wp_run _ _ _ _ _ _ _ (wp_move_model_to_usb E mname mgr) Hrun1)
    as (_ & model0 & status1 & Hget0 & _ & Hmgr1).
  rewrite Hget in Hget0. injection Hget0 as <-.
  destruct (wp_run _ _ _ _ _ _ _ (wp_move_model_from_usb E mname mgr1) Hrun2)
    as (_ & model1 & status2 & Hget1 & Hmgr2).
  assert (Hall : forall n, get_model_by_name mgr2 n = get_model_by_name mgr n).
  { intros n. destruct model as [nm p sz pub mn sl lt hi it ty]. cbn in *. subst.
    destruct Hmgr1 as [-> | ->];
      rewrite get_model_after, bool_decide_true, Hget in Hget1 by done;
      injection Hget1 as <-;
      (destruct Hmgr2 as [[Hl ->] | (Hl & Hi & ->)]; try discriminate);
      rewrite !get_model_after;
      (destruct (decide (mname = n)) as [<-|Hn];
       [ rewrite !bool_decide_true by done; by rewrite Hget
       | by rewrite !bool_decide_false by done ]). }
  split; [exact Hall|].
  assert (Hin : model ∈ dict_values (_models mgr2)).
  { eapply dict_get_elem_of_values. unfold get_model_by_name in Hall. by rewrite Hall. }
  split.
  - unfold get_movable_models. apply elem_of_List_filter. split; [done|].
    by rewrite Hlink, Hint.
  - unfold get_usb_models. rewrite elem_of_List_filter. intros [_ Hf].
    by rewrite Hlink, Hint in Hf.
Qed.

Lemma relocate_then_restore_restores_records_witness :
  (forall n,
     get_model_by_name
       (move_model_from_usb linux_env "acme/llama"
          (move_model_to_usb linux_env "acme/llama" (manager_with "auto" 100, local_fs)).2).2.1
       n
     = get_model_by_name (manager_with "auto" 100) n)
  /\ llama ∈ get_movable_models
       (move_model_from_usb linux_env "acme/llama"
          (move_model_to_usb linux_env "acme/llama" (manager_with "auto" 100, local_fs)).2).2.1
  /\ llama ∉ get_usb_models
       (move_model_from_usb linux_env "acme/llama"
          (move_model_to_usb linux_env "acme/llama" (manager_with "auto" 100, local_fs)).2).2.1.
Proof.
  set (run1 := move_model_to_usb linux_env "acme/llama" (manager_with "auto" 100, local_fs)).
  set (run2 := move_model_from_usb linux_env "acme/llama" run1.2).
  assert (H1 : run1.1 = Return true) by (vm_compute; reflexivity).
  assert (H2 : run2.1 = Return true) by (vm_compute; reflexivity).
  apply (relocate_then_restore_restores_records linux_env "acme/llama"
           (manager_with "auto" 100) local_fs llama true true
           run1.2.1 run2.2.1 run1.2.2 run2.2.2).
  - reflexivity.
  - reflexivity.
  - reflexivity.
  - reflexivity.
  - reflexivity.
  - exact (run_surjective run1 _ H1).
  - assert (Hs : run1.2 = (run1.2.1, run1.2.2)) by (by destruct run1.2).
    rewrite <- Hs. exact (run_surjective run2 _ H2).
Defined.

(** X15.  The movers never return [False]: each of them returns [True] or
    raises, so the branch of a caller that handles a false result is never
    taken. *)
Theorem movers_never_return_false (E : Env) :
  (forall source destination monitor_usb_path,
     returns_only (eq true)
       (safe_move_with_verification E source destination monitor_usb_path))
  /\ (forall symlink_path usb_source local_destination,
        returns_only (eq true)
          (safe_restore_from_usb E symlink_path usb_source local_destination))
  /\ (forall model_directory usb_source_directory,
        returns_only (eq true)
          (safe_restore_internal_symlinks E model_directory usb_source_directory))
  /\ (forall model_directory usb_directory files_to_move keep_local_files,
        returns_only (eq true)
          (safe_move_with_file_symlinks E model_directory usb_directory
             files_to_move keep_local_files))
  /\ (forall mname, returns_only (eq true) (move_model_to_usb E mname))
  /\ (forall mname, returns_only (eq true) (move_model_from_usb E mname)).
Proof.
  repeat split.
  - intros. apply safe_move_with_verification_returns_true.
  - intros. apply safe_restore_from_usb_returns_true.
  - intros. apply safe_restore_internal_symlinks_returns_true.
  - intros. apply safe_move_with_file_symlinks_returns_true.
  - intros mname [mgr fs] b [mgr' fs'] Hrun.
    by destruct (wp_run _ _ _ _ _ _ _ (wp_move_model_to_usb E mname mgr) Hrun) as [-> _].
  - intros mname [mgr fs] b [mgr' fs'] Hrun.
    by destruct (wp_run _ _ _ _ _ _ _ (wp_move_model_from_usb E mname mgr) Hrun) as [-> _].
Qed.

(** ** Refusals before any transfer *)

Lemma refresh_usb_status_run (E : Env) (mgr : ModelManager) (fs : gmap (list string) node)
    (status : USBVerificationResult) (fs1 : gmap (list string) node) :
  verify_usb_mounted E (usb_path mgr) (1024 * 1024 * 100) fs = (Return status, fs1) ->
  refresh_usb_status E (mgr, fs)
  = (Return status, (set_usb_verification (Some status) mgr, fs1)).
Proof.
  intros Hv. unfold refresh_usb_status, bind, lift_local, lift_fs, get, modify, ret.
  cbn [fst snd]. by rewrite Hv.
Qed.

(** X16.  A relocation is refused before anything is transferred when the
    pre-flight verification does not find the root mounted, writable and
    roomy ([RuntimeError]), when the name is not tracked, or when the entry
    is already a link ([ValueError]): the manager only stores the status,
    and the filesystem is the one the verification left. *)
Theorem relocation_refused_before_transfer (E : Env) (mname : string)
    (mgr : ModelManager) (fs : gmap (list string) node)
    (status : USBVerificationResult) (fs1 : gmap (list string) node) :
  verify_usb_mounted E (usb_path mgr) (1024 * 1024 * 100) fs = (Return status, fs1) ->
  is_mounted status && is_writable status && has_space status = false
  \/ get_model_by_name mgr mname = None
  \/ (exists model, get_model_by_name mgr mname = Some model /\ is_symlink model = true) ->
  exists e,
    move_model_to_usb E mname (mgr, fs)
    = (Raise e, (set_usb_verification (Some status) mgr, fs1))
    /\ exn_kind e = (if is_mounted status && is_writable status && has_space status
                     then ValueError else RuntimeError).
Proof.
  intros Hv Hwhy. unfold move_model_to_usb, bind.
  rewrite (refresh_usb_status_run E mgr fs status fs1 Hv).
  destruct (is_mounted status); cbn [negb andb].
  2:{ eexists. split; reflexivity. }
  destruct (is_writable status); cbn [negb andb].
  2:{ eexists. split; reflexivity. }
  destruct (has_space status); cbn [negb andb].
  2:{ eexists. split; reflexivity. }
  unfold lift_local, get. cbn [fst snd].
  unfold get_model_by_name in *. cbn [_models set_usb_verification].
  destruct Hwhy as [Hw | [Hnone | (model & Hget & Hlink)]]; [discriminate| |].
  - rewrite Hnone. eexists. split; reflexivity.
  - rewrite Hget, Hlink. eexists. split; reflexivity.
Qed.

Lemma relocation_refused_before_transfer_witness :
  exists e,
    move_model_to_usb linux_env "acme/unknown" (manager_with "auto" 100, local_fs)
    = (Raise e, (set_usb_verification (Some healthy_status) (manager_with "auto" 100), local_fs))
    /\ exn_kind e = (if is_mounted healthy_status && is_writable healthy_status
                        && has_space healthy_status
                     then ValueError else RuntimeError).
Proof.
  apply (relocation_refused_before_transfer linux_env "acme/unknown"
           (manager_with "auto" 100) local_fs healthy_status local_fs).
  - apply run_eq_fs; vm_compute; reflexivity.
  - right. left. reflexivity.
Defined.

(** X17.  A restoration of a name that is not tracked, or of an entry that
    the manager lists as movable, raises [ValueError] at once: neither the
    manager nor the filesystem changes, and not even the probe is written. *)
Theorem restoration_refused_for_local_entry (E : Env) (mname : string)
    (mgr : ModelManager) (fs : gmap (list string) node) :
  get_model_by_name mgr mname = None
  \/ (exists model, get_model_by_name mgr mname = Some model
                    /\ model ∈ get_movable_models mgr) ->
  exists msg,
    move_model_from_usb E mname (mgr, fs) = (Raise (Exn ValueError msg), (mgr, fs)).
Proof.
  intros Hwhy. unfold move_model_from_usb, bind, lift_local, get. cbn [fst snd].
  destruct Hwhy as [-> | (model & -> & Hin)]; [by eexists|].
  unfold get_movable_models in Hin. apply elem_of_List_filter in Hin as [_ ->].
  by eexists.
Qed.

Lemma restoration_refused_for_local_entry_witness :
  exists msg,
    move_model_from_usb linux_env "acme/llama" (manager_with "auto" 100, local_fs)
    = (Raise (Exn ValueError msg), (manager_with "auto" 100, local_fs)).
Proof.
  apply (restoration_refused_for_local_entry linux_env "acme/llama"
           (manager_with "auto" 100) local_fs).
  right. exists llama. split; [reflexivity|]. vm_compute. apply list_elem_of_here.
Defined.

(** ** What relocation and restoration leave alone *)

Lemma dict_update_keys {V : Type} (d : list (string * V)) (k : string) (f : V -> V) :
  (dict_update d k f).*1 = d.*1.
Proof.
  induction d as [|[k' v] d IH]; simpl; [done|].
  case_bool_decide; [done|]. rewrite !fmap_cons. f_equal. exact IH.
Qed.

Lemma same_entry_refl (m : ModelInfo) : same_entry m m.
Proof. by repeat split. Qed.

Lemma same_entry_trans (m1 m2 m3 : ModelInfo) :
  same_entry m1 m2 -> same_entry m2 m3 -> same_entry m1 m3.
Proof. unfold same_entry. intuition congruence. Qed.

Lemma touches_only_refl (key : string) (mgr : ModelManager) : touches_only key mgr mgr.
Proof.
  repeat split. intros n. destruct (dict_get (_models mgr) n); [|done].
  split; [apply same_entry_refl|done].
Qed.

Lemma touches_only_status (key : string) (mgr0 mgr : ModelManager)
    (v : option USBVerificationResult) :
  touches_only key mgr0 mgr -> touches_only key mgr0 (set_usb_verification v mgr).
Proof. intros H. exact H. Qed.

Lemma touches_only_update (key : string) (mgr0 mgr : ModelManager)
    (f : ModelInfo -> ModelInfo) :
  (forall m, same_entry m (f m)) ->
  touches_only key mgr0 mgr ->
  touches_only key mgr0 (set_models (dict_update (_models mgr) key f) mgr).
Proof.
  intros Hf (Hl & Hu & Hc & Hk & Hm). repeat split; try done.
  - cbn [_models set_models]. by rewrite dict_update_keys.
  - intros n. cbn [_models set_models]. rewrite dict_get_update. specialize (Hm n).
    destruct (dict_get (_models mgr0) n) as [m0|], (dict_get (_models mgr) n) as [m|];
      case_bool_decide; simpl; try done.
    destruct Hm as [Hs Ho]. split.
    + eapply same_entry_trans; [exact Hs|apply Hf].
    + intros Hn. congruence.
Qed.

Ltac touches :=
  repeat first
    [ assumption
    | apply touches_only_refl
    | apply touches_only_status
    | apply touches_only_update; [intros []; by repeat split|] ].

Section Frame.
Context (E : Env).

Lemma wp_frame_move_model_to_usb (mname : string) (mgr : ModelManager) :
  wp (move_model_to_usb E mname)
     (fun _ mgr' => touches_only mname mgr mgr')
     (fun _ mgr' => touches_only mname mgr mgr') mgr.
Proof.
  unfold move_model_to_usb, _move_with_file_symlinks, _move_with_directory_symlink.
  repeat wp_step ltac:(first [ apply wp_refresh_usb_status; intros ?
                             | apply wp_get_usb_space_info; intros ?
                             | apply wp_update_model
                             | progress touches ]).
Qed.

Lemma wp_frame_move_model_from_usb (mname : string) (mgr : ModelManager) :
  wp (move_model_from_usb E mname)
     (fun _ mgr' => touches_only mname mgr mgr')
     (fun _ mgr' => touches_only mname mgr mgr') mgr.
Proof.
  unfold move_model_from_usb.
  repeat wp_step ltac:(first [ apply wp_refresh_usb_status; intros ?
                             | apply wp_update_model
                             | progress touches ]).
Qed.

End Frame.

(** X18.  However a relocation or a restoration ends, with a result or
    with an exception, the manager differs from the one before at most in
    the stored status and in the link flags and pointers of the named
    entry: the paths and the configuration are the same, the same names are
    tracked in the same order, every entry keeps its name, path, size,
    publisher, model name and type, and every other entry is unchanged. *)
Theorem relocation_touches_only_named_entry (E : Env) (mname : string)
    (mgr : ModelManager) (fs : gmap (list string) node) :
  touches_only mname mgr (move_model_to_usb E mname (mgr, fs)).2.1
  /\ touches_only mname mgr (move_model_from_usb E mname (mgr, fs)).2.1.
Proof.
  split.
  - pose proof (wp_frame_move_model_to_usb E mname mgr fs) as H.
    destruct (move_model_to_usb E mname (mgr, fs)) as [r [mgr' fs']].
    specialize (H _ _ _ eq_refl). by destruct r.
  - pose proof (wp_frame_move_model_from_usb E mname mgr fs) as H.
    destruct (move_model_from_usb E mname (mgr, fs)) as [r [mgr' fs']].
    specialize (H _ _ _ eq_refl). by destruct r.
Qed.

(** ** Repair: what it leaves alone, and what it removes besides links *)

Lemma unflags_only_refl (mgr : ModelManager) : unflags_only mgr mgr.
Proof.
  repeat split. intros n. destruct (dict_get (_models mgr) n); [by left|done].
Qed.

Lemma unflags_only_update (key : string) (mgr0 mgr : ModelManager) :
  unflags_only mgr0 mgr ->
  unflags_only mgr0
    (set_models (dict_update (_models mgr) key (set_is_symlink_linked_to false None)) mgr).
Proof.
  intros (Hl & Hu & Hc & Hv & Hk & Hm). repeat split; try done.
  - cbn [_models set_models]. by rewrite dict_update_keys.
  - intros n. cbn [_models set_models]. rewrite dict_get_update. specialize (Hm n).
    destruct (dict_get (_models mgr0) n) as [m0|], (dict_get (_models mgr) n) as [m|];
      case_bool_decide; simpl; try done.
    right. by destruct Hm as [-> | ->].
Qed.

Lemma dict_get_set {V : Type} (d : list (string * V)) (k n : string) (v : V) :
  dict_get (dict_set d k v) n = if bool_decide (k = n) then Some v else dict_get d n.
Proof.
  induction d as [|[k' v'] d IH]; simpl; [done|].
  destruct (decide (k' = k)) as [->|Hne].
  - rewrite bool_decide_true by done. simpl. by case_bool_decide.
  - rewrite (bool_decide_false (k' = k)) by done. simpl.
    destruct (decide (k' = n)) as [->|Hne'].
    + rewrite bool_decide_true by done. by rewrite bool_decide_false by done.
    + rewrite (bool_decide_false (k' = n)) by done. apply IH.
Qed.

Section RepairFrame.
Context (E : Env).

Lemma wp_repair_entry (item : string * ModelInfo) (results : list (string * string))
    (mgr0 mgr : ModelManager) :
  unflags_only mgr0 mgr ->
  wp (repair_entry E item results)
     (fun res mgr' =>
        unflags_only mgr0 mgr'
        /\ forall n, is_Some (dict_get res n) ->
             is_Some (dict_get results n) \/ (n = item.1 /\ is_symlink item.2 = true))
     (fun _ _ => True) mgr.
Proof.
  intros H0. destruct item as [mname model]. unfold repair_entry.
  assert (Hset : forall r n, is_Some (dict_get (dict_set results mname r) n) ->
            is_Some (dict_get results n) \/ n = mname).
  { intros r n. rewrite dict_get_set. case_bool_decide; auto. }
  destruct (is_symlink model) eqn:Hlink; [|by apply wp_ret; split; auto].
  repeat wp_step ltac:(first [ apply wp_update_model | exact I ]).
  all: split; [by (try apply unflags_only_update)|].
  all: try (intros n Hn; destruct (Hset _ _ Hn); auto).
  all: auto.
Qed.

Lemma wp_repair_loop (items : list (string * ModelInfo)) :
  forall (results : list (string * string)) (mgr0 mgr : ModelManager),
    unflags_only mgr0 mgr ->
    wp (repair_loop E items results)
       (fun res mgr' =>
          unflags_only mgr0 mgr'
          /\ forall n, is_Some (dict_get res n) ->
               is_Some (dict_get results n)
               \/ exists model, (n, model) ∈ items /\ is_symlink model = true)
       (fun _ _ => True) mgr.
Proof.
  induction items as [|item rest IH]; intros results mgr0 mgr H0.
  - apply wp_ret. auto.
  - cbn [repair_loop]. apply wp_bind.
    eapply wp_consequence; [by apply wp_repair_entry| |done].
    intros res1 mgr1 [H1 Hres1]. cbv beta.
    eapply wp_consequence; [by apply IH| |done].
    intros res mgr' [H' Hres]. split; [done|].
    intros n Hn. destruct (Hres n Hn) as [Hn1 | (model & Hin & Hlink)].
    + destruct (Hres1 n Hn1) as [? | [-> Hlink]]; [by left|].
      right. exists item.2. split; [|done]. destruct item. apply list_elem_of_here.
    + right. exists model. split; [|done]. by apply list_elem_of_further.
Qed.

End RepairFrame.

(** X19.  However the repair ends, it has only removed nodes from the
    filesystem, and in the manager it has only cleared link flags (with
    their targets): paths, configuration, status and the tracked names
    stay, and every record is the one it was or that record unflagged.  The
    report it returns names only tracked entries that were flagged as
    links. *)
Theorem repair_only_removes_and_unflags (E : Env) (mgr : ModelManager)
    (fs : gmap (list string) node) (r : outcome (list (string * string)))
    (mgr' : ModelManager) (fs' : gmap (list string) node) :
  repair_broken_symlinks E (mgr, fs) = (r, (mgr', fs')) ->
  only_removed fs fs'
  /\ unflags_only mgr mgr'
  /\ match r with
     | Return results =>
         forall n, is_Some (dict_get results n) ->
           exists model, (n, model) ∈ _models mgr /\ is_symlink model = true
     | Raise _ => True
     end.
Proof.
  destruct (repair_loop_only_removes E (_models mgr) [] mgr fs)
    as (results & mgr1 & fs1 & Hrun & Hrem).
  assert (Hrun' : repair_broken_symlinks E (mgr, fs) = (Return results, (mgr1, fs1))).
  { unfold repair_broken_symlinks, bind, lift_local, get. cbn [fst snd]. exact Hrun. }
  rewrite Hrun'. intros [= <- <- <-].
  split; [exact Hrem|].
  destruct (wp_repair_loop E (_models mgr) [] mgr mgr (unflags_only_refl mgr) _ _ _ _ Hrun)
    as [Hun Hres].
  split; [exact Hun|]. intros n Hn. destruct (Hres n Hn) as [[? Hnone]|?]; [|done].
  discriminate Hnone.
Qed.

Lemma repair_only_removes_and_unflags_witness :
  let run := repair_broken_symlinks linux_env (linked_manager llama_on_usb, dangling_fs) in
  only_removed dangling_fs run.2.2
  /\ unflags_only (linked_manager llama_on_usb) run.2.1
  /\ match run.1 with
     | Return results =>
         forall n, is_Some (dict_get results n) ->
           exists model, (n, model) ∈ _models (linked_manager llama_on_usb)
                         /\ is_symlink model = true
     | Raise _ => True
     end.
Proof.
  intros run.
  apply (repair_only_removes_and_unflags linux_env (linked_manager llama_on_usb) dangling_fs
           run.1 run.2.1 run.2.2).
  subst run. by destruct (repair_broken_symlinks _ _) as [r [mgr' fs']].
Defined.



(** ** Removing a model *)

Lemma dict_get_delete_ne {V : Type} (d : list (string * V)) (k n : string) :
  n <> k -> dict_get (dict_delete d k) n = dict_get d n.
Proof.
  intros Hn. induction d as [|[k' v] d IH]; simpl; [done|].
  destruct (decide (k' = k)) as [->|Hne].
  - rewrite bool_decide_true by done. by rewrite bool_decide_false by done.
  - rewrite (bool_decide_false (k' = k)) by done. simpl. by rewrite IH.
Qed.

Lemma dict_get_not_key {V : Type} (d : list (string * V)) (k : string) :
  k ∉ d.*1 -> dict_get d k = None.
Proof.
  induction d as [|[k' v] d IH]; [done|].
  rewrite fmap_cons, not_elem_of_cons. cbn [dict_get fst]. intros [Hne Hd].
  rewrite bool_decide_false by done. by apply IH.
Qed.

Lemma dict_get_delete_eq {V : Type} (d : list (string * V)) (k : string) :
  NoDup d.*1 -> dict_get (dict_delete d k) k = None.
Proof.
  induction d as [|[k' v] d IH]; [done|].
  rewrite fmap_cons, NoDup_cons. cbn [dict_get dict_delete fst]. intros [Hk Hd].
  destruct (decide (k' = k)) as [->|Hne].
  - rewrite bool_decide_true by done. by apply dict_get_not_key.
  - rewrite (bool_decide_false (k' = k)) by done. cbn [dict_get].
    rewrite bool_decide_false by done. by apply IH.
Qed.

Section Shrinks.
Context (E : Env).

Lemma shrinks_ret {A : Type} (a : A) : shrinks (ret a).
Proof. intros mgr fs r mgr' fs' [= _ _ <-]. apply only_removed_refl. Qed.

Lemma shrinks_raise {A : Type} (e : exn) : shrinks (@raise _ A e).
Proof. intros mgr fs r mgr' fs' [= _ _ <-]. apply only_removed_refl. Qed.

Lemma shrinks_lift_local {A : Type} (m : M ModelManager A) : shrinks (lift_local m).
Proof.
  intros mgr fs r mgr' fs'. unfold lift_local. cbn [fst snd].
  destruct (m mgr). intros [= _ _ <-]. apply only_removed_refl.
Qed.

Lemma shrinks_lift_fs {A : Type} (m : M (gmap (list string) node) A) :
  shrinks_fs m -> shrinks (lift_fs m).
Proof.
  intros Hm mgr fs r mgr' fs'. unfold lift_fs. cbn [fst snd].
  destruct (m fs) as [r0 fs1] eqn:Hrun. intros [= _ _ <-]. by eapply Hm.
Qed.

Lemma shrinks_bind {A B : Type} (m : M (ModelManager * gmap (list string) node) A)
    (k : A -> M (ModelManager * gmap (list string) node) B) :
  shrinks m -> (forall a, shrinks (k a)) -> shrinks (bind m k).
Proof.
  intros Hm Hk mgr fs r mgr' fs'. unfold bind.
  destruct (m (mgr, fs)) as [[a|e] [mgr1 fs1]] eqn:Hrun.
  - intros Hrun'. eapply only_removed_trans; [by eapply Hm | by eapply Hk].
  - intros [= _ _ <-]. by eapply Hm.
Qed.

Lemma shrinks_try_except {A : Type} (body : M (ModelManager * gmap (list string) node) A)
    (handler : exn -> M (ModelManager * gmap (list string) node) A) :
  shrinks body -> (forall e, shrinks (handler e)) -> shrinks (try_except body handler).
Proof.
  intros Hm Hk mgr fs r mgr' fs'. unfold try_except.
  destruct (body (mgr, fs)) as [[a|e] [mgr1 fs1]] eqn:Hrun.
  - intros [= _ _ <-]. by eapply Hm.
  - intros Hrun'. eapply only_removed_trans; [by eapply Hm | by eapply Hk].
Qed.

Lemma shrinks_fs_get : shrinks_fs (get : M (gmap (list string) node) _).
Proof. intros fs r fs' [= _ <-]. apply only_removed_refl. Qed.

Lemma shrinks_fs_unlink (p : list string) : shrinks_fs (unlink E p).
Proof.
  intros fs r fs' Hu.
  destruct (unlink_effect E _ _ _ _ Hu) as [(-> & _) | (_ & k & _ & ->)];
    [apply only_removed_refl|apply only_removed_delete].
Qed.

Lemma only_removed_remove_subtree (k : list string) (fs : gmap (list string) node) :
  only_removed fs (remove_subtree k fs).
Proof.
  intros k'. unfold remove_subtree.
  destruct (filter _ fs !! k') as [n|] eqn:Hf; [|by right].
  left. by apply map_lookup_filter_Some in Hf as [-> _].
Qed.

Lemma shrinks_fs_rmtree (p : list string) : shrinks_fs (rmtree E p).
Proof.
  intros fs r fs'. unfold rmtree.
  destruct (locate_entry E p fs) as [k| |]; try (intros [= _ <-]; apply only_removed_refl).
  destruct (node_at fs k) as [[| |]|]; intros [= _ <-];
    first [apply only_removed_refl | apply only_removed_remove_subtree].
Qed.

Lemma shrinks_fs_remove_tree_or_file (p : list string) :
  shrinks_fs (remove_tree_or_file E p).
Proof.
  intros fs r fs'. unfold remove_tree_or_file, bind, get.
  destruct (path_is_dir E p fs); [apply shrinks_fs_rmtree|apply shrinks_fs_unlink].
Qed.

Ltac shrinks_step :=
  first
    [ apply shrinks_ret | apply shrinks_raise | apply shrinks_lift_local
    | apply shrinks_lift_fs;
        first [ apply shrinks_fs_get | apply shrinks_fs_unlink
              | apply shrinks_fs_remove_tree_or_file ]
    | apply shrinks_try_except; [|intros ?]
    | apply shrinks_bind; [|intros ?]
    | match goal with
      | |- shrinks (if ?b then _ else _) => destruct b
      | |- shrinks (match ?x with _ => _ end) => destruct x
      end ].

Lemma shrinks_remove_model (mname : string) : shrinks (remove_model E mname).
Proof. unfold remove_model. repeat shrinks_step. Qed.

Lemma wp_remove_model (mname : string) (mgr : ModelManager) :
  wp (remove_model E mname)
     (fun b mgr' =>
        b = true /\ is_Some (get_model_by_name mgr mname)
        /\ mgr' = set_models (dict_delete (_models mgr) mname) mgr)
     (fun e mgr' =>
        mgr' = mgr
        /\ exn_kind e = match get_model_by_name mgr mname with
                        | Some _ => RuntimeError
                        | None => ValueError
                        end)
     mgr.
Proof.
  unfold remove_model. apply wp_bind, wp_get.
  destruct (get_model_by_name mgr mname) as [model|]; [|by apply wp_raise].
  repeat wp_step ltac:(first [ by split | by repeat split ]).
Qed.

End Shrinks.

(** X21.  Removing a model only ever removes nodes from the filesystem.
    When it returns, it returns [True] and the entry is no longer tracked,
    every other entry being as it was.  When it raises, the manager is
    exactly the one before: a name that is not tracked gives [ValueError]
    and an untouched filesystem; a removal that fails midway gives
    [RuntimeError] and leaves the entry tracked, whatever was already
    removed. *)
Theorem remove_model_untracks_or_keeps (E : Env) (mname : string)
    (mgr : ModelManager) (fs : gmap (list string) node) (r : outcome bool)
    (mgr' : ModelManager) (fs' : gmap (list string) node) :
  NoDup (_models mgr).*1 ->
  remove_model E mname (mgr, fs) = (r, (mgr', fs')) ->
  only_removed fs fs'
  /\ match r with
     | Return b =>
         b = true
         /\ is_Some (get_model_by_name mgr mname)
         /\ get_model_by_name mgr' mname = None
         /\ (forall n, n <> mname -> get_model_by_name mgr' n = get_model_by_name mgr n)
     | Raise e =>
         mgr' = mgr
         /\ (get_model_by_name mgr mname = None -> exn_kind e = ValueError /\ fs' = fs)
         /\ (is_Some (get_model_by_name mgr mname) -> exn_kind e = RuntimeError)
     end.
Proof.
  intros Hnodup Hrun. split; [by eapply shrinks_remove_model|].
  pose proof (wp_remove_model E mname mgr _ _ _ _ Hrun) as Hwp.
  destruct r as [b|e].
  - destruct Hwp as (-> & Hsome & ->). repeat split; try done.
    + unfold get_model_by_name. cbn [_models set_models]. by apply dict_get_delete_eq.
    + intros n Hn. unfold get_model_by_name. cbn [_models set_models].
      by apply dict_get_delete_ne.
  - destruct Hwp as [-> Hkind]. split; [done|]. split.
    + intros Hnone. rewrite Hnone in Hkind. split; [done|].
      revert Hrun. unfold remove_model, bind, lift_local, get. cbn [fst snd].
      rewrite Hnone. intros Heq. by injection Heq.
    + intros [model Hsome]. by rewrite Hsome in Hkind.
Qed.

Lemma remove_model_untracks_or_keeps_witness :
  only_removed local_fs
    (remove_model linux_env "acme/llama" (manager_with "auto" 100, local_fs)).2.2
  /\ get_model_by_name
       (remove_model linux_env "acme/llama" (manager_with "auto" 100, local_fs)).2.1
       "acme/llama" = None.
Proof.
  set (run := remove_model linux_env "acme/llama" (manager_with "auto" 100, local_fs)).
  assert (H1 : run.1 = Return true) by (vm_compute; reflexivity).
  destruct (remove_model_untracks_or_keeps linux_env "acme/llama" (manager_with "auto" 100)
              local_fs (Return true) run.2.1 run.2.2) as (Hfs & _ & _ & Hgone & _).
  - vm_compute. apply NoDup_singleton.
  - exact (run_surjective run _ H1).
  - split; [exact Hfs|exact Hgone].
Defined.

(** ** The health report of the manager *)

Section HealthReport.
Context (E : Env).

Lemma path_resolve_of_existing (p : list string) (fs : gmap (list string) node) :
  path_exists E p fs = true -> exists target, path_resolve E p fs = Return target.
Proof.
  unfold path_exists, stat, path_resolve.
  destruct (locate_follow E p fs) as [k|k|c]; simpl; try discriminate. eauto.
Qed.

Lemma health_link_exists (p : list string) (fs : gmap (list string) node) :
  health_is_broken (check_symlink_health E p fs) = true
  \/ health_target_exists (check_symlink_health E p fs) = true ->
  path_exists E p fs = true /\ path_is_symlink E p fs = true.
Proof.
  rewrite check_symlink_health_eq.
  destruct (path_exists E p fs); cbn [negb]; [|intros [?|?]; discriminate].
  destruct (path_is_symlink E p fs); [done|]. intros [?|?]; discriminate.
Qed.

(** One round of the loop: it returns, and adds the name to at most one
    list. *)
Lemma check_health_entry_effect (mname : string) (model : ModelInfo)
    (issues : HealthIssues) (fs : gmap (list string) node) :
  exists issues',
    check_health_entry E (mname, model) issues fs = Return issues'
    /\ missing_targets issues' = missing_targets issues
    /\ (broken_symlinks issues' = broken_symlinks issues
        \/ broken_symlinks issues' = broken_symlinks issues ++ [mname]
           /\ is_symlink model = true
           /\ health_is_broken (check_symlink_health E (path model) fs) = true)
    /\ (empty_directories issues' = empty_directories issues
        \/ empty_directories issues' = empty_directories issues ++ [mname]
           /\ is_symlink model = true
           /\ health_is_broken (check_symlink_health E (path model) fs) = false
           /\ health_target_exists (check_symlink_health E (path model) fs) = true).
Proof.
  unfold check_health_entry.
  destruct (is_symlink model); [|by eauto 10].
  destruct (health_is_broken _) eqn:Hb; [by eauto 10|].
  destruct (health_target_exists _) eqn:Ht; [|by eauto 10].
  destruct (health_link_exists (path model) fs (or_intror Ht)) as [Hex _].
  destruct (path_resolve_of_existing _ _ Hex) as [target ->].
  destruct (path_is_dir E target fs); [|by eauto 10].
  destruct (_ =? 0); eauto 10.
Qed.

Lemma check_health_loop_effect (items : list (string * ModelInfo)) :
  forall (issues : HealthIssues) (fs : gmap (list string) node),
    exists issues',
      check_health_loop E items issues fs = Return issues'
      /\ missing_targets issues' = missing_targets issues
      /\ (forall n, n ∈ broken_symlinks issues' ->
            n ∈ broken_symlinks issues
            \/ exists model, (n, model) ∈ items /\ is_symlink model = true
                 /\ health_is_broken (check_symlink_health E (path model) fs) = true)
      /\ (forall n, n ∈ empty_directories issues' ->
            n ∈ empty_directories issues
            \/ exists model, (n, model) ∈ items /\ is_symlink model = true
                 /\ health_is_broken (check_symlink_health E (path model) fs) = false
                 /\ health_target_exists (check_symlink_health E (path model) fs) = true).
Proof.
  induction items as [|[mname model] rest IH]; intros issues fs.
  - exists issues. by repeat split; auto.
  - cbn [check_health_loop].
    destruct (check_health_entry_effect mname model issues fs)
      as (issues1 & -> & Hm1 & Hb1 & He1).
    destruct (IH issues1 fs) as (issues' & -> & Hm & Hb & He).
    exists issues'. split; [done|]. split; [congruence|]. split.
    + intros n Hn. destruct (Hb n Hn) as [Hn1 | (m & Hin & Hrest)].
      * destruct Hb1 as [Heq | (Heq & Hl & Hbr)]; rewrite Heq in Hn1; [by left|].
        apply elem_of_app in Hn1 as [?|Hn1]; [by left|].
        apply list_elem_of_singleton in Hn1 as ->. right. exists model.
        split; [apply list_elem_of_here|done].
      * right. exists m. split; [by apply list_elem_of_further|done].
    + intros n Hn. destruct (He n Hn) as [Hn1 | (m & Hin & Hrest)].
      * destruct He1 as [Heq | (Heq & Hl & Hbr)]; rewrite Heq in Hn1; [by left|].
        apply elem_of_app in Hn1 as [?|Hn1]; [by left|].
        apply list_elem_of_singleton in Hn1 as ->. right. exists model.
        split; [apply list_elem_of_here|done].
      * right. exists m. split; [by apply list_elem_of_further|done].
Qed.

End HealthReport.

(** X22.  In a health report that the function returns, the list of
    missing targets is empty; a name is reported as a broken link only for
    a tracked link entry that the health check calls broken, and as an
    empty directory only for one it calls sound.  Every reported entry is a
    link whose path resolves: an entry whose link dangles is reported in no
    list. *)
Theorem check_health_reports (E : Env) (mgr : ModelManager)
    (fs : gmap (list string) node) (issues : HealthIssues) :
  check_health E mgr fs = Return issues ->
  missing_targets issues = []
  /\ (forall n, n ∈ broken_symlinks issues ->
        exists model, (n, model) ∈ _models mgr /\ is_symlink model = true
          /\ health_is_broken (check_symlink_health E (path model) fs) = true)
  /\ (forall n, n ∈ empty_directories issues ->
        exists model, (n, model) ∈ _models mgr /\ is_symlink model = true
          /\ health_is_broken (check_symlink_health E (path model) fs) = false
          /\ health_target_exists (check_symlink_health E (path model) fs) = true)
  /\ (forall n, n ∈ broken_symlinks issues \/ n ∈ empty_directories issues ->
        exists model, (n, model) ∈ _models mgr
          /\ path_exists E (path model) fs = true
          /\ path_is_symlink E (path model) fs = true).
Proof.
  unfold check_health.
  destruct (check_health_loop_effect E (_models mgr) (mkHealthIssues [] [] []) fs)
    as (issues' & Hrun & Hm & Hb & He).
  rewrite Hrun. intros [= <-]. split; [exact Hm|].
  assert (Hb' : forall n, n ∈ broken_symlinks issues' ->
            exists model, (n, model) ∈ _models mgr /\ is_symlink model = true
              /\ health_is_broken (check_symlink_health E (path model) fs) = true).
  { intros n Hn. destruct (Hb n Hn) as [Hnil|?]; [|done]. by apply elem_of_nil in Hnil. }
  assert (He' : forall n, n ∈ empty_directories issues' ->
            exists model, (n, model) ∈ _models mgr /\ is_symlink model = true
              /\ health_is_broken (check_symlink_health E (path model) fs) = false
              /\ health_target_exists (check_symlink_health E (path model) fs) = true).
  { intros n Hn. destruct (He n Hn) as [Hnil|?]; [|done]. by apply elem_of_nil in Hnil. }
  split; [exact Hb'|]. split; [exact He'|].
  intros n [Hn|Hn].
  - destruct (Hb' n Hn) as (model & Hin & _ & Hbr). exists model. split; [done|].
    apply health_link_exists. by left.
  - destruct (He' n Hn) as (model & Hin & _ & _ & Ht). exists model. split; [done|].
    apply health_link_exists. by right.
Qed.

(** A link with a relative target that the health check calls broken is
    the one entry of the report. *)
Lemma check_health_reports_witness :
  missing_targets (mkHealthIssues ["acme/llama"] [] []) = []
  /\ (forall n, n ∈ broken_symlinks (mkHealthIssues ["acme/llama"] [] []) ->
        exists model, (n, model) ∈ _models (linked_manager ["data"])
          /\ is_symlink model = true
          /\ health_is_broken (check_symlink_health linux_env (path model) relative_link_fs)
             = true)
  /\ (forall n, n ∈ empty_directories (mkHealthIssues ["acme/llama"] [] []) ->
        exists model, (n, model) ∈ _models (linked_manager ["data"])
          /\ is_symlink model = true
          /\ health_is_broken (check_symlink_health linux_env (path model) relative_link_fs)
             = false
          /\ health_target_exists
               (check_symlink_health linux_env (path model) relative_link_fs) = true)
  /\ (forall n, n ∈ broken_symlinks (mkHealthIssues ["acme/llama"] [] [])
               \/ n ∈ empty_directories (mkHealthIssues ["acme/llama"] [] []) ->
        exists model, (n, model) ∈ _models (linked_manager ["data"])
          /\ path_exists linux_env (path model) relative_link_fs = true
          /\ path_is_symlink linux_env (path model) relative_link_fs = true).
Proof.
  apply (check_health_reports linux_env (linked_manager ["data"]) relative_link_fs
           (mkHealthIssues ["acme/llama"] [] [])).
  vm_compute; reflexivity.
Defined.

(** The dangling link of claim C7, seen by the report: nothing. *)
Example check_health_blind_to_dangling_link :
  check_health linux_env (linked_manager llama_on_usb) dangling_fs
  = Return (mkHealthIssues [] [] []).
Proof. vm_compute; reflexivity. Qed.

(** ** Large files and the move set *)

Lemma List_filter_filter {A : Type} (p q : A -> bool) (l : list A) :
  List.filter p (List.filter q l) = List.filter (fun x => q x && p x) l.
Proof.
  induction l as [|x l IH]; [done|]. cbn [List.filter].
  destruct (q x); cbn [andb List.filter]; [|exact IH]. destruct (p x); by rewrite IH.
Qed.

Section LargeFiles.
Context (E : Env) (fs : gmap (list string) node).

Lemma get_large_files_filter (size_threshold : Z) (files large_files : list (list string)) :
  large_files_loop E size_threshold fs files large_files
  = Return (large_files
              ++ List.filter (eligible_to_move E fs size_threshold [])
                   (List.filter (fun f => path_is_file E f fs) files)).
Proof.
  revert large_files. induction files as [|f files IH]; intros large_files.
  - cbn. by rewrite app_nil_r.
  - cbn [List.filter large_files_loop]. destruct (path_is_file E f fs) eqn:Hf; [|apply IH].
    destruct (st_size_of_file E f fs Hf) as [size Hsize]. rewrite Hsize.
    cbn [List.filter]. unfold eligible_to_move at 1. rewrite Hsize.
    cbn [should_keep_local existsb negb andb].
    destruct (size >=? size_threshold); rewrite IH; [|done].
    by rewrite <- app_assoc.
Qed.

End LargeFiles.

(** X23.  The large files of a directory are its regular files of at least
    the threshold size, each once and in the order of the listing, and the
    function cannot fail on them; the move set of the per-file strategy is
    this list without the files that match a keep-local pattern. *)
Theorem move_set_is_large_files_not_kept (E : Env) (fs : gmap (list string) node)
    (entry : list string) (size_threshold : Z) (keep_patterns : list string) :
  exists large files_to_move files_to_keep,
    get_large_files E entry size_threshold fs = Return large
    /\ large
       = List.filter
           (fun f => path_is_file E f fs
                     && match st_size E f fs with
                        | Return size => size >=? size_threshold
                        | Raise _ => false
                        end)
           (rglob E entry fs)
    /\ partition_files E fs size_threshold keep_patterns
         (List.filter (fun f => path_is_file E f fs) (rglob E entry fs)) [] []
       = Return (files_to_move, files_to_keep)
    /\ files_to_move
       = List.filter (fun f => negb (should_keep_local E f keep_patterns)) large.
Proof.
  set (all_files := List.filter (fun f => path_is_file E f fs) (rglob E entry fs)).
  exists (List.filter (eligible_to_move E fs size_threshold []) all_files).
  eexists _, _. split; [|split; [|split]].
  - unfold get_large_files. destruct (path_is_dir E entry fs) eqn:Hd; cbn [negb].
    + by rewrite get_large_files_filter.
    + subst all_files. unfold rglob, path_is_dir, stat in *.
      destruct (locate_follow E entry fs) as [k| |]; simpl in *; try done.
      by destruct (node_at fs k) as [[| |]|].
  - subst all_files. rewrite List_filter_filter. apply List.filter_ext. intros f.
    unfold eligible_to_move. by cbn [should_keep_local existsb negb andb].
  - apply partition_files_filter. subst all_files.
    apply List.Forall_forall. intros f Hf. by apply filter_In in Hf as [_ ?].
  - cbn [app]. rewrite List_filter_filter. apply List.filter_ext. intros f.
    unfold eligible_to_move. cbn [should_keep_local existsb negb andb].
    apply andb_comm.
Qed.

(** ** Restoration: a failed validation still runs the recovery *)

(** X24.  The validation of [safe_restore_from_usb] sits inside the [try]
    block, so its failure runs the recovery block too.  When the path to
    restore is not a link but exists, and the parent of the source on the
    removable root exists, the call raises the validation error after it
    has tried to move the local path to the source on the root: the state
    it leaves is the one [shutil.move] of the local path to that source
    leaves. *)
Theorem safe_restore_of_non_link_moves_local_away (E : Env)
    (p usb_source : list string) (fs : gmap (list string) node) :
  path_exists E p fs = true ->
  path_is_symlink E p fs = false ->
  path_exists E (path_parent usb_source) fs = true ->
  safe_restore_from_usb E p usb_source p fs
  = (Raise (Exn ValueError "Path is not a symlink"), (shutil_move E p usb_source fs).2).
Proof.
  intros Hex Hnl Hpar.
  unfold safe_restore_from_usb, with_locals, try_except.
  unfold bind at 1. unfold lift_fs at 1, get at 1. cbn [fst snd].
  unfold bind at 1. rewrite Hex, Hnl. cbn [negb]. unfold raise at 1.
  unfold bind at 1. unfold try_pass, try_except.
  unfold bind at 1. unfold lift_fs at 1, get at 1. cbn [fst snd].
  unfold bind at 1. rewrite Hex, Hpar.
  unfold lift_fs at 1. cbn [fst snd].
  destruct (shutil_move E p usb_source fs) as [[[]|e] fs1]; cbn [fst snd].
  - unfold bind, lift_fs, lift_local, get, ret, raise. cbn [fst snd]. reflexivity.
  - unfold ret, raise. cbn [fst snd]. reflexivity.
Qed.

Lemma safe_restore_of_non_link_moves_local_away_witness :
  safe_restore_from_usb linux_env llama_path llama_on_usb llama_path diverged_fs
  = (Raise (Exn ValueError "Path is not a symlink"),
     (shutil_move linux_env llama_path llama_on_usb diverged_fs).2).
Proof.
  apply (safe_restore_of_non_link_moves_local_away linux_env llama_path llama_on_usb
           diverged_fs); vm_compute; reflexivity.
Defined.

(** The same through the manager: the restoration of an entry whose flag is
    stale fails, and the local directory is then inside the directory on
    the removable root. *)
Example restoration_with_stale_flag :
  let run := move_model_from_usb linux_env "acme/llama"
               (linked_manager llama_on_usb, diverged_fs) in
  run.1 = Raise (Exn RuntimeError
                   "Failed to restore model from USB: Path is not a symlink")
  /\ run.2.2 !! llama_path = None
  /\ run.2.2 !! (llama_path ++ ["weights.gguf"]) = None
  /\ run.2.2 !! (llama_on_usb ++ ["llama"; "weights.gguf"]) = Some (File ["005"; "006"]%byte)
  /\ run.2.2 !! (llama_on_usb ++ ["weights.gguf"])
     = Some (File ["001"; "002"; "003"; "004"]%byte).
Proof. repeat split; vm_compute; reflexivity. Qed.

(** * Moving a single file *)

(** ** What a well-formed filesystem excludes *)

Lemma well_formed_parent (fs : gmap (list string) node) (k : list string) (n : node) :
  well_formed fs = true -> fs !! k = Some n -> node_at fs (removelast k) = Some Dir.
Proof.
  unfold well_formed. rewrite forallb_forall. intros Hwf Hk.
  specialize (Hwf (k, n)). rewrite <- list_elem_of_In, elem_of_map_to_list in Hwf.
  specialize (Hwf Hk). by apply bool_decide_eq_true in Hwf.
Qed.

(** Above a node there are only directories. *)
Lemma well_formed_above (fs : gmap (list string) node) :
  well_formed fs = true ->
  forall rest ks n, rest <> [] -> ks <> [] ->
    fs !! (ks ++ rest) = Some n -> node_at fs ks = Some Dir.
Proof.
  intros Hwf rest. induction rest as [|c rest IH] using rev_ind; [done|].
  intros ks n _ Hks Hk.
  pose proof (well_formed_parent fs _ _ Hwf Hk) as Hp.
  rewrite app_assoc, removelast_last in Hp.
  destruct rest as [|c' rest']; [by rewrite app_nil_r in Hp|].
  unfold node_at in Hp. case_bool_decide as Hroot.
  - destruct ks as [|r ks]; [done|]. injection Hroot as _ Hroot.
    by destruct ks.
  - eapply IH; [done|done|exact Hp].
Qed.

Lemma nothing_below_file (fs : gmap (list string) node) (ks k : list string)
    (data : list byte) :
  well_formed fs = true -> node_at fs ks = Some (File data) ->
  ks `prefix_of` k -> is_Some (fs !! k) -> k = ks.
Proof.
  intros Hwf Hks [rest ->] [n Hn]. destruct rest as [|c rest]; [by rewrite app_nil_r|].
  assert (ks <> []).
  { intros ->. pose proof Hks as Hks'.
    unfold node_at in Hks'. rewrite bool_decide_false in Hks' by done.
    pose proof (well_formed_parent fs _ _ Hwf Hks') as Hp. simpl in Hp. congruence. }
  assert (node_at fs ks = Some Dir)
    by (apply (well_formed_above fs Hwf (c :: rest) ks n); done).
  congruence.
Qed.

Lemma nothing_below_missing (fs : gmap (list string) node) (kd k : list string) :
  well_formed fs = true -> node_at fs kd = None -> kd <> [] ->
  kd `prefix_of` k -> fs !! k = None.
Proof.
  intros Hwf Hkd Hne [rest ->]. destruct (fs !! (kd ++ rest)) as [n|] eqn:Hn; [|done].
  destruct rest as [|c rest].
  - rewrite app_nil_r in Hn. unfold node_at in Hkd. case_bool_decide; congruence.
  - assert (node_at fs kd = Some Dir)
      by (apply (well_formed_above fs Hwf (c :: rest) kd n); done).
    congruence.
Qed.

(** ** Renaming a regular file *)

Lemma singleton_by_elements {A : Type} (l : list A) (a : A) :
  NoDup l -> (forall x, x ∈ l <-> x = a) -> l = [a].
Proof.
  intros Hnd Hel. destruct l as [|x l].
  - pose proof (proj2 (Hel a) eq_refl) as Hin. by apply elem_of_nil in Hin.
  - assert (x = a) as -> by (apply Hel, list_elem_of_here).
    destruct l as [|y l]; [done|].
    assert (y = a) as -> by (apply Hel, list_elem_of_further, list_elem_of_here).
    apply NoDup_cons in Hnd as [Hnot _]. destruct Hnot. apply list_elem_of_here.
Qed.

Section MoveFile.
Context (fs : gmap (list string) node) (ks kd : list string) (data : list byte).
Hypothesis (Hwf : well_formed fs = true).
Hypothesis (Hks : node_at fs ks = Some (File data)).
Hypothesis (Hkd : node_at fs kd = None).
Hypothesis (Hkd_ne : kd <> []).

Lemma file_key_in_map : fs !! ks = Some (File data).
Proof. unfold node_at in Hks. by case_bool_decide. Qed.

Lemma subtree_list_file : subtree_list ks fs = [(ks, File data)].
Proof.
  unfold subtree_list. apply singleton_by_elements.
  - apply NoDup_ListNoDup, List.NoDup_filter, NoDup_ListNoDup, NoDup_map_to_list.
  - intros [k n]. rewrite elem_of_List_filter, elem_of_map_to_list, bool_decide_eq_true.
    cbn [fst]. split.
    + intros [Hk Hpre].
      assert (k = ks) as -> by (eapply nothing_below_file; eauto).
      rewrite file_key_in_map in Hk. congruence.
    + intros [= -> ->]. split; [apply file_key_in_map|done].
Qed.

Lemma remove_subtree_file : remove_subtree ks fs = delete ks fs.
Proof.
  unfold remove_subtree. apply map_eq. intros k.
  destruct (decide (k = ks)) as [->|Hne].
  - rewrite lookup_delete_eq. apply map_lookup_filter_None. right. intros n _ Hnot.
    by apply Hnot.
  - rewrite lookup_delete_ne by done.
    destruct (fs !! k) as [n|] eqn:Hk.
    + apply map_lookup_filter_Some. split; [done|]. cbn [fst]. intros Hpre.
      apply Hne. eapply nothing_below_file; eauto.
    + apply map_lookup_filter_None. by left.
Qed.

Lemma remove_subtree_missing (fs' : gmap (list string) node) :
  fs' ⊆ fs -> remove_subtree kd fs' = fs'.
Proof.
  intros Hsub. unfold remove_subtree. apply map_filter_id. intros k n Hk. cbn [fst].
  intros Hpre. eapply lookup_weaken in Hk; [|exact Hsub].
  rewrite (nothing_below_missing fs kd k) in Hk by done. discriminate.
Qed.

Lemma move_subtree_file : move_subtree ks kd fs = <[kd := File data]> (delete ks fs).
Proof.
  unfold move_subtree. rewrite subtree_list_file, remove_subtree_file.
  rewrite remove_subtree_missing by apply delete_subseteq.
  cbn [foldr fst snd]. by rewrite drop_all, app_nil_r.
Qed.

End MoveFile.

(** A walk that ends on a directory only looked at directories and links:
    it ends there in every filesystem that has these as they are. *)
Lemma walk_agree (fs fs' : gmap (list string) node) :
  (forall k, node_at fs k = Some Dir -> node_at fs' k = Some Dir) ->
  (forall k t, node_at fs k = Some (Symlink t) -> node_at fs' k = Some (Symlink t)) ->
  forall hops cur todo d,
    walk hops fs cur todo = Found d -> node_at fs d = Some Dir ->
    walk hops fs' cur todo = Found d.
Proof.
  intros Hdir Hlink hops. induction hops as [|h IHh]; intros cur todo; revert cur.
  - induction todo as [|c rest IH]; intros cur d; [by rewrite !walk_nil|].
    rewrite !walk_cons. case_bool_decide; auto.
    destruct (node_at fs (cur ++ [c])) as [[data| |t]|] eqn:Hn.
    + destruct rest; [|intros Hw; discriminate Hw]. intros [= <-] Hd. congruence.
    + rewrite (Hdir _ Hn). auto.
    + intros Hw; discriminate Hw.
    + destruct rest; intros Hw; discriminate Hw.
  - induction todo as [|c rest IH]; intros cur d; [by rewrite !walk_nil|].
    rewrite !walk_cons. case_bool_decide; auto.
    destruct (node_at fs (cur ++ [c])) as [[data| |t]|] eqn:Hn.
    + destruct rest; [|intros Hw; discriminate Hw]. intros [= <-] Hd. congruence.
    + rewrite (Hdir _ Hn). auto.
    + rewrite (Hlink _ _ Hn). destruct (is_absolute t); auto.
    + destruct rest; intros Hw; discriminate Hw.
Qed.

Lemma node_at_insert_ne (fs : gmap (list string) node) (k k' : list string) (n : node) :
  k' <> k -> node_at (<[k := n]> fs) k' = node_at fs k'.
Proof. intros Hne. unfold node_at. case_bool_decide; [done|]. by rewrite lookup_insert_ne. Qed.

Lemma node_at_delete_ne (fs : gmap (list string) node) (k k' : list string) :
  k' <> k -> node_at (delete k fs) k' = node_at fs k'.
Proof. intros Hne. unfold node_at. case_bool_decide; [done|]. by rewrite lookup_delete_ne. Qed.

Lemma node_at_insert_eq (fs : gmap (list string) node) (k : list string) (n : node) :
  k <> ["/"] -> node_at (<[k := n]> fs) k = Some n.
Proof. intros Hne. unfold node_at. rewrite bool_decide_false by done. apply lookup_insert_eq. Qed.

Section FileMove.
Context (E : Env) (fs : gmap (list string) node).
Context (sd : list string) (sname : string) (dd : list string) (dname : string).
Context (data : list byte).
Hypothesis (Hwf : well_formed fs = true).
Hypothesis (Hsname : plain_name sname) (Hdname : plain_name dname).
Hypothesis (Hsd : locate_follow E sd fs = Found sd).
Hypothesis (Hdd : locate_follow E dd fs = Found dd).
Hypothesis (Hdir : node_at fs dd = Some Dir).
Hypothesis (Hsrc : node_at fs (sd ++ [sname]) = Some (File data)).
Hypothesis (Hdst : node_at fs (dd ++ [dname]) = None).

Let source := path_join sd sname.
Let destination := path_join dd dname.
Let moved := <[dd ++ [dname] := File data]> (delete (sd ++ [sname]) fs).

Lemma source_dir : node_at fs sd = Some Dir.
Proof.
  pose proof (file_key_in_map fs _ _ Hsrc) as Hk.
  pose proof (well_formed_parent fs _ _ Hwf Hk) as Hp. by rewrite removelast_last in Hp.
Qed.

Lemma locate_source :
  locate_entry E source fs = Found (sd ++ [sname])
  /\ locate_follow E source fs = Found (sd ++ [sname]).
Proof.
  split.
  - unfold source. rewrite (locate_entry_join E sd sname fs Hsname), Hsd, source_dir.
    by rewrite Hsrc.
  - unfold source. rewrite (locate_follow_join E sd sname fs sd Hsname Hsd source_dir).
    + by rewrite Hsrc.
    + intros t. by rewrite Hsrc.
Qed.

Lemma locate_destination :
  locate_entry E destination fs = Missing (dd ++ [dname])
  /\ locate_follow E destination fs = Missing (dd ++ [dname]).
Proof.
  split.
  - unfold destination. rewrite (locate_entry_join E dd dname fs Hdname), Hdd, Hdir.
    by rewrite Hdst.
  - unfold destination. rewrite (locate_follow_join E dd dname fs dd Hdname Hdd Hdir).
    + by rewrite Hdst.
    + intros t. by rewrite Hdst.
Qed.

Lemma keys_apart :
  sd ++ [sname] <> dd ++ [dname] /\ ~ (sd ++ [sname]) `prefix_of` (dd ++ [dname]).
Proof.
  assert (Hne : sd ++ [sname] <> dd ++ [dname]) by congruence.
  split; [exact Hne|]. intros Hpre.
  apply prefix_of_snoc in Hpre as [?|Hpre]; [done|].
  assert (dd = sd ++ [sname]); [|congruence].
  assert (Hin : is_Some (fs !! dd) \/ dd = ["/"]).
  { unfold node_at in Hdir. case_bool_decide; [by right|left; eauto]. }
  destruct Hin as [Hin| ->].
  - eapply nothing_below_file; eauto.
  - destruct Hpre as [rest Hrest]. destruct sd as [|r sd']; simpl in Hrest.
    + injection Hrest as <- _. by destruct Hsname as (_ & _ & ?).
    + injection Hrest as _ Hrest. by destruct sd'.
Qed.

Lemma os_rename_file : os_rename E source destination fs = (Return tt, moved).
Proof.
  unfold os_rename. destruct locate_source as [-> _]. destruct locate_destination as [-> _].
  destruct keys_apart as [Hne Hpre].
  rewrite bool_decide_false by done. rewrite bool_decide_false by done.
  rewrite Hsrc, Hdst. unfold moved. f_equal. apply move_subtree_file; try done.
  by destruct dd.
Qed.

Lemma shutil_move_file : shutil_move E source destination fs = (Return tt, moved).
Proof.
  unfold shutil_move, bind, get.
  assert (path_is_dir E destination fs = false) as ->.
  { unfold path_is_dir, stat. by destruct locate_destination as [_ ->]. }
  unfold try_except_when. by rewrite os_rename_file.
Qed.

Lemma moved_keeps (k : list string) (n : node) :
  node_at fs k = Some n -> n = Dir \/ (exists t, n = Symlink t) -> node_at moved k = Some n.
Proof.
  intros Hk Hn. unfold moved.
  rewrite node_at_insert_ne, node_at_delete_ne; [done| |]; intros ->;
    destruct Hn as [->|[t ->]]; congruence.
Qed.

Lemma destination_not_root : dd ++ [dname] <> ["/"].
Proof. apply join_not_root. by destruct Hdname as (_ & _ & ?). Qed.

Lemma stat_moved : stat E destination moved = Some (File data).
Proof.
  assert (Hdd' : locate_follow E dd moved = Found dd).
  { revert Hdd. unfold locate_follow.
    destruct (is_absolute dd); intros Hw; (eapply walk_agree; [| |exact Hw|exact Hdir]);
      intros; apply moved_keeps; eauto. }
  assert (Hnode : node_at moved (dd ++ [dname]) = Some (File data)).
  { unfold moved. apply node_at_insert_eq, destination_not_root. }
  unfold stat, destination.
  rewrite (locate_follow_join E dd dname moved dd Hdname Hdd').
  - rewrite Hnode. simpl. exact Hnode.
  - apply moved_keeps; auto.
  - intros t. by rewrite Hnode.
Qed.

End FileMove.

Lemma safe_move_file_run (E : Env) (fs : gmap (list string) node)
    (sd : list string) (sname : string) (dd : list string) (dname : string)
    (data : list byte) (monitor_usb_path : option (list string)) :
  well_formed fs = true ->
  plain_name sname -> plain_name dname ->
  locate_follow E sd fs = Found sd ->
  locate_follow E dd fs = Found dd ->
  node_at fs dd = Some Dir ->
  node_at fs (sd ++ [sname]) = Some (File data) ->
  node_at fs (dd ++ [dname]) = None ->
  data <> [] ->
  monitor_quiet E monitor_usb_path fs ->
  safe_move_with_verification E (path_join sd sname) (path_join dd dname)
    monitor_usb_path fs
  = (Return true, <[dd ++ [dname] := File data]> (delete (sd ++ [sname]) fs)).
Proof.
  intros Hwf Hsname Hdname Hsd Hdd Hdir Hsrc Hdst Hdata Hmon.
  pose proof (locate_source E fs sd sname data Hwf Hsname Hsd Hsrc) as [_ Hls].
  pose proof (locate_destination E fs dd dname Hdname Hdd Hdir Hdst) as [_ Hld].
  pose proof (shutil_move_file E fs sd sname dd dname data Hwf Hsname Hdname Hsd Hdd
                Hdir Hsrc Hdst) as Hmove.
  pose proof (stat_moved E fs sd sname dd dname data Hdname Hdd Hdir Hsrc Hdst) as Hstat.
  assert (Hlen : Z.of_nat (length data) <> 0) by (destruct data; [done|simpl; lia]).
  assert (Hfile : path_is_file E (path_join sd sname) fs = true).
  { unfold path_is_file, stat. rewrite Hls. simpl. by rewrite Hsrc. }
  unfold safe_move_with_verification.
  assert (Hpre : match monitor_usb_path with
                 | Some usb =>
                     usb_check <- verify_usb_mounted E usb (1024 * 1024 * 100) ;;
                     if negb (is_mounted usb_check && is_writable usb_check)
                     then raise (Exn RuntimeError
                                   ("USB verification failed before operation: "
                                      +:+ error_message usb_check))
                     else ret tt
                 | None => ret tt
                 end fs = (Return tt, fs)).
  { destruct monitor_usb_path as [usb|]; [|reflexivity].
    destruct Hmon as [(status & Hv & Hm & Hw) _].
    unfold bind. by rewrite Hv, Hm, Hw. }
  unfold bind at 1. rewrite Hpre. unfold bind at 1. unfold get at 1.
  assert (path_exists E (path_join dd dname) fs = false) as ->.
  { unfold path_exists, stat. by rewrite Hld. }
  unfold try_except. unfold bind at 1. unfold ret at 1.
  unfold bind at 1. unfold get at 1. rewrite Hfile.
  unfold bind at 1. unfold lift_outcome at 1, st_size at 1, stat at 1.
  rewrite Hls. cbn [node_of]. rewrite Hsrc.
  assert (Hrun : (if (Z.of_nat (length data) >? 1024 * 1024 * 1024)
                     || match monitor_usb_path with Some _ => true | None => false end
                  then _monitored_move E (path_join sd sname) (path_join dd dname)
                         monitor_usb_path
                  else shutil_move E (path_join sd sname) (path_join dd dname)) fs
                 = (Return tt, <[dd ++ [dname] := File data]> (delete (sd ++ [sname]) fs))).
  { destruct (_ || _); [|exact Hmove].
    unfold _monitored_move, try_finally, bind, get. rewrite Hfile, Hmove.
    destruct monitor_usb_path as [usb|]; [|reflexivity].
    destruct Hmon as [_ ->]. reflexivity. }
  unfold bind at 1. rewrite Hrun.
  unfold bind at 1. unfold verify_the_move. unfold bind at 1. unfold get at 1.
  unfold path_is_file at 1, path_exists at 1, st_size at 1. rewrite Hstat. cbn [negb].
  unfold bind at 1. unfold lift_outcome at 1.
  rewrite (proj2 (Z.eqb_neq _ _) Hlen). unfold ret at 1.
  reflexivity.
Qed.



(** * Restoring a single file *)

(** ** Paths that are their own keys *)

Lemma walk_through_dirs (fs : gmap (list string) node) :
  forall comps hops cur rest,
    Forall plain_name comps ->
    (forall i, (i < length comps)%nat -> node_at fs (cur ++ take (S i) comps) = Some Dir) ->
    walk hops fs cur (comps ++ rest) = walk hops fs (cur ++ comps) rest.
Proof.
  induction comps as [|c comps IH]; intros hops cur rest Hplain Hdirs.
  - by rewrite app_nil_r.
  - apply Forall_cons in Hplain as [(_ & Hc & _) Hplain].
    rewrite <- app_comm_cons, walk_cons, bool_decide_false by done.
    pose proof (Hdirs 0%nat ltac:(simpl; lia)) as H0. simpl in H0. rewrite take_0 in H0. rewrite H0.
    rewrite IH; [by rewrite <- app_assoc|done|].
    intros i Hi. rewrite <- app_assoc. apply (Hdirs (S i)). simpl. lia.
Qed.

Lemma walk_from_chain (fs : gmap (list string) node) (d : list string) :
  dir_chain fs d -> Forall plain_name (List.tl d) ->
  forall hops rest, walk hops fs ["/"] (List.tl d ++ rest) = walk hops fs d rest.
Proof.
  intros [Habs Hdirs] Hplain hops rest.
  destruct d as [|r comps]; [discriminate|].
  simpl in Habs. apply bool_decide_eq_true in Habs as ->. cbn [List.tl] in *.
  rewrite walk_through_dirs; [done|done|].
  intros i Hi. apply Hdirs; [|done].
  exists (drop (S i) comps). cbn [app]. f_equal. by rewrite take_drop.
Qed.

Lemma locate_follow_chain (E : Env) (fs : gmap (list string) node) (d : list string) :
  dir_chain fs d -> Forall plain_name (List.tl d) -> locate_follow E d fs = Found d.
Proof.
  intros Hc Hplain. unfold locate_follow. rewrite (proj1 Hc).
  rewrite <- (app_nil_r (List.tl d)), walk_from_chain by done. apply walk_nil.
Qed.

Lemma dir_chain_agree (fs fs' : gmap (list string) node) (d : list string) :
  (forall k, node_at fs k = Some Dir -> node_at fs' k = Some Dir) ->
  dir_chain fs d -> dir_chain fs' d.
Proof. intros Hagree [Habs Hdirs]. split; [done|]. auto. Qed.

Lemma dir_chain_of_well_formed (fs : gmap (list string) node) (d : list string) :
  well_formed fs = true -> is_absolute d = true -> node_at fs d = Some Dir ->
  dir_chain fs d.
Proof.
  intros Hwf Habs Hd. split; [done|]. intros k [rest ->] Hk.
  destruct rest as [|c rest]; [by rewrite app_nil_r in Hd|].
  unfold node_at in Hd. case_bool_decide as Hroot.
  - destruct k as [|r k]; [done|]. injection Hroot as -> Hroot. by destruct k.
  - by apply (well_formed_above fs Hwf (c :: rest) k Dir).
Qed.

(** ** Well-formedness is kept *)

Lemma well_formed_spec (fs : gmap (list string) node) :
  well_formed fs = true
  <-> forall k n, fs !! k = Some n -> node_at fs (removelast k) = Some Dir.
Proof.
  split; [intros Hwf k n; by apply well_formed_parent|].
  intros H. unfold well_formed. apply forallb_forall. intros [k n] Hin.
  apply list_elem_of_In, elem_of_map_to_list in Hin. apply bool_decide_eq_true. eauto.
Qed.

Lemma well_formed_insert (fs : gmap (list string) node) (k : list string) (n : node) :
  well_formed fs = true -> node_at fs k = None ->
  node_at fs (removelast k) = Some Dir ->
  well_formed (<[k := n]> fs) = true.
Proof.
  rewrite !well_formed_spec. intros Hwf Hk Hp k' n' Hk'.
  assert (Hkeep : forall q, node_at fs q = Some Dir -> node_at (<[k := n]> fs) q = Some Dir).
  { intros q Hq. rewrite node_at_insert_ne; [done|]. congruence. }
  destruct (decide (k' = k)) as [->|Hne]; [by apply Hkeep|].
  rewrite lookup_insert_ne in Hk' by done. apply Hkeep. eauto.
Qed.

Lemma well_formed_delete (fs : gmap (list string) node) (k : list string) (n : node) :
  well_formed fs = true -> node_at fs k = Some n -> n <> Dir ->
  well_formed (delete k fs) = true.
Proof.
  rewrite !well_formed_spec. intros Hwf Hk Hn k' n' Hk'.
  destruct (decide (k' = k)) as [->|Hne]; [by rewrite lookup_delete_eq in Hk'|].
  rewrite lookup_delete_ne in Hk' by done.
  rewrite node_at_delete_ne; [eauto|]. intros Heq.
  specialize (Hwf _ _ Hk'). rewrite Heq in Hwf. congruence.
Qed.

(** ** The name of the backup *)

Lemma string_length_app (a b : string) :
  String.length (a +:+ b) = (String.length a + String.length b)%nat.
Proof. induction a as [|c a IH]; simpl; [done|]. by rewrite IH. Qed.

Lemma backup_name_plain (E : Env) (c : string) :
  plain_name (c +:+ ".backup_" +:+ pid_str E) /\ c +:+ ".backup_" +:+ pid_str E <> c.
Proof.
  assert (Hlen : (String.length c + 8 <= String.length (c +:+ ".backup_" +:+ pid_str E))%nat).
  { rewrite !string_length_app. simpl. lia. }
  repeat split; intros Heq; rewrite Heq in Hlen; simpl in Hlen; lia.
Qed.

Lemma path_add_suffix_join (p : list string) (c suffix : string) :
  c <> "/" -> path_add_suffix (p ++ [c]) suffix = p ++ [c +:+ suffix].
Proof.
  intros Hc. unfold path_add_suffix.
  destruct (p ++ [c]) as [|x l] eqn:Hp; [by destruct p|]. rewrite <- Hp.
  rewrite bool_decide_false by (by apply join_not_root).
  by rewrite removelast_last, last_last.
Qed.

Section FileRestore.
Context (E : Env) (fs : gmap (list string) node).
Context (pd : list string) (pname : string) (ud : list string) (uname : string).
Context (data : list byte).
Hypothesis (Hwf : well_formed fs = true).
Hypothesis (Hpabs : is_absolute pd = true) (Hpplain : Forall plain_name (List.tl pd)).
Hypothesis (Huabs : is_absolute ud = true) (Huplain : Forall plain_name (List.tl ud)).
Hypothesis (Hpname : plain_name pname) (Huname : plain_name uname).
Hypothesis (Hpdir : node_at fs pd = Some Dir) (Hudir : node_at fs ud = Some Dir).
Hypothesis (Hlink : node_at fs (pd ++ [pname]) = Some (Symlink (ud ++ [uname]))).
Hypothesis (Hfile : node_at fs (ud ++ [uname]) = Some (File data)).
Hypothesis (Hfree : node_at fs (pd ++ [pname +:+ ".backup_" +:+ pid_str E]) = None).

Let kp := pd ++ [pname].
Let ku := ud ++ [uname].
Let kb := pd ++ [pname +:+ ".backup_" +:+ pid_str E].
Let fs1 := <[kb := Symlink ku]> fs.
Let fs2 := delete kp fs1.
Let fs3 := <[kp := File data]> (delete ku fs2).

Lemma restore_keys_apart : kb <> kp /\ kb <> ku /\ kp <> ku.
Proof.
  repeat split; unfold kb, kp, ku; intros Heq.
  - apply app_inj_tail in Heq as [_ Heq]. by destruct (backup_name_plain E pname).
  - rewrite Heq in Hfree. congruence.
  - rewrite Heq in Hlink. congruence.
Qed.

Lemma dirs_kept_1 (k : list string) : node_at fs k = Some Dir -> node_at fs1 k = Some Dir.
Proof.
  intros Hk. unfold fs1. rewrite node_at_insert_ne; [done|]. unfold kb. congruence.
Qed.

Lemma dirs_kept_2 (k : list string) : node_at fs k = Some Dir -> node_at fs2 k = Some Dir.
Proof.
  intros Hk. unfold fs2. rewrite node_at_delete_ne; [by apply dirs_kept_1|].
  unfold kp. congruence.
Qed.

Lemma dirs_kept_3 (k : list string) : node_at fs k = Some Dir -> node_at fs3 k = Some Dir.
Proof.
  intros Hk. unfold fs3.
  rewrite node_at_insert_ne, node_at_delete_ne; [by apply dirs_kept_2| |];
    unfold kp, ku; congruence.
Qed.

Lemma chain_pd : dir_chain fs pd.
Proof. by apply dir_chain_of_well_formed. Qed.
Lemma chain_ud : dir_chain fs ud.
Proof. by apply dir_chain_of_well_formed. Qed.

(** A path below one of the two directories, in a state that kept the
    directories. *)
Lemma follow_below (fs' : gmap (list string) node) (d : list string) (c : string)
    (hops : nat) :
  (forall k, node_at fs k = Some Dir -> node_at fs' k = Some Dir) ->
  dir_chain fs d -> Forall plain_name (List.tl d) -> is_absolute d = true ->
  walk hops fs' ["/"] (List.tl (d ++ [c])) = walk hops fs' d [c].
Proof.
  intros Hkeep Hchain Hplain Habs.
  replace (List.tl (d ++ [c])) with (List.tl d ++ [c]) by (by destruct d).
  apply walk_from_chain; [|done]. by eapply dir_chain_agree.
Qed.

Lemma wf1 : well_formed fs1 = true.
Proof.
  unfold fs1. apply well_formed_insert; [done|exact Hfree|].
  unfold kb. by rewrite removelast_last.
Qed.

Lemma node1_kp : node_at fs1 kp = Some (Symlink ku).
Proof.
  unfold fs1. rewrite node_at_insert_ne; [exact Hlink|].
  destruct restore_keys_apart as (? & _). congruence.
Qed.

Lemma wf2 : well_formed fs2 = true.
Proof. unfold fs2. eapply well_formed_delete; [apply wf1|apply node1_kp|done]. Qed.

Lemma node2_ku : node_at fs2 ku = Some (File data).
Proof.
  destruct restore_keys_apart as (? & ? & ?).
  unfold fs2, fs1. rewrite node_at_delete_ne, node_at_insert_ne by congruence. exact Hfile.
Qed.

Lemma kp_not_root : kp <> ["/"].
Proof. apply join_not_root. by destruct Hpname as (_ & _ & ?). Qed.

Lemma node2_kp : node_at fs2 kp = None.
Proof.
  unfold fs2, node_at. rewrite bool_decide_false by apply kp_not_root.
  apply lookup_delete_eq.
Qed.

Lemma node3_kb : node_at fs3 kb = Some (Symlink ku).
Proof.
  destruct restore_keys_apart as (? & ? & ?).
  unfold fs3, fs2, fs1.
  rewrite node_at_insert_ne, !node_at_delete_ne by congruence.
  apply node_at_insert_eq. apply join_not_root.
  by destruct (backup_name_plain E pname) as [(_ & _ & ?) _].
Qed.

Lemma node3_ku : node_at fs3 ku = None.
Proof.
  destruct restore_keys_apart as (? & ? & ?).
  unfold fs3. rewrite node_at_insert_ne by congruence.
  unfold node_at. rewrite bool_decide_false.
  - apply lookup_delete_eq.
  - apply join_not_root. by destruct Huname as (_ & _ & ?).
Qed.

Lemma ku_absolute : is_absolute ku = true.
Proof. unfold ku. by destruct ud. Qed.

Lemma tl_ku : List.tl ku ++ [] = List.tl (ud ++ [uname]).
Proof. by rewrite app_nil_r. Qed.

(** Where the three paths lead in a state that kept the directories. *)
Lemma follow_ku (fs' : gmap (list string) node) (hops : nat) :
  (forall k, node_at fs k = Some Dir -> node_at fs' k = Some Dir) ->
  walk hops fs' ["/"] (List.tl ku)
  = match node_at fs' ku with
    | Some (File _) | Some Dir => Found ku
    | None => Missing ku
    | Some (Symlink t) =>
        match hops with
        | O => Invalid OSError
        | S h => if is_absolute t then walk h fs' ["/"] (List.tl t ++ [])
                 else walk h fs' ud (t ++ [])
        end
    end.
Proof.
  intros Hkeep. unfold ku. rewrite (follow_below fs' ud uname hops Hkeep chain_ud Huplain Huabs).
  rewrite walk_cons, bool_decide_false by (by destruct Huname as (_ & ? & _)).
  destruct (node_at fs' (ud ++ [uname])) as [[| |]|]; by rewrite ?walk_nil.
Qed.

Lemma follow_link (fs' : gmap (list string) node) (c : string) :
  (forall k, node_at fs k = Some Dir -> node_at fs' k = Some Dir) ->
  plain_name c ->
  node_at fs' (pd ++ [c]) = Some (Symlink ku) ->
  locate_follow E (pd ++ [c]) fs' = walk 39 fs' ["/"] (List.tl ku).
Proof.
  intros Hkeep Hc Hnode. unfold locate_follow.
  replace (is_absolute (pd ++ [c])) with true by (by destruct pd).
  rewrite (follow_below fs' pd c SYMLOOP_MAX Hkeep chain_pd Hpplain Hpabs).
  rewrite walk_cons, bool_decide_false by (by destruct Hc as (_ & ? & _)).
  rewrite Hnode. unfold SYMLOOP_MAX. rewrite ku_absolute. by rewrite app_nil_r.
Qed.

Lemma locate_pd (fs' : gmap (list string) node) :
  (forall k, node_at fs k = Some Dir -> node_at fs' k = Some Dir) ->
  locate_follow E pd fs' = Found pd.
Proof.
  intros Hkeep. apply locate_follow_chain; [|done]. eapply dir_chain_agree; [exact Hkeep|].
  apply chain_pd.
Qed.

Lemma locate_ud (fs' : gmap (list string) node) :
  (forall k, node_at fs k = Some Dir -> node_at fs' k = Some Dir) ->
  locate_follow E ud fs' = Found ud.
Proof.
  intros Hkeep. apply locate_follow_chain; [|done]. eapply dir_chain_agree; [exact Hkeep|].
  apply chain_ud.
Qed.

Lemma stat_link : stat E kp fs = Some (File data).
Proof.
  unfold stat, kp. rewrite (follow_link fs pname) by done.
  rewrite follow_ku by done. fold ku in Hfile. rewrite Hfile. simpl. exact Hfile.
Qed.

Lemma lstat_link : locate_entry E kp fs = Found kp /\ lstat E kp fs = Some (Symlink ku).
Proof.
  assert (Hl : locate_entry E kp fs = Found kp).
  { unfold kp. pose proof (locate_entry_join E pd pname fs Hpname) as Hj.
    unfold path_join in Hj. rewrite Hj, locate_pd, Hpdir by done.
    by rewrite Hlink. }
  split; [exact Hl|]. unfold lstat. rewrite Hl. exact Hlink.
Qed.

Lemma stat_source : stat E ku fs = Some (File data).
Proof.
  unfold stat, locate_follow. rewrite ku_absolute, follow_ku by done.
  fold ku in Hfile. rewrite Hfile. simpl. exact Hfile.
Qed.

Lemma backup_missing :
  locate_entry E kb fs = Missing kb /\ stat E kb fs = None.
Proof.
  destruct (backup_name_plain E pname) as [Hb _].
  assert (Hl : locate_entry E kb fs = Missing kb).
  { unfold kb. pose proof (locate_entry_join E pd _ fs Hb) as Hj.
    unfold path_join in Hj. rewrite Hj, locate_pd, Hpdir by done.
    by rewrite Hfree. }
  split; [exact Hl|]. unfold stat.
  destruct (locate_after_store E pd _ fs kb [] Hb Hl) as (Hf & _).
  unfold path_join in Hf. fold kb in Hf. by rewrite Hf.
Qed.

Lemma copy_link : copy2 E kp kb false fs = (Return tt, fs1).
Proof.
  unfold copy2, bind, get.
  assert (path_is_dir E kb fs = false) as ->.
  { unfold path_is_dir. by rewrite (proj2 backup_missing). }
  assert (path_is_symlink E kp fs = true) as ->.
  { unfold path_is_symlink. by rewrite (proj2 lstat_link). }
  cbn [negb andb]. unfold lift_outcome, readlink. rewrite (proj2 lstat_link).
  unfold symlink_to. by rewrite (proj1 backup_missing).
Qed.

Lemma unlink_link_1 : unlink E kp fs1 = (Return tt, fs2).
Proof.
  unfold unlink.
  assert (locate_entry E kp fs1 = Found kp) as ->.
  { unfold kp. pose proof (locate_entry_join E pd pname fs1 Hpname) as Hj.
    unfold path_join in Hj. rewrite Hj.
    rewrite locate_pd by apply dirs_kept_1. rewrite (dirs_kept_1 _ Hpdir).
    fold kp. by rewrite node1_kp. }
  by rewrite node1_kp.
Qed.

Lemma move_back : shutil_move E ku kp fs2 = (Return tt, fs3).
Proof.
  apply (shutil_move_file E fs2 ud uname pd pname data).
  - apply wf2.
  - done.
  - done.
  - apply locate_ud, dirs_kept_2.
  - apply locate_pd, dirs_kept_2.
  - by apply dirs_kept_2.
  - apply node2_ku.
  - apply node2_kp.
Qed.

Lemma stat_restored : stat E kp fs3 = Some (File data).
Proof.
  apply (stat_moved E fs2 ud uname pd pname data).
  - done.
  - apply locate_pd, dirs_kept_2.
  - by apply dirs_kept_2.
  - apply node2_ku.
  - apply node2_kp.
Qed.

Lemma backup_dangles : path_exists E kb fs3 = false /\ lstat E kb fs3 = Some (Symlink ku).
Proof.
  destruct (backup_name_plain E pname) as [Hb _]. split.
  - unfold path_exists, stat, kb.
    rewrite (follow_link fs3 _ dirs_kept_3 Hb node3_kb).
    rewrite (follow_ku fs3 _ dirs_kept_3). by rewrite node3_ku.
  - unfold lstat, kb. pose proof (locate_entry_join E pd _ fs3 Hb) as Hj.
    unfold path_join in Hj. rewrite Hj, (locate_pd fs3 dirs_kept_3).
    rewrite (dirs_kept_3 _ Hpdir). fold kb. rewrite node3_kb. simpl. apply node3_kb.
Qed.

Lemma restore_run (Hdata : data <> []) :
  safe_restore_from_usb E kp ku kp fs = (Return true, fs3).
Proof.
  destruct (backup_name_plain E pname) as [Hb _].
  assert (Hlen : Z.of_nat (length data) <> 0) by (destruct data; [done|simpl; lia]).
  assert (Hbackup : path_add_suffix kp (".backup_" +:+ pid_str E) = kb).
  { unfold kp, kb. apply path_add_suffix_join. by destruct Hpname as (_ & _ & ?). }
  unfold safe_restore_from_usb, with_locals, try_except.
  rewrite Hbackup.
  unfold bind at 1. unfold lift_fs at 1, get at 1. cbn [fst snd].
  unfold path_exists at 1 2 3, path_is_symlink at 1 2.
  rewrite stat_link, (proj2 lstat_link), stat_source. cbn [negb andb].
  unfold bind at 1. unfold ret at 1.
  unfold bind at 1. unfold lift_local at 1, put at 1. cbn [fst snd].
  unfold bind at 1. unfold path_exists at 1. rewrite (proj2 backup_missing).
  unfold ret at 1.
  unfold bind at 1. unfold lift_fs at 1. cbn [fst snd]. rewrite copy_link.
  unfold bind at 1. unfold lift_fs at 1. cbn [fst snd]. rewrite unlink_link_1.
  unfold bind at 1. unfold lift_fs at 1. cbn [fst snd]. rewrite move_back.
  unfold bind at 1. unfold lift_fs at 1. cbn [fst snd].
  unfold verify_the_move, bind at 1, get at 1.
  unfold path_is_file at 1, path_exists at 1, st_size at 1. rewrite stat_restored.
  cbn [negb]. unfold bind at 1, lift_outcome at 1.
  rewrite (proj2 (Z.eqb_neq _ _) Hlen). unfold ret at 1.
  unfold bind at 1. unfold lift_fs at 1, get at 1. cbn [fst snd].
  unfold bind at 1. unfold lift_local at 1, get at 1. cbn [fst snd].
  rewrite (proj1 backup_dangles).
  unfold bind, ret. cbn [fst snd]. reflexivity.
Qed.

End FileRestore.



(** * A file relocated and restored *)

Section FileRoundTrip.
Context (E : Env) (fs : gmap (list string) node).
Context (sd : list string) (sname : string) (dd : list string) (dname : string).
Context (data : list byte) (monitor_usb_path : option (list string)).
Hypothesis (Hwf : well_formed fs = true).
Hypothesis (Hmon : monitor_quiet E monitor_usb_path fs).
Hypothesis (Hsabs : is_absolute sd = true) (Hsplain : Forall plain_name (List.tl sd)).
Hypothesis (Hdabs : is_absolute dd = true) (Hdplain : Forall plain_name (List.tl dd)).
Hypothesis (Hsname : plain_name sname) (Hdname : plain_name dname).
Hypothesis (Hapart : sd <> dd).
Hypothesis (Hddir : node_at fs dd = Some Dir).
Hypothesis (Hsrc : node_at fs (sd ++ [sname]) = Some (File data)).
Hypothesis (Hdst : node_at fs (dd ++ [dname]) = None).
Hypothesis (Hfree : node_at fs (sd ++ [sname +:+ ".backup_" +:+ pid_str E]) = None).
Hypothesis (Hdata : data <> []).

Let ks := sd ++ [sname].
Let kd := dd ++ [dname].
Let kb := sd ++ [sname +:+ ".backup_" +:+ pid_str E].
Let m1 := <[kd := File data]> (delete ks fs).
Let m2 := <[ks := Symlink kd]> m1.

Lemma trip_sdir : node_at fs sd = Some Dir.
Proof. by apply (source_dir fs sd sname data). Qed.

Lemma trip_keys : ks <> kd /\ kb <> ks /\ kb <> kd /\ ks <> ["/"] /\ kd <> ["/"].
Proof.
  repeat split; unfold ks, kd, kb; intros Heq.
  - rewrite Heq in Hsrc. congruence.
  - apply app_inj_tail in Heq as [_ Heq]. by destruct (backup_name_plain E sname).
  - apply app_inj_tail in Heq as [Heq _]. done.
  - revert Heq. apply join_not_root. by destruct Hsname as (_ & _ & ?).
  - revert Heq. apply join_not_root. by destruct Hdname as (_ & _ & ?).
Qed.

Lemma trip_dirs_1 (k : list string) : node_at fs k = Some Dir -> node_at m1 k = Some Dir.
Proof.
  intros Hk. unfold m1. rewrite node_at_insert_ne, node_at_delete_ne; [done| |];
    unfold ks, kd; congruence.
Qed.

Lemma trip_node1_ks : node_at m1 ks = None.
Proof.
  destruct trip_keys as (? & _ & _ & ? & _).
  unfold m1. rewrite node_at_insert_ne by done.
  unfold node_at. rewrite bool_decide_false by done. apply lookup_delete_eq.
Qed.

Lemma trip_wf1 : well_formed m1 = true.
Proof.
  destruct trip_keys as (? & _).
  unfold m1. apply well_formed_insert.
  - eapply well_formed_delete; [done|exact Hsrc|done].
  - rewrite node_at_delete_ne by done. exact Hdst.
  - unfold kd. rewrite removelast_last, node_at_delete_ne; [done|]. unfold ks. congruence.
Qed.

Lemma trip_wf2 : well_formed m2 = true.
Proof.
  unfold m2. apply well_formed_insert; [apply trip_wf1|apply trip_node1_ks|].
  unfold ks. rewrite removelast_last. apply trip_dirs_1, trip_sdir.
Qed.

Lemma trip_move :
  safe_move_with_verification E ks kd monitor_usb_path fs = (Return true, m1).
Proof.
  apply (safe_move_file_run E fs sd sname dd dname data monitor_usb_path); try done.
  - apply locate_follow_chain; [|done]. apply dir_chain_of_well_formed; [done..|].
    apply trip_sdir.
  - apply locate_follow_chain; [|done]. by apply dir_chain_of_well_formed.
Qed.

Lemma trip_link : symlink_to E ks kd m1 = (Return tt, m2).
Proof.
  unfold symlink_to.
  assert (locate_entry E ks m1 = Missing ks) as ->; [|done].
  unfold ks. pose proof (locate_entry_join E sd sname m1 Hsname) as Hj.
  unfold path_join in Hj. rewrite Hj.
  rewrite locate_follow_chain; [|eapply dir_chain_agree; [apply trip_dirs_1|]|done].
  - rewrite (trip_dirs_1 _ trip_sdir). fold ks. by rewrite trip_node1_ks.
  - apply dir_chain_of_well_formed; [done..|]. apply trip_sdir.
Qed.

Lemma trip_restore :
  safe_restore_from_usb E ks kd ks m2
  = (Return true,
     <[ks := File data]> (delete kd (delete ks (<[kb := Symlink kd]> m2)))).
Proof.
  destruct trip_keys as (Hsd' & Hbs & Hbd & Hsr & Hdr).
  apply (restore_run E m2 sd sname dd dname data); try done.
  - apply trip_wf2.
  - unfold m2. rewrite node_at_insert_ne by (unfold ks; intros ?; pose proof trip_sdir; congruence).
    apply trip_dirs_1, trip_sdir.
  - unfold m2. rewrite node_at_insert_ne by (unfold ks; congruence).
    by apply trip_dirs_1.
  - unfold m2. by apply node_at_insert_eq.
  - unfold m2, m1. rewrite node_at_insert_ne by done. by apply node_at_insert_eq.
  - unfold m2, m1. fold kb.
    rewrite !node_at_insert_ne, node_at_delete_ne by done. exact Hfree.
Qed.

Lemma trip_result :
  <[ks := File data]> (delete kd (delete ks (<[kb := Symlink kd]> m2)))
  = <[kb := Symlink kd]> fs.
Proof.
  destruct trip_keys as (Hsd' & Hbs & Hbd & Hsr & Hdr).
  apply map_eq. intros k.
  destruct (decide (k = ks)) as [->|Hks].
  { rewrite lookup_insert_eq, lookup_insert_ne by done. symmetry.
    by apply (file_key_in_map fs ks data). }
  rewrite lookup_insert_ne by done.
  destruct (decide (k = kd)) as [->|Hkd].
  { rewrite lookup_delete_eq, lookup_insert_ne by done. symmetry.
    unfold node_at in Hdst. fold kd in Hdst. by rewrite bool_decide_false in Hdst. }
  rewrite !lookup_delete_ne by done.
  destruct (decide (k = kb)) as [->|Hkb]; [by rewrite !lookup_insert_eq|].
  unfold m2, m1. by rewrite !lookup_insert_ne, lookup_delete_ne by done.
Qed.

End FileRoundTrip.



(** * Relocating single files of a directory *)

(** ** Entries below a chain of directories *)

Lemma snoc_absolute (d : list string) (c : string) :
  is_absolute d = true ->
  is_absolute (d ++ [c]) = true /\ List.tl (d ++ [c]) = List.tl d ++ [c].
Proof. destruct d; [discriminate|done]. Qed.

Lemma locate_entry_below (E : Env) (fs : gmap (list string) node) (d : list string)
    (c : string) :
  dir_chain fs d -> Forall plain_name (List.tl d) -> plain_name c ->
  locate_entry E (d ++ [c]) fs
  = match node_at fs (d ++ [c]) with
    | Some _ => Found (d ++ [c])
    | None => Missing (d ++ [c])
    end.
Proof.
  intros Hchain Hplain Hc.
  pose proof (locate_entry_join E d c fs Hc) as Hj. unfold path_join in Hj. rewrite Hj.
  by rewrite (locate_follow_chain E fs d Hchain Hplain), (dir_chain_node fs d Hchain).
Qed.

Lemma locate_follow_below (E : Env) (fs : gmap (list string) node) (d : list string)
    (c : string) :
  dir_chain fs d -> Forall plain_name (List.tl d) -> plain_name c ->
  locate_follow E (d ++ [c]) fs
  = match node_at fs (d ++ [c]) with
    | None => Missing (d ++ [c])
    | Some (Symlink t) =>
        if is_absolute t then walk 39 fs ["/"] (List.tl t ++ [])
        else walk 39 fs d (t ++ [])
    | Some _ => Found (d ++ [c])
    end.
Proof.
  intros Hchain Hplain (Hc1 & Hc2 & Hc3).
  destruct (snoc_absolute d c (proj1 Hchain)) as [Habs Htl].
  unfold locate_follow. rewrite Habs, Htl.
  rewrite (walk_from_chain fs d Hchain Hplain).
  unfold SYMLOOP_MAX. rewrite walk_cons, bool_decide_false by done.
  by destruct (node_at fs (d ++ [c])) as [[| |t]|].
Qed.

(** A link to an entry that is no link leads to that entry. *)
Lemma locate_follow_link (E : Env) (fs : gmap (list string) node)
    (d : list string) (c : string) (d' : list string) (c' : string) :
  dir_chain fs d -> Forall plain_name (List.tl d) -> plain_name c ->
  dir_chain fs d' -> Forall plain_name (List.tl d') -> plain_name c' ->
  node_at fs (d ++ [c]) = Some (Symlink (d' ++ [c'])) ->
  (forall t, node_at fs (d' ++ [c']) <> Some (Symlink t)) ->
  locate_follow E (d ++ [c]) fs
  = match node_at fs (d' ++ [c']) with
    | Some _ => Found (d' ++ [c'])
    | None => Missing (d' ++ [c'])
    end.
Proof.
  intros Hchain Hplain Hc Hchain' Hplain' (Hc1 & Hc2 & Hc3) Hlink Hnolink.
  rewrite locate_follow_below, Hlink by done.
  destruct (snoc_absolute d' c' (proj1 Hchain')) as [-> ->].
  rewrite app_nil_r, (walk_from_chain fs d' Hchain' Hplain').
  rewrite walk_cons, bool_decide_false by done.
  destruct (node_at fs (d' ++ [c'])) as [[| |t]|] eqn:Hn; try done.
  by destruct (Hnolink t).
Qed.

Lemma node_at_delete_eq (fs : gmap (list string) node) (k : list string) :
  k <> ["/"] -> node_at (delete k fs) k = None.
Proof. intros Hk. unfold node_at. rewrite bool_decide_false by done. apply lookup_delete_eq. Qed.

Lemma node_at_key (fs : gmap (list string) node) (k : list string) (n : node) :
  fs !! k = Some n -> k <> ["/"] -> node_at fs k = Some n.
Proof. intros Hk Hroot. unfold node_at. by rewrite bool_decide_false. Qed.

(** ** Listings *)

Lemma omap_nil_by_elements {A B : Type} (h : A -> option B) (l : list A) :
  (forall x, x ∈ l -> h x = None) -> omap h l = [].
Proof.
  induction l as [|a l IH]; intros Hnone; [done|].
  cbn. rewrite (Hnone a) by apply list_elem_of_here.
  apply IH. intros x Hx. apply Hnone. by apply list_elem_of_further.
Qed.

Lemma omap_singleton {A B : Type} `{EqDecision A} (h : A -> option B) (l : list A) (x : A) (y : B) :
  NoDup l -> x ∈ l -> h x = Some y ->
  (forall x', x' ∈ l -> x' <> x -> h x' = None) ->
  omap h l = [y].
Proof.
  induction l as [|a l IH]; intros Hnd Hx Hy Hnone.
  - by apply elem_of_nil in Hx.
  - apply NoDup_cons in Hnd as [Ha Hnd]. cbn.
    destruct (decide (a = x)) as [->|Hax].
    + rewrite Hy. cbn. f_equal. apply omap_nil_by_elements.
      intros x' Hx'. apply Hnone; [by apply list_elem_of_further|].
      by intros ->.
    + rewrite (Hnone a); [|apply list_elem_of_here|done].
      apply IH; [done| |done|].
      * apply elem_of_cons in Hx as [->|Hx]; done.
      * intros x' Hx'. apply Hnone. by apply list_elem_of_further.
Qed.

Lemma NoDup_fst_List_filter {A B : Type} (g : A * B -> bool) (l : list (A * B)) :
  NoDup l.*1 -> NoDup (List.filter g l).*1.
Proof.
  induction l as [|a l IH]; [done|].
  rewrite fmap_cons. intros [Ha Hnd]%NoDup_cons. simpl.
  destruct (g a); [|by apply IH].
  rewrite fmap_cons. apply NoDup_cons. split; [|by apply IH].
  intros Hin. apply Ha. apply list_elem_of_fmap in Hin as (kv & -> & Hkv).
  apply elem_of_List_filter in Hkv as [Hkv _]. apply list_elem_of_fmap. by exists kv.
Qed.

(** [rglob] lists every key below the directory once. *)
Lemma rglob_listing (E : Env) (fs : gmap (list string) node) (d : list string) :
  locate_follow E d fs = Found d -> node_at fs d = Some Dir ->
  NoDup (rglob E d fs)
  /\ forall p, p ∈ rglob E d fs <-> d `prefix_of` p /\ p <> d /\ is_Some (fs !! p).
Proof.
  intros Hloc Hdir. unfold rglob. rewrite Hloc, Hdir.
  set (l := List.filter _ (subtree_list d fs)).
  assert (Hl : forall kv, kv ∈ l <-> fs !! kv.1 = Some kv.2 /\ d `prefix_of` kv.1 /\ kv.1 <> d).
  { intros [k n]. unfold l, subtree_list. rewrite !elem_of_List_filter, elem_of_map_to_list.
    rewrite negb_true_iff, bool_decide_eq_true, bool_decide_eq_false. simpl. tauto. }
  assert (Hfst : (fun kv : list string * node => d ++ drop (length d) kv.1) <$> l = l.*1).
  { apply list_fmap_ext. intros i kv Hi.
    apply list_elem_of_lookup_2, Hl in Hi as (_ & [rest ->] & _).
    by rewrite drop_app_length. }
  rewrite Hfst. split.
  - unfold l, subtree_list. do 2 apply NoDup_fst_List_filter. apply NoDup_fst_map_to_list.
  - intros p. rewrite list_elem_of_fmap. split.
    + intros ([k n] & -> & Hkv). apply Hl in Hkv as (Hk & Hpre & Hne). simpl in *. eauto.
    + intros (Hpre & Hne & [n Hn]). exists (p, n). split; [done|]. by apply Hl.
Qed.

Lemma tidy_below_spec (d : list string) (fs : gmap (list string) node) :
  tidy_below d fs = true ->
  forall k n, fs !! k = Some n -> d `prefix_of` k ->
    Forall plain_name (drop (length d) k) /\ forall t, n <> Symlink t.
Proof.
  unfold tidy_below. rewrite forallb_forall. intros Htidy k n Hk Hpre.
  specialize (Htidy (k, n)). rewrite <- list_elem_of_In, elem_of_map_to_list in Htidy.
  specialize (Htidy Hk). simpl in Htidy.
  rewrite (bool_decide_true _ Hpre) in Htidy. simpl in Htidy.
  apply andb_true_iff in Htidy as [Hplain Hn]. apply bool_decide_eq_true in Hplain.
  split; [done|]. intros t ->. discriminate.
Qed.

Lemma relative_to_below (base rest : list string) :
  relative_to (base ++ rest) base = Return rest.
Proof.
  induction base as [|b base IH]; [by destruct rest|].
  simpl. by rewrite bool_decide_true.
Qed.

(** ** Making directories *)

Lemma path_mkdir_makes (E : Env) (fuel : nat) (parents exist_ok : bool)
    (p : list string) (fs fs' : gmap (list string) node) :
  os_mkdir E p fs = (Return tt, fs') ->
  path_mkdir E fuel parents exist_ok p fs = (Return tt, fs').
Proof. intros Hmk. destruct fuel; simpl; by rewrite Hmk. Qed.

Lemma path_mkdir_exists (E : Env) (fuel : nat) (parents : bool)
    (p : list string) (fs : gmap (list string) node) :
  os_mkdir E p fs = (Raise (os_error FileExistsError p), fs) ->
  path_is_dir E p fs = true ->
  path_mkdir E fuel parents true p fs = (Return tt, fs).
Proof. intros Hmk Hdir. destruct fuel; simpl; by rewrite Hmk, Hdir. Qed.

(** ** One file of a directory, relocated and restored *)

Section PerFile.
Context (E : Env) (fs : gmap (list string) node).
Context (md : list string) (name : string) (upar : list string) (uname : string).
Context (data : list byte).
Hypothesis (Hwf : well_formed fs = true).
Hypothesis (Htidy : tidy_below md fs = true).
Hypothesis (Hmabs : is_absolute md = true) (Hmplain : Forall plain_name (List.tl md)).
Hypothesis (Huabs : is_absolute upar = true) (Huplain : Forall plain_name (List.tl upar)).
Hypothesis (Hname : plain_name name) (Huname : plain_name uname).
Hypothesis (Hapart : upar <> md).
Hypothesis (Hmdir : node_at fs md = Some Dir) (Hudir : node_at fs upar = Some Dir).
Hypothesis (Hfile : node_at fs (md ++ [name]) = Some (File data)).
Hypothesis (Hnew : node_at fs (upar ++ [uname]) = None).
Hypothesis (Hfree : node_at fs (md ++ [name +:+ ".backup_" +:+ pid_str E]) = None).
Hypothesis (Hdata : data <> []).

Let f := md ++ [name].
Let ud := upar ++ [uname].
Let t := ud ++ [name].
Let b := md ++ [name +:+ ".backup_" +:+ pid_str E].

(** The states of the relocation ... *)
Let s1 := <[ud := Dir]> fs.
Let s2 := <[t := File data]> (delete f s1).
Let s3 := <[f := Symlink t]> s2.
(** ... and of the restoration. *)
Let r1 := <[b := Symlink t]> s3.
Let r2 := delete f r1.
Let r3 := <[f := File data]> r2.
Let r4 := delete b r3.
Let r5 := delete t r4.

Let keeps (X : gmap (list string) node) : Prop :=
  forall k, node_at s1 k = Some Dir -> node_at X k = Some Dir.

Lemma pf_not_root : f <> ["/"] /\ t <> ["/"] /\ b <> ["/"] /\ ud <> ["/"].
Proof.
  destruct (backup_name_plain E name) as [(_ & _ & Hb) _].
  destruct Hname as (_ & _ & Hn). destruct Huname as (_ & _ & Hu).
  repeat split; by apply join_not_root.
Qed.

Lemma pf_distinct : f <> t /\ f <> b /\ f <> ud /\ t <> b /\ t <> ud /\ b <> ud.
Proof.
  destruct (backup_name_plain E name) as [_ Hb].
  unfold f, t, b, ud. repeat split; intros Heq.
  - apply app_inj_tail in Heq as [Heq _]. rewrite Heq in Hmdir. congruence.
  - apply app_inj_tail in Heq as [_ Heq]. done.
  - rewrite Heq in Hfile. congruence.
  - apply app_inj_tail in Heq as [_ Heq]. done.
  - apply (f_equal length) in Heq. rewrite !length_app in Heq. simpl in Heq. lia.
  - apply app_inj_tail in Heq as [Heq _]. done.
Qed.

Lemma pf_target_new : node_at fs t = None.
Proof.
  destruct pf_not_root as (_ & Ht & _ & Hud).
  unfold node_at. rewrite bool_decide_false by done.
  apply (nothing_below_missing fs ud t Hwf Hnew).
  - unfold ud. by destruct upar.
  - by exists [name].
Qed.

Lemma pf_node1 :
  node_at s1 f = Some (File data) /\ node_at s1 t = None /\ node_at s1 b = None
  /\ node_at s1 ud = Some Dir.
Proof.
  destruct pf_distinct as (? & ? & ? & ? & ? & ?).
  destruct pf_not_root as (? & ? & ? & ?).
  unfold s1. rewrite !node_at_insert_ne by done.
  repeat split; [done|apply pf_target_new|done|by apply node_at_insert_eq].
Qed.

Lemma pf_keeps_1 : keeps s1.
Proof. by intros k. Qed.

Lemma pf_keeps_insert (X : gmap (list string) node) (k0 : list string) (n : node) :
  keeps X -> node_at s1 k0 <> Some Dir -> keeps (<[k0 := n]> X).
Proof.
  intros HX Hk0 k Hk. rewrite node_at_insert_ne; [by apply HX|]. by intros ->.
Qed.

Lemma pf_keeps_delete (X : gmap (list string) node) (k0 : list string) :
  keeps X -> node_at s1 k0 <> Some Dir -> keeps (delete k0 X).
Proof.
  intros HX Hk0 k Hk. rewrite node_at_delete_ne; [by apply HX|]. by intros ->.
Qed.

Lemma pf_not_dirs :
  node_at s1 f <> Some Dir /\ node_at s1 t <> Some Dir /\ node_at s1 b <> Some Dir.
Proof. destruct pf_node1 as (-> & -> & -> & _). done. Qed.

Lemma pf_keeps_all :
  keeps s2 /\ keeps s3 /\ keeps r1 /\ keeps r2 /\ keeps r3 /\ keeps r4 /\ keeps r5.
Proof.
  destruct pf_not_dirs as (Hf & Ht & Hb).
  unfold r5, r4, r3, r2, r1, s3, s2.
  repeat split;
    repeat (first [apply pf_keeps_insert | apply pf_keeps_delete | apply pf_keeps_1]; [|done]);
    apply pf_keeps_1.
Qed.

Lemma pf_from_fs (k : list string) : node_at fs k = Some Dir -> node_at s1 k = Some Dir.
Proof.
  intros Hk. unfold s1. rewrite node_at_insert_ne; [done|]. intros ->.
  unfold ud in Hk. congruence.
Qed.

Lemma pf_chain_md (X : gmap (list string) node) : keeps X -> dir_chain X md.
Proof.
  intros HX. apply (dir_chain_agree fs); [intros k Hk; by apply HX, pf_from_fs|].
  by apply dir_chain_of_well_formed.
Qed.

Lemma pf_chain_upar (X : gmap (list string) node) : keeps X -> dir_chain X upar.
Proof.
  intros HX. apply (dir_chain_agree fs); [intros k Hk; by apply HX, pf_from_fs|].
  by apply dir_chain_of_well_formed.
Qed.

Lemma pf_chain_ud (X : gmap (list string) node) : keeps X -> dir_chain X ud.
Proof.
  intros HX. apply dir_chain_snoc; [by apply pf_chain_upar|].
  apply HX. apply pf_node1.
Qed.

Lemma pf_plain_ud : Forall plain_name (List.tl ud).
Proof.
  unfold ud. destruct (snoc_absolute upar uname Huabs) as [_ ->].
  apply Forall_app. split; [done|]. by apply Forall_singleton.
Qed.

Lemma pf_entry_f (X : gmap (list string) node) :
  keeps X ->
  locate_entry E f X = match node_at X f with Some _ => Found f | None => Missing f end.
Proof. intros HX. by apply locate_entry_below; [apply pf_chain_md|..]. Qed.

Lemma pf_entry_b (X : gmap (list string) node) :
  keeps X ->
  locate_entry E b X = match node_at X b with Some _ => Found b | None => Missing b end.
Proof.
  intros HX. apply locate_entry_below; [by apply pf_chain_md|done|].
  apply backup_name_plain.
Qed.

Lemma pf_entry_t (X : gmap (list string) node) :
  keeps X ->
  locate_entry E t X = match node_at X t with Some _ => Found t | None => Missing t end.
Proof. intros HX. by apply locate_entry_below; [apply pf_chain_ud|apply pf_plain_ud|]. Qed.

Lemma pf_entry_ud (X : gmap (list string) node) :
  keeps X -> locate_entry E ud X = Found ud.
Proof.
  intros HX. unfold ud. rewrite locate_entry_below; [|by apply pf_chain_upar|done..].
  fold ud. by rewrite (dir_chain_node X ud (pf_chain_ud X HX)).
Qed.

Lemma pf_follow_md (X : gmap (list string) node) : keeps X -> locate_follow E md X = Found md.
Proof. intros HX. by apply locate_follow_chain; [apply pf_chain_md|]. Qed.

Lemma pf_follow_ud (X : gmap (list string) node) : keeps X -> locate_follow E ud X = Found ud.
Proof. intros HX. by apply locate_follow_chain; [apply pf_chain_ud|apply pf_plain_ud]. Qed.

(** A path of the model directory that is no link, or a link to the target. *)
Lemma pf_follow_f (X : gmap (list string) node) (c : string) :
  keeps X -> plain_name c ->
  (forall u, node_at X t <> Some (Symlink u)) ->
  locate_follow E (md ++ [c]) X
  = match node_at X (md ++ [c]) with
    | None => Missing (md ++ [c])
    | Some (Symlink u) =>
        if bool_decide (u = t)
        then match node_at X t with Some _ => Found t | None => Missing t end
        else if is_absolute u then walk 39 X ["/"] (List.tl u ++ [])
             else walk 39 X md (u ++ [])
    | Some _ => Found (md ++ [c])
    end.
Proof.
  intros HX Hc Ht.
  destruct (node_at X (md ++ [c])) as [[| |u]|] eqn:Hn.
  1,2,4: by rewrite locate_follow_below, Hn by (done || by apply pf_chain_md).
  case_bool_decide as Hu.
  - subst u. unfold t. apply locate_follow_link; try done.
    + by apply pf_chain_md.
    + by apply pf_chain_ud.
    + apply pf_plain_ud.
  - by rewrite locate_follow_below, Hn by (done || by apply pf_chain_md).
Qed.

Lemma pf_follow_t (X : gmap (list string) node) :
  keeps X -> (forall u, node_at X t <> Some (Symlink u)) ->
  locate_follow E t X = match node_at X t with Some _ => Found t | None => Missing t end.
Proof.
  intros HX Ht. unfold t at 1.
  rewrite locate_follow_below by (done || apply pf_plain_ud || by apply pf_chain_ud).
  fold t. destruct (node_at X t) as [[| |u]|] eqn:Hn; try done. by destruct (Ht u).
Qed.

Ltac pf_nodes :=
  unfold r5, r4, r3, r2, r1, s3, s2;
  repeat first [ rewrite node_at_insert_eq by done
               | rewrite node_at_delete_eq by done
               | rewrite node_at_insert_ne by done
               | rewrite node_at_delete_ne by done ].

Lemma pf_nodes_move :
  node_at s2 f = None /\ node_at s2 t = Some (File data)
  /\ node_at s3 f = Some (Symlink t) /\ node_at s3 t = Some (File data)
  /\ node_at s3 b = None.
Proof.
  destruct pf_distinct as (? & ? & ? & ? & ? & ?).
  destruct pf_not_root as (? & ? & ? & ?).
  destruct pf_node1 as (_ & _ & Hb & _).
  repeat split; pf_nodes; done.
Qed.

Lemma pf_nodes_restore :
  node_at r1 f = Some (Symlink t)
  /\ node_at r2 f = None /\ node_at r2 t = Some (File data)
  /\ node_at r3 f = Some (File data) /\ node_at r3 t = Some (File data)
  /\ node_at r3 b = Some (Symlink t)
  /\ node_at r4 t = Some (File data).
Proof.
  destruct pf_distinct as (? & ? & ? & ? & ? & ?).
  destruct pf_not_root as (? & ? & ? & ?).
  repeat split; pf_nodes; done.
Qed.

(** *** The relocation *)

Lemma pf_wf1 : well_formed s1 = true.
Proof.
  apply well_formed_insert; [done..|]. unfold ud. by rewrite removelast_last.
Qed.

Lemma pf_mkdir_usb : mkdir E true true ud fs = (Return tt, s1).
Proof.
  unfold mkdir. apply path_mkdir_makes. unfold os_mkdir, ud.
  rewrite locate_entry_below by (done || by apply dir_chain_of_well_formed).
  by rewrite Hnew.
Qed.

Lemma pf_parent_target : path_parent (path_concat ud [name]) = ud.
Proof.
  destruct pf_not_root as (_ & Ht & _).
  unfold path_concat, path_parent. fold t. rewrite bool_decide_false by done.
  unfold t. apply removelast_last.
Qed.

Lemma pf_mkdir_again : mkdir E true true ud s1 = (Return tt, s1).
Proof.
  unfold mkdir. apply path_mkdir_exists.
  - unfold os_mkdir. by rewrite (pf_entry_ud s1 pf_keeps_1).
  - unfold path_is_dir, stat. rewrite (pf_follow_ud s1 pf_keeps_1). simpl.
    by rewrite (proj2 (proj2 (proj2 pf_node1))).
Qed.

Lemma pf_move : shutil_move E f t s1 = (Return tt, s2).
Proof.
  destruct pf_node1 as (Hf & Ht & _ & Hud).
  apply (shutil_move_file E s1 md name ud name data); try done.
  - apply pf_wf1.
  - apply (pf_follow_md s1 pf_keeps_1).
  - apply (pf_follow_ud s1 pf_keeps_1).
Qed.

Lemma pf_link : symlink_to E f t s2 = (Return tt, s3).
Proof.
  destruct pf_keeps_all as (H2 & _). destruct pf_nodes_move as (Hf & _).
  unfold symlink_to. by rewrite (pf_entry_f s2 H2), Hf.
Qed.

Lemma pf_no_link (X : gmap (list string) node) :
  node_at X t = Some (File data) -> forall u, node_at X t <> Some (Symlink u).
Proof. intros -> u. done. Qed.

Lemma pf_linked :
  stat E f s3 = Some (File data) /\ lstat E f s3 = Some (Symlink t).
Proof.
  destruct pf_keeps_all as (_ & H3 & _). destruct pf_nodes_move as (_ & _ & Hf & Ht & _).
  split.
  - unfold stat, f. rewrite (pf_follow_f s3 name H3 Hname (pf_no_link s3 Ht)).
    fold f. rewrite Hf, bool_decide_true, Ht by done. exact Ht.
  - unfold lstat. rewrite (pf_entry_f s3 H3), Hf. exact Hf.
Qed.

Lemma pf_relocation (keep_local_files : list (list string)) :
  safe_move_with_file_symlinks E md ud [f] keep_local_files fs = (Return true, s3).
Proof.
  destruct pf_linked as [Hstat Hlstat].
  unfold safe_move_with_file_symlinks, with_locals, try_except.
  unfold bind at 1. unfold lift_fs at 1. cbn [fst snd]. rewrite pf_mkdir_usb.
  unfold for_each at 1. unfold bind at 1. unfold bind at 1. unfold bind at 1.
  unfold lift_outcome at 1. unfold f at 1. rewrite relative_to_below.
  unfold bind at 1. unfold lift_fs at 1. cbn [fst snd].
  rewrite pf_parent_target, pf_mkdir_again.
  unfold bind at 1. unfold lift_fs at 1. cbn [fst snd].
  unfold path_concat. fold t. fold f. rewrite pf_move.
  unfold bind at 1. unfold lift_local at 1, modify at 1. cbn [fst snd].
  unfold bind at 1. unfold lift_fs at 1. cbn [fst snd]. rewrite pf_link.
  unfold bind at 1. unfold lift_local at 1, modify at 1. cbn [fst snd].
  unfold bind at 1. unfold lift_fs at 1, get at 1. cbn [fst snd].
  unfold path_exists at 1, path_is_symlink at 1. rewrite Hstat, Hlstat. cbn [negb orb].
  unfold ret at 1. unfold ret at 1.
  unfold for_each at 1. unfold bind at 1. unfold bind at 1.
  unfold lift_fs at 1, get at 1. cbn [fst snd].
  unfold bind at 1. cbn [fst snd].
  unfold path_exists at 1. rewrite Hstat. cbn [negb].
  reflexivity.
Qed.

(** *** The restoration *)

Lemma pf_md_dir (X : gmap (list string) node) : keeps X -> node_at X md = Some Dir.
Proof. intros HX. by apply HX, pf_from_fs. Qed.

(** Every path below the model directory other than the link is no link. *)
Lemma pf_other_entries (p : list string) :
  p ∈ rglob E md s3 -> p <> f -> path_is_symlink E p s3 = false.
Proof.
  destruct pf_keeps_all as (_ & H3 & _).
  destruct pf_nodes_move as (_ & _ & _ & Ht & _).
  destruct pf_not_root as (_ & Htr & _ & Hur).
  intros Hp Hpf.
  apply (rglob_listing E s3 md (pf_follow_md s3 H3) (pf_md_dir s3 H3)) in Hp
    as ([rest ->] & Hne & [n Hn]).
  unfold path_is_symlink, lstat.
  destruct (decide (md ++ rest = t)) as [Heqt|Hnt].
  { rewrite Heqt, (pf_entry_t s3 H3), Ht. simpl. by rewrite Ht. }
  destruct (decide (md ++ rest = ud)) as [Hequ|Hnu].
  { rewrite Hequ, (pf_entry_ud s3 H3). simpl.
    by rewrite (dir_chain_node s3 ud (pf_chain_ud s3 H3)). }
  assert (Hfs : fs !! (md ++ rest) = Some n).
  { revert Hn. unfold s3, s2, s1.
    by rewrite !lookup_insert_ne, lookup_delete_ne, lookup_insert_ne by done. }
  destruct (tidy_below_spec md fs Htidy _ _ Hfs) as [Hplain Hnolink]; [by exists rest|].
  rewrite drop_app_length in Hplain.
  destruct rest as [|c rest _] using rev_ind; [by rewrite app_nil_r in Hne|].
  apply Forall_app in Hplain as [Hrest Hc]. rewrite Forall_singleton in Hc.
  rewrite app_assoc in *.
  assert (Hroot : (md ++ rest) ++ [c] <> ["/"]).
  { apply join_not_root. by destruct Hc as (_ & _ & ?). }
  assert (Hchain : dir_chain s3 (md ++ rest)).
  { apply (dir_chain_agree fs); [intros k Hk; by apply H3, pf_from_fs|].
    apply dir_chain_of_well_formed; [done|by destruct md|].
    pose proof (well_formed_parent fs _ _ Hwf Hfs) as Hpar.
    by rewrite removelast_last in Hpar. }
  rewrite locate_entry_below; [|done| |done].
  - rewrite (node_at_key s3 _ n Hn Hroot). simpl. rewrite (node_at_key s3 _ n Hn Hroot).
    destruct n; try done. by destruct (Hnolink target).
  - destruct md as [|r md']; [discriminate|]. simpl. by apply Forall_app.
Qed.

Lemma pf_symlink_files :
  omap (fun file_path =>
          if path_is_file E file_path s3 && path_is_symlink E file_path s3 then
            match path_resolve E file_path s3 with
            | Return target =>
                if bool_decide (path_parent target = ud)
                then Some (file_path, target) else None
            | Raise _ => None
            end
          else None)
       (rglob E md s3)
  = [(f, t)].
Proof.
  destruct pf_keeps_all as (_ & H3 & _).
  destruct pf_nodes_move as (_ & _ & Hf & Ht & _).
  destruct pf_linked as [Hstat Hlstat].
  destruct pf_not_root as (Hfr & Htr & _).
  destruct (rglob_listing E s3 md (pf_follow_md s3 H3) (pf_md_dir s3 H3)) as [Hnd Hin].
  apply (omap_singleton _ _ f); [done| | |].
  - apply Hin. split; [by exists [name]|]. split.
    + unfold f. intros Heq. apply (f_equal length) in Heq. rewrite length_app in Heq.
      simpl in Heq. lia.
    + exists (Symlink t). unfold s3. apply lookup_insert_eq.
  - unfold path_is_file, path_is_symlink, path_resolve. rewrite Hstat, Hlstat. simpl.
    unfold f. rewrite (pf_follow_f s3 name H3 Hname (pf_no_link s3 Ht)). fold f.
    rewrite Hf, bool_decide_true, Ht by done.
    rewrite bool_decide_true; [done|apply pf_parent_target].
  - intros p Hp Hpf. by rewrite (pf_other_entries p Hp Hpf), andb_false_r.
Qed.

Lemma pf_backup_path : path_add_suffix f (".backup_" +:+ pid_str E) = b.
Proof. unfold f, b. apply path_add_suffix_join. by destruct Hname as (_ & _ & ?). Qed.

Lemma pf_follow_in (X : gmap (list string) node) (c : string) :
  keeps X -> plain_name c -> node_at X t = Some (File data) ->
  stat E (md ++ [c]) X
  = match node_at X (md ++ [c]) with
    | Some (Symlink u) =>
        if bool_decide (u = t) then Some (File data)
        else node_of (if is_absolute u then walk 39 X ["/"] (List.tl u ++ [])
                      else walk 39 X md (u ++ [])) X
    | n => n
    end.
Proof.
  intros HX Hc Ht. unfold stat. rewrite (pf_follow_f X c HX Hc (pf_no_link X Ht)).
  destruct (node_at X (md ++ [c])) as [[| |u]|] eqn:Hn; cbn [node_of]; try done.
  case_bool_decide; [|done]. cbn [node_of]. by rewrite Ht.
Qed.

Lemma pf_copy_link : copy2 E f b false s3 = (Return tt, r1).
Proof.
  destruct pf_keeps_all as (_ & H3 & _).
  destruct pf_nodes_move as (_ & _ & Hf & Ht & Hb).
  destruct pf_linked as [Hstat Hlstat].
  destruct (backup_name_plain E name) as [Hbp _].
  unfold copy2. unfold bind at 1. unfold get at 1.
  unfold path_is_dir, path_is_symlink, readlink. unfold b at 1.
  rewrite (pf_follow_in s3 _ H3 Hbp Ht). fold b. rewrite Hb, Hlstat. cbn [negb andb].
  unfold bind, lift_outcome, symlink_to. by rewrite (pf_entry_b s3 H3), Hb.
Qed.

Lemma pf_unlink_link : unlink E f r1 = (Return tt, r2).
Proof.
  destruct pf_keeps_all as (_ & _ & H1 & _). destruct pf_nodes_restore as (Hf & _).
  unfold unlink. rewrite (pf_entry_f r1 H1), Hf. cbn [fst]. by rewrite Hf.
Qed.

Lemma pf_copy_back : copy2 E t f true r2 = (Return tt, r3).
Proof.
  destruct pf_keeps_all as (_ & _ & _ & H2 & _).
  destruct pf_nodes_restore as (_ & Hf & Ht & _).
  assert (Hloc_f : locate_follow E f r2 = Missing f).
  { unfold f. rewrite (pf_follow_f r2 name H2 Hname (pf_no_link r2 Ht)). fold f.
    by rewrite Hf. }
  assert (Hloc_t : locate_follow E t r2 = Found t).
  { by rewrite (pf_follow_t r2 H2 (pf_no_link r2 Ht)), Ht. }
  assert (Hdir : path_is_dir E f r2 = false).
  { unfold path_is_dir, stat. by rewrite Hloc_f. }
  assert (Hsame : samefile E t f r2 = false).
  { unfold samefile. by rewrite Hloc_t, Hloc_f. }
  assert (Hstat : stat E t r2 = Some (File data)).
  { unfold stat. rewrite Hloc_t. exact Ht. }
  unfold copy2. unfold bind at 1. unfold get at 1.
  rewrite Hdir. cbn [negb andb]. rewrite Hsame, Hstat.
  unfold store_file. by rewrite Hloc_f.
Qed.

Lemma pf_copied : stat E f r3 = Some (File data).
Proof.
  destruct pf_keeps_all as (_ & _ & _ & _ & H3 & _).
  destruct pf_nodes_restore as (_ & _ & _ & Hf & Ht & _).
  unfold f. rewrite (pf_follow_in r3 _ H3 Hname Ht). fold f. by rewrite Hf.
Qed.

(** Here the backup still leads to its target, and is found and removed. *)
Lemma pf_backup_found : path_exists E b r3 = true.
Proof.
  destruct pf_keeps_all as (_ & _ & _ & _ & H3 & _).
  destruct pf_nodes_restore as (_ & _ & _ & _ & Ht & Hb & _).
  destruct (backup_name_plain E name) as [Hbp _].
  unfold path_exists, b. rewrite (pf_follow_in r3 _ H3 Hbp Ht). fold b.
  by rewrite Hb, bool_decide_true.
Qed.

Lemma pf_unlink_backup : unlink E b r3 = (Return tt, r4).
Proof.
  destruct pf_keeps_all as (_ & _ & _ & _ & H3 & _).
  destruct pf_nodes_restore as (_ & _ & _ & _ & _ & Hb & _).
  unfold unlink. rewrite (pf_entry_b r3 H3), Hb. cbn [fst]. by rewrite Hb.
Qed.

Lemma pf_unlink_target : unlink E t r4 = (Return tt, r5).
Proof.
  destruct pf_keeps_all as (_ & _ & _ & _ & _ & H4 & _).
  destruct pf_nodes_restore as (_ & _ & _ & _ & _ & _ & Ht).
  unfold unlink. rewrite (pf_entry_t r4 H4), Ht. cbn [fst]. by rewrite Ht.
Qed.

Lemma pf_back_at_1 : r5 = s1.
Proof.
  destruct pf_distinct as (? & ? & ? & ? & ? & ?).
  destruct pf_not_root as (? & ? & ? & ?).
  destruct pf_node1 as (Hf & Ht & Hb & _).
  unfold node_at in Hf, Ht, Hb. rewrite bool_decide_false in Hf, Ht, Hb by done.
  apply map_eq. intros k. unfold r5, r4, r3, r2, r1, s3, s2.
  destruct (decide (k = t)) as [->|?]; [by rewrite lookup_delete_eq|].
  rewrite lookup_delete_ne by done.
  destruct (decide (k = b)) as [->|?]; [by rewrite lookup_delete_eq|].
  rewrite lookup_delete_ne by done.
  destruct (decide (k = f)) as [->|?]; [by rewrite lookup_insert_eq|].
  by rewrite lookup_insert_ne, lookup_delete_ne, !lookup_insert_ne, lookup_delete_ne by done.
Qed.

Lemma pf_usb_empty : children ud s1 = [].
Proof.
  apply omap_nil_by_elements. intros [k n] Hkv. apply elem_of_map_to_list in Hkv.
  simpl. case_bool_decide as Hk; [|done]. destruct Hk as (Hpar & Hne & Hnil).
  exfalso. unfold s1 in Hkv. rewrite lookup_insert_ne in Hkv by done.
  rewrite (nothing_below_missing fs ud k Hwf Hnew) in Hkv; [done|by destruct upar|].
  exists [List.last k ""]. rewrite <- Hpar. by apply app_removelast_last.
Qed.

Lemma pf_rmdir : rmdir E ud s1 = (Return tt, fs).
Proof.
  destruct pf_not_root as (_ & _ & _ & Hur).
  unfold rmdir. rewrite (pf_entry_ud s1 pf_keeps_1), (proj2 (proj2 (proj2 pf_node1))), pf_usb_empty.
  f_equal. unfold s1. apply delete_insert_id.
  unfold node_at in Hnew. by rewrite bool_decide_false in Hnew.
Qed.

Lemma pf_restoration : safe_restore_internal_symlinks E md ud s3 = (Return true, fs).
Proof.
  assert (Hlen : Z.of_nat (length data) <> 0) by (destruct data; [done|simpl; lia]).
  unfold safe_restore_internal_symlinks, try_except.
  unfold bind at 1. unfold get at 1. cbv zeta.
  rewrite pf_symlink_files.
  unfold bind at 1. unfold ret at 1.
  unfold bind at 1. unfold with_locals at 1.
  unfold bind at 1. unfold for_each at 1.
  rewrite pf_backup_path.
  unfold bind at 1. unfold bind at 1.
  unfold lift_fs at 1. cbn [fst snd]. rewrite pf_copy_link.
  unfold bind at 1. unfold lift_local at 1, modify at 1. cbn [fst snd].
  unfold bind at 1. unfold lift_fs at 1. cbn [fst snd]. rewrite pf_unlink_link.
  unfold bind at 1. unfold lift_fs at 1. cbn [fst snd]. rewrite pf_copy_back.
  unfold bind at 1. unfold lift_fs at 1, get at 1. cbn [fst snd].
  unfold path_exists at 1, st_size at 1. rewrite pf_copied. cbn [negb].
  unfold bind at 1. unfold lift_outcome at 1.
  rewrite (proj2 (Z.eqb_neq _ _) Hlen).
  unfold ret at 1. unfold ret at 1.
  unfold bind at 1. unfold lift_local at 1, get at 1. cbn [fst snd app].
  unfold for_each at 1. unfold bind at 1. unfold bind at 1.
  unfold lift_fs at 1, get at 1. cbn [fst snd].
  rewrite pf_backup_found. unfold lift_fs at 1. cbn [fst snd]. rewrite pf_unlink_backup.
  unfold ret at 1. cbn [snd].
  unfold bind at 1. unfold for_each at 1. unfold bind at 1.
  unfold try_pass at 1, try_except at 1. rewrite pf_unlink_target.
  unfold ret at 1. rewrite pf_back_at_1.
  unfold bind at 1. unfold try_pass at 1, try_except at 1.
  unfold bind at 1. unfold get at 1.
  assert (Hexists : path_exists E ud s1 = true).
  { unfold path_exists, stat. rewrite (pf_follow_ud s1 pf_keeps_1). cbn [node_of].
    by rewrite (proj2 (proj2 (proj2 pf_node1))). }
  assert (Hiter : iterdir E ud s1 = Return []).
  { unfold iterdir. rewrite (pf_follow_ud s1 pf_keeps_1), (proj2 (proj2 (proj2 pf_node1))).
    by rewrite pf_usb_empty. }
  rewrite Hexists, Hiter.
  unfold bind at 1. unfold lift_outcome at 1. rewrite pf_rmdir.
  reflexivity.
Qed.

End PerFile.



(** ** Links into subdirectories *)

(** The relocation keeps the layout of the model directory on the root: a
    file in a subdirectory gets its link to the same subdirectory there. *)
Example relocation_of_nested_file :
  safe_move_with_file_symlinks linux_env (models_dir ++ ["llama"]) (usb_dir ++ ["llama"])
    [models_dir ++ ["llama"; "shards"; "big.bin"]] [] nested_fs
  = (Return true, nested_link_fs).
Proof. apply run_eq_fs; vm_compute; reflexivity. Qed.

(** X29.  The restoration looks for links whose target lies directly in
    the directory on the removable root, by comparing the parent of the
    resolved target with that directory.  When no link to a file below the
    model directory has such a target (so when all relocated files lie in
    subdirectories), it raises [RuntimeError] and leaves the filesystem as
    it is. *)
Theorem restoration_ignores_links_into_subdirectories (E : Env)
    (md usb : list string) (fs : gmap (list string) node) :
  links_lead_elsewhere E md usb fs = true ->
  safe_restore_internal_symlinks E md usb fs
  = (Raise (Exn RuntimeError
              ("Failed to restore internal symlinks: "
                 +:+ "No valid internal symlinks found to restore")), fs).
Proof.
  unfold links_lead_elsewhere. rewrite forallb_forall. intros Helse.
  unfold safe_restore_internal_symlinks, try_except.
  unfold bind at 1. unfold get at 1. cbv zeta.
  rewrite omap_nil_by_elements; [reflexivity|].
  intros p Hp. apply list_elem_of_In, Helse in Hp.
  destruct (path_is_file E p fs && path_is_symlink E p fs); [|done].
  simpl in Hp. destruct (path_resolve E p fs) as [target|]; [|done].
  apply negb_true_iff in Hp. by rewrite Hp.
Qed.

Lemma restoration_ignores_links_into_subdirectories_witness :
  safe_restore_internal_symlinks linux_env (models_dir ++ ["llama"]) (usb_dir ++ ["llama"])
    nested_link_fs
  = (Raise (Exn RuntimeError
              ("Failed to restore internal symlinks: "
                 +:+ "No valid internal symlinks found to restore")), nested_link_fs).
Proof.
  apply (restoration_ignores_links_into_subdirectories linux_env (models_dir ++ ["llama"])
           (usb_dir ++ ["llama"]) nested_link_fs).
  vm_compute; reflexivity.
Defined.

(** ** What the per-file transfers raise *)

Lemma for_each_returns {S A : Type} (l : list A) (body : A -> M S unit) :
  (forall x s, exists s', body x s = (Return tt, s')) ->
  forall s, exists s', for_each l body s = (Return tt, s').
Proof.
  intros Hbody. induction l as [|x l IH]; intros s; [by exists s|].
  simpl. unfold bind. destruct (Hbody x s) as [s1 ->]. apply IH.
Qed.

(** X30.  Whatever goes wrong in a per-file transfer, in the body or in the
    recovery, the caller sees a [RuntimeError] that carries the cause: the
    recovery of [safe_move_with_file_symlinks] cannot fail itself, each of
    its steps being guarded, and [safe_restore_internal_symlinks] wraps
    every exception. *)
Theorem per_file_transfers_raise_runtime_error (E : Env)
    (model_directory usb_directory : list string)
    (files_to_move keep_local_files : list (list string)) :
  raises_only
    (fun e => exn_kind e = RuntimeError
              /\ exists cause, exn_str e = "Failed to create file symlinks: " +:+ cause)
    (safe_move_with_file_symlinks E model_directory usb_directory files_to_move
       keep_local_files)
  /\ raises_only
       (fun e => exn_kind e = RuntimeError
                 /\ exists cause,
                      exn_str e = "Failed to restore internal symlinks: " +:+ cause)
       (safe_restore_internal_symlinks E model_directory usb_directory).
Proof.
  split; intros fs e fs'.
  - unfold safe_move_with_file_symlinks, with_locals, try_except.
    match goal with
    | |- context [match ?body (?init, fs) with _ => _ end] =>
        destruct (body (init, fs)) as [[a|e0] [l s1]]
    end; [discriminate|].
    unfold bind at 1. unfold lift_local at 1, get at 1. cbn [fst snd].
    unfold bind at 1.
    match goal with
    | |- context [for_each ?xs ?body ?s0] =>
        assert (Hloop : exists s2, for_each xs body s0 = (Return tt, s2))
    end.
    { apply for_each_returns. intros x s. apply try_pass_returns. }
    destruct Hloop as [s2 ->].
    unfold bind at 1.
    match goal with
    | |- context [for_each ?xs ?body ?s0] =>
        assert (Hloop : exists s3, for_each xs body s0 = (Return tt, s3))
    end.
    { apply for_each_returns. intros [file_path usb_target] s. apply try_pass_returns. }
    destruct Hloop as [s3 ->].
    intros [= <- _]. eauto.
  - unfold safe_restore_internal_symlinks, try_except.
    match goal with
    | |- context [match ?body fs with _ => _ end] =>
        destruct (body fs) as [[a|e0] s1]
    end; [discriminate|].
    intros [= <- _]. eauto.
Qed.

Lemma per_file_transfers_raise_runtime_error_witness :
  exists e fs',
    safe_move_with_file_symlinks linux_env llama_path (usb_dir ++ ["llama"])
      [llama_path ++ ["absent.bin"]] [] local_fs
    = (Raise e, fs')
    /\ exn_kind e = RuntimeError
    /\ exists cause, exn_str e = "Failed to create file symlinks: " +:+ cause.
Proof.
  exists (Exn RuntimeError
            ("Failed to create file symlinks: "
               +:+ "[Errno 2] No such file or directory: "
               +:+ "'/home/models/acme/llama/absent.bin'")),
         (<[usb_dir ++ ["llama"] := Dir]> local_fs).
  assert (Hrun : safe_move_with_file_symlinks linux_env llama_path (usb_dir ++ ["llama"])
                   [llama_path ++ ["absent.bin"]] [] local_fs
                 = (Raise (Exn RuntimeError
                             ("Failed to create file symlinks: "
                                +:+ "[Errno 2] No such file or directory: "
                                +:+ "'/home/models/acme/llama/absent.bin'")),
                    <[usb_dir ++ ["llama"] := Dir]> local_fs)).
  { apply run_eq_fs; vm_compute; reflexivity. }
  split; [exact Hrun|].
  exact (proj1 (per_file_transfers_raise_runtime_error linux_env llama_path
                  (usb_dir ++ ["llama"]) [llama_path ++ ["absent.bin"]] [])
           _ _ _ Hrun).
Defined.

(** * The repair as a whole *)

Section RepairRounds.
Context (E : Env).

Lemma unlink_removes (p : list string) (fs : gmap (list string) node)
    (r : outcome unit) (fs1 : gmap (list string) node) :
  unlink E p fs = (r, fs1) ->
  fs1 = fs
  \/ exists k nd, locate_entry E p fs = Found k /\ node_at fs k = Some nd /\ nd <> Dir
                  /\ fs1 = delete k fs.
Proof.
  unfold unlink. destruct (locate_entry E p fs) as [k| |] eqn:Hl.
  - destruct (node_at fs k) as [[| |]|] eqn:Hn; intros [= <- <-]; eauto 8.
  - intros [= <- <-]; eauto.
  - intros [= <- <-]; eauto.
Qed.

(** The attempt to remove a link removes at most the entry its path leads
    to, and never a directory. *)
Lemma removal_attempt_key (mname : string) (p : list string) (msg : string)
    (mgr : ModelManager) (fs : gmap (list string) node) :
  exists r mgr' fs',
    try_except
      (lift_fs (unlink E p) ;;
       update_model mname (set_is_symlink_linked_to false None) ;;
       ret msg)
      (fun e => ret ("Failed to remove: " +:+ exn_str e)) (mgr, fs)
    = (Return r, (mgr', fs'))
    /\ (fs' = fs
        \/ exists k nd, locate_entry E p fs = Found k /\ node_at fs k = Some nd
                        /\ nd <> Dir /\ fs' = delete k fs).
Proof.
  unfold try_except, bind, lift_fs, update_model, lift_local, modify, ret. cbn [fst snd].
  destruct (unlink E p fs) as [r fs1] eqn:Hu.
  pose proof (unlink_removes _ _ _ _ Hu) as Hrem.
  destruct r as [[]|e]; cbn [fst snd]; eexists _, _, _; (split; [reflexivity|exact Hrem]).
Qed.

Lemma repair_entry_removes (item : string * ModelInfo) (results : list (string * string))
    (mgr : ModelManager) (fs : gmap (list string) node) :
  exists res mgr' fs',
    repair_entry E item results (mgr, fs) = (Return res, (mgr', fs'))
    /\ (fs' = fs
        \/ exists k nd, is_symlink item.2 = true
                        /\ locate_entry E (path item.2) fs = Found k
                        /\ node_at fs k = Some nd /\ nd <> Dir /\ fs' = delete k fs
                        /\ (health_is_broken (check_symlink_health E (path item.2) fs) = true
                            \/ health_target_exists
                                 (check_symlink_health E (path item.2) fs) = false)).
Proof.
  destruct item as [mname model]. unfold repair_entry. cbn [snd].
  destruct (is_symlink model); [|by eexists _, _, _; split; [reflexivity|left]].
  unfold bind at 1. unfold lift_fs at 1. unfold get at 1. cbn [fst snd].
  destruct (health_is_broken (check_symlink_health E (path model) fs)) eqn:Hb.
  - destruct (removal_attempt_key mname (path model) "Removed broken symlink" mgr fs)
      as (r & mgr' & fs' & Hrun & Hrem).
    unfold bind at 1. rewrite Hrun. unfold ret.
    eexists _, _, _. split; [reflexivity|].
    destruct Hrem as [->|(k & nd & ? & ? & ? & ->)]; [by left|right].
    exists k, nd. repeat split; auto.
  - destruct (health_target_exists (check_symlink_health E (path model) fs)) eqn:Ht;
      cbn [negb].
    + eexists _, _, _. split; [reflexivity|by left].
    + destruct (removal_attempt_key mname (path model) "Removed symlink to missing target"
                  mgr fs) as (r & mgr' & fs' & Hrun & Hrem).
      unfold bind at 1. rewrite Hrun. unfold ret.
      eexists _, _, _. split; [reflexivity|].
      destruct Hrem as [->|(k & nd & ? & ? & ? & ->)]; [by left|right].
      exists k, nd. repeat split; auto.
Qed.

(** The rounds never remove a directory. *)
Lemma repair_loop_keeps_directories (items : list (string * ModelInfo)) :
  forall results mgr fs res mgr' fs',
    repair_loop E items results (mgr, fs) = (Return res, (mgr', fs')) ->
    forall d, node_at fs d = Some Dir -> node_at fs' d = Some Dir.
Proof.
  induction items as [|item rest IH]; intros results mgr fs res mgr' fs'.
  - by intros [= _ _ <-].
  - cbn [repair_loop]. unfold bind at 1.
    destruct (repair_entry_removes item results mgr fs) as (res1 & mgr1 & fs1 & -> & Hrem).
    intros Hrest d Hd. apply (IH _ _ _ _ _ _ Hrest).
    destruct Hrem as [->|(k & nd & _ & _ & Hk & Hnd & -> & _)]; [done|].
    rewrite node_at_delete_ne; [done|]. intros ->. congruence.
Qed.

(** A path in a directory is its own key, as long as no directory is
    removed. *)
Lemma path_in_directory_key (fs0 fs : gmap (list string) node) (p k : list string) :
  well_formed fs0 = true ->
  path_in_directory fs0 p = true ->
  (forall d, node_at fs0 d = Some Dir -> node_at fs d = Some Dir) ->
  locate_entry E p fs = Found k -> k = p.
Proof.
  intros Hwf Hp Hdirs.
  unfold path_in_directory in Hp.
  apply andb_true_iff in Hp as [Hp Hpar]. apply andb_true_iff in Hp as [Hp Hroot].
  apply andb_true_iff in Hp as [Habs Hplain].
  apply bool_decide_eq_true in Hpar, Hroot, Hplain.
  destruct p as [|c p _] using rev_ind; [discriminate|].
  rewrite removelast_last in Hpar.
  assert (Hd : is_absolute p = true).
  { destruct p as [|r p]; [|exact Habs].
    simpl in Habs. apply bool_decide_eq_true in Habs. by subst. }
  destruct (snoc_absolute p c Hd) as [_ Htl]. rewrite Htl in Hplain.
  apply Forall_app in Hplain as [Hplain Hc]. rewrite Forall_singleton in Hc.
  rewrite locate_entry_below; [|eapply dir_chain_agree; [exact Hdirs|]|done|done].
  - by destruct (node_at fs (p ++ [c])); intros [= <-].
  - by apply dir_chain_of_well_formed.
Qed.

(** The rounds for entries in directories leave alone what lies at another
    path. *)
Lemma repair_loop_keeps_node (fs0 : gmap (list string) node) (k : list string) (nd : node)
    (items : list (string * ModelInfo)) :
  well_formed fs0 = true ->
  Forall (fun item => is_symlink item.2 = true ->
                      path_in_directory fs0 (path item.2) = true /\ path item.2 <> k) items ->
  forall results mgr fs res mgr' fs',
    (forall d, node_at fs0 d = Some Dir -> node_at fs d = Some Dir) ->
    node_at fs k = Some nd ->
    repair_loop E items results (mgr, fs) = (Return res, (mgr', fs')) ->
    node_at fs' k = Some nd.
Proof.
  intros Hwf Hitems. induction Hitems as [|item rest Hitem _ IH];
    intros results mgr fs res mgr' fs' Hdirs Hk.
  - by intros [= _ _ <-].
  - cbn [repair_loop]. unfold bind at 1.
    destruct (repair_entry_removes item results mgr fs) as (res1 & mgr1 & fs1 & -> & Hrem).
    intros Hrest.
    destruct Hrem as [->|(k0 & nd0 & Hlink & Hloc & Hk0 & Hnd0 & -> & _)].
    { by apply (IH _ _ _ _ _ _ Hdirs Hk Hrest). }
    destruct (Hitem Hlink) as [Hin Hne].
    apply (path_in_directory_key fs0 fs _ _ Hwf Hin Hdirs) in Hloc. subst k0.
    apply (IH _ _ _ _ _ _) with (3 := Hrest).
    + intros d Hd. rewrite node_at_delete_ne; [by apply Hdirs|].
      intros ->. specialize (Hdirs _ Hd). congruence.
    + by rewrite node_at_delete_ne.
Qed.

(** Every node that the rounds remove is removed by the round of an entry
    whose path leads to it and that the health check calls, at that
    moment, broken or without target. *)
Lemma repair_loop_removals_justified (mgr : ModelManager) (fs : gmap (list string) node)
    (items : list (string * ModelInfo)) :
  forall pre0 results mgrX fsX res mgr' fs',
    repair_loop E pre0 [] (mgr, fs) = (Return results, (mgrX, fsX)) ->
    repair_loop E items results (mgrX, fsX) = (Return res, (mgr', fs')) ->
    forall k nd, node_at fsX k = Some nd -> node_at fs' k = None ->
      exists pre item rest res0 mgr0 fs0,
        pre0 ++ items = pre ++ item :: rest
        /\ repair_loop E pre [] (mgr, fs) = (Return res0, (mgr0, fs0))
        /\ is_symlink item.2 = true
        /\ locate_entry E (path item.2) fs0 = Found k
        /\ (health_is_broken (check_symlink_health E (path item.2) fs0) = true
            \/ health_target_exists (check_symlink_health E (path item.2) fs0) = false).
Proof.
  induction items as [|item items IH]; intros pre0 results mgrX fsX res mgr' fs' Hpre.
  - intros [= _ _ <-] k nd Hk Hnone. congruence.
  - cbn [repair_loop]. unfold bind at 1.
    destruct (repair_entry_removes item results mgrX fsX)
      as (res1 & mgr1 & fs1 & Hstep & Hrem).
    rewrite Hstep. intros Hrest k nd Hk Hnone.
    assert (Hpre1 : repair_loop E (pre0 ++ [item]) [] (mgr, fs)
                    = (Return res1, (mgr1, fs1))).
    { rewrite repair_loop_app, Hpre. cbn [repair_loop]. unfold bind. by rewrite Hstep. }
    destruct (decide (node_at fs1 k = Some nd)) as [Hk1|Hk1].
    { destruct (IH _ _ _ _ _ _ _ Hpre1 Hrest k nd Hk1 Hnone)
        as (pre & item' & rest & res0 & mgr0 & fs0 & Heq & ?).
      exists pre, item', rest, res0, mgr0, fs0. split; [|done].
      by rewrite <- Heq, <- app_assoc. }
    destruct Hrem as [->|(k0 & nd0 & Hlink & Hloc & Hk0 & Hnd0 & -> & Hbad)]; [done|].
    destruct (decide (k = k0)) as [->|Hne]; [|by rewrite node_at_delete_ne in Hk1].
    exists pre0, item, items, results, mgrX, fsX. done.
Qed.

End RepairRounds.



(** What the repair of the three links leaves. *)
Example repair_three_links :
  let run := repair_broken_symlinks linux_env (three_links_manager, three_links_fs) in
  run.1 = Return [("acme/gone", "Removed symlink to missing target");
                  ("acme/lost", "Removed symlink to missing target")]
  /\ map_to_list run.2.2
     = map_to_list (delete ["/"; "home"; "models"; "acme"; "lost"]
                      (delete ["/"; "home"; "models"; "acme"; "gone"] three_links_fs))
  /\ is_symlink <$> get_model_by_name run.2.1 "acme/llama" = Some true
  /\ is_symlink <$> get_model_by_name run.2.1 "acme/gone" = Some false.
Proof. repeat split; vm_compute; reflexivity. Qed.

(** * The round trip of an entry with a linked directory *)

(** C6: the round trip of an entry whose directory holds a link to a
    directory.  Relocation and restoration both succeed.  The monitored
    move copies the tree with its links followed and then removes the
    source, so what was a link comes back from the removable root as a
    directory with a copy of the files of its target: the entry that
    measured 6 bytes before the relocation measures 9 after the
    restoration, while the record of the manager still says 6. *)
Theorem round_trip_grows_entry_with_linked_directory :
  let run1 :=
    move_model_to_usb linux_env "acme/llama" (manager_with "auto" 100, linked_dir_fs) in
  let run2 := move_model_from_usb linux_env "acme/llama" run1.2 in
  run1.1 = Return true
  /\ run2.1 = Return true
  /\ _calculate_size linux_env llama_path linked_dir_fs = 6
  /\ _calculate_size linux_env llama_path run2.2.2 = 9
  /\ node_at linked_dir_fs (llama_path ++ ["extra"]) = Some (Symlink ["/"; "home"; "shared"])
  /\ node_at run2.2.2 (llama_path ++ ["extra"]) = Some Dir
  /\ node_at run2.2.2 (llama_path ++ ["extra"; "vocab.bin"])
     = Some (File ["005"; "006"; "007"]%byte)
  /\ size_bytes <$> get_model_by_name run2.2.1 "acme/llama" = Some 6.
Proof. repeat split; vm_compute; reflexivity. Qed.

(** Without monitoring the move is a rename, which keeps the link: the
    same directory, moved to the removable root and back by [shutil.move],
    measures what it measured. *)
Example unmonitored_move_keeps_linked_directory :
  let there := (safe_move_with_verification linux_env llama_path llama_on_usb None
                  (<[ ["/"; "media"; "usb"; "acme"] := Dir ]> linked_dir_fs)).2 in
  let back := (shutil_move linux_env llama_on_usb llama_path there).2 in
  node_at there (llama_on_usb ++ ["extra"]) = Some (Symlink ["/"; "home"; "shared"])
  /\ node_at back (llama_path ++ ["extra"]) = Some (Symlink ["/"; "home"; "shared"])
  /\ _calculate_size linux_env llama_path back = 6.
Proof. repeat split; vm_compute; reflexivity. Qed.
